(** * Peer-map monitoring engine: a shallow embedding of [web/MBCoreServer.py]

    The development follows the layout of the Python module: Python values
    and payload dictionaries, the persistent geolocation store, the
    connectivity state machine, the geo worker, the refresh worker and the
    location status computed for consumers. *)

From Stdlib Require Import ZArith QArith Lqa String Ascii List.
From stdpp Require Import base option list gmap strings pretty.

Local Open Scope string_scope.
Local Open Scope list_scope.
Local Open Scope Z_scope.

Set Warnings "-register-all".

(** ** Python values *)

Module Py.

(** A Python [float]: not-a-number, an infinity, or a finite value.  Finite
    values are kept as exact rationals; the code below only compares them
    with the constants -180, -90, 0, 90 and 180. *)
Inductive pyfloat : Type :=
| FNaN
| FInf (negative : bool)
| FFin (q : Q).

(** The values a decoded JSON document (or an SQLite cell) can hold. *)
Inductive pyval : Type :=
| PNone
| PBool (b : bool)
| PInt (z : Z)
| PFloat (f : pyfloat)
| PStr (s : string)
| PList (items : list pyval)
| PDict (items : list (string * pyval)).

(** The exceptions the modelled code can meet. *)
Inductive exn : Type :=
| TypeError
| ValueError
| AttributeError
| OverflowError.

(** A computation that returns a value or raises. *)
Definition raising (A : Type) : Type := (exn + A)%type.

Definition ret {A} (a : A) : raising A := inr a.
Definition raise {A} (e : exn) : raising A := inl e.
Definition bind {A B} (m : raising A) (k : A -> raising B) : raising B :=
  match m with
  | inl e => inl e
  | inr a => k a
  end.

Declare Scope py_scope.
Delimit Scope py_scope with py.
Notation "'let!' x ':=' m 'in' k" := (bind m (fun x => k))
  (at level 10, x name, m at level 100, k at level 200) : py_scope.

(** A [dict] with string keys. *)
Abbreviation dict := (gmap string pyval).

(** [d.get(k, default)] *)
Definition dict_get (d : dict) (k : string) (default : pyval) : pyval :=
  match d !! k with
  | Some v => v
  | None => default
  end.

(** [bool(d)] for a dict: empty dictionaries are falsy. *)
Definition dict_truthy (d : dict) : bool :=
  match map_to_list d with
  | [] => false
  | _ :: _ => true
  end.

Definition float_is_zero (f : pyfloat) : bool :=
  match f with
  | FFin q => Qeq_bool q 0
  | _ => false
  end.

(** [bool(v)] *)
Definition truthy (v : pyval) : bool :=
  match v with
  | PNone => false
  | PBool b => b
  | PInt z => negb (z =? 0)
  | PFloat f => negb (float_is_zero f)
  | PStr s => negb (String.eqb s "")
  | PList items => match items with [] => false | _ => true end
  | PDict items => match items with [] => false | _ => true end
  end.

(** [a <= b] on floats: every comparison with a NaN is false. *)
Definition float_le (a b : pyfloat) : bool :=
  match a, b with
  | FNaN, _ | _, FNaN => false
  | FInf true, _ => true
  | _, FInf false => true
  | FInf false, _ => false
  | _, FInf true => false
  | FFin x, FFin y => Qle_bool x y
  end.

Definition float_of_Z (z : Z) : pyfloat := FFin (inject_Z z).

(** Integers at or above this magnitude do not fit a double:
    [float(n)] raises [OverflowError]. *)
Definition FLOAT_INT_LIMIT : Z := 2 ^ 1024 - 2 ^ 970.

(** Whitespace as [str.strip()] sees it, for characters below 256. *)
Definition isspace (c : ascii) : bool :=
  let n := nat_of_ascii c in
  ((9 <=? n) && (n <=? 13))%nat || ((28 <=? n) && (n <=? 32))%nat
  || (n =? 133)%nat || (n =? 160)%nat.

Fixpoint lstrip (s : string) : string :=
  match s with
  | EmptyString => EmptyString
  | String c rest => if isspace c then lstrip rest else s
  end.

Fixpoint rstrip (s : string) : string :=
  match s with
  | EmptyString => EmptyString
  | String c rest =>
      match rstrip rest with
      | EmptyString => if isspace c then EmptyString else String c EmptyString
      | r => String c r
      end
  end.

(** [s.strip()] *)
Definition strip (s : string) : string := rstrip (lstrip s).

(** [v.strip()]: only strings have the method. *)
Definition py_strip (v : pyval) : raising pyval :=
  match v with
  | PStr s => ret (PStr (strip s))
  | _ => raise AttributeError
  end.

(** Python's own parsers of numbers, taken as given: [float(s)] and
    [int(s)] for a string [s].  [None] stands for the [ValueError] of a
    string that does not parse. *)
Class Parsers : Type := {
  float_of_str : string -> option pyfloat;
  int_of_str : string -> option Z
}.

(** [float(v)].  For an integer the value is kept exact: rounding to the
    nearest double is monotone and leaves -180, -90, 0, 90 and 180 fixed,
    so no comparison made by the callers can tell the difference. *)
Definition py_float `{Parsers} (v : pyval) : raising pyfloat :=
  match v with
  | PNone => raise TypeError
  | PBool b => ret (float_of_Z (if b then 1 else 0))
  | PInt z =>
      if Z.abs z <? FLOAT_INT_LIMIT then ret (float_of_Z z)
      else raise OverflowError
  | PFloat f => ret f
  | PStr s =>
      match float_of_str s with
      | Some f => ret f
      | None => raise ValueError
      end
  | PList _ | PDict _ => raise TypeError
  end.

End Py.

(** ** The persistent geolocation store ([geo.db], table [geo_cache]) *)

Module GeoDb.
Import Py.

(** The columns of [geo_cache] other than the primary key [ip], in the order
    of the [CREATE TABLE] statement of [init_geo_database]. *)
Inductive column : Type :=
| c_continent | c_continentCode | c_country | c_countryCode
| c_region | c_regionName | c_city | c_district | c_zip
| c_lat | c_lon | c_timezone | c_utc_offset | c_currency
| c_isp | c_org | c_as_info | c_asname
| c_mobile | c_proxy | c_hosting | c_last_updated.

Definition columns : list column :=
  [c_continent; c_continentCode; c_country; c_countryCode;
   c_region; c_regionName; c_city; c_district; c_zip;
   c_lat; c_lon; c_timezone; c_utc_offset; c_currency;
   c_isp; c_org; c_as_info; c_asname;
   c_mobile; c_proxy; c_hosting; c_last_updated].

Definition column_name (c : column) : string :=
  match c with
  | c_continent => "continent" | c_continentCode => "continentCode"
  | c_country => "country" | c_countryCode => "countryCode"
  | c_region => "region" | c_regionName => "regionName"
  | c_city => "city" | c_district => "district" | c_zip => "zip"
  | c_lat => "lat" | c_lon => "lon" | c_timezone => "timezone"
  | c_utc_offset => "utc_offset" | c_currency => "currency"
  | c_isp => "isp" | c_org => "org" | c_as_info => "as_info" | c_asname => "asname"
  | c_mobile => "mobile" | c_proxy => "proxy" | c_hosting => "hosting"
  | c_last_updated => "last_updated"
  end.

(** The declared type of each column. *)
Inductive affinity : Type := TEXT | REAL | INTEGER.

Definition column_affinity (c : column) : affinity :=
  match c with
  | c_lat | c_lon => REAL
  | c_utc_offset | c_mobile | c_proxy | c_hosting | c_last_updated => INTEGER
  | _ => TEXT
  end.

(** A row of [geo_cache], keyed by its [ip]: one cell per other column. *)
Definition row : Type := column -> pyval.

(** The file [GEO_DB_FILE] when it exists: an SQLite file without the
    [geo_cache] table, or the table with its rows.

    [Table] is the table of [init_geo_database], whose primary key is the
    text of the address: [rows] holds the rows that carry one, one row per
    address.  [ip TEXT PRIMARY KEY] does not make the column [NOT NULL],
    and SQLite takes two [NULL] keys as different: [unkeyed] holds the rows
    whose [ip] is [NULL], of which there can be any number.

    [Unindexed] is a table [geo_cache] with the same columns on which [ip]
    is no key, as a downloaded file may have it: its rows in the order of
    their row ids, each with its address or [None] for [NULL]. *)
Inductive db_content : Type :=
| NoTable
| Table (rows : gmap string row) (unkeyed : list row)
| Unindexed (listed : list (option string * row)).

(** The rows of a table with their addresses, as [SELECT *] lists them. *)
Definition all_rows (content : db_content) : list (option string * row) :=
  match content with
  | NoTable => []
  | Table rows unkeyed =>
      map (fun kr => (Some kr.1, kr.2)) (map_to_list rows)
      ++ map (fun r => (None, r)) unkeyed
  | Unindexed listed => listed
  end.

(** The first row listed under the address [ip]. *)
Fixpoint first_row (ip : string) (listed : list (option string * row))
  : option row :=
  match listed with
  | [] => None
  | (Some k, r) :: rest => if String.eqb k ip then Some r else first_row ip rest
  | (None, _) :: rest => first_row ip rest
  end.

Record store : Type := mkStore {
  geo_db_enabled : bool;
  GEO_DB_FILE : option db_content
}.

(** [dict(row)] for an [sqlite3.Row]: every column under its name. *)
Definition dict_of_row (ip : string) (r : row) : dict :=
  <["ip" := PStr ip]>
    (list_to_map (map (fun c => (column_name c, r c)) columns)).

(** [get_geo_from_db] *)
Definition get_geo_from_db (st : store) (ip : string) : option dict :=
  if negb (geo_db_enabled st) then None
  else
    match GEO_DB_FILE st with
    | None => None
    | Some NoTable => None                     (* the query raises: except *)
    | Some (Table rows _) =>                   (* [WHERE ip = ?] *)
        match rows !! ip with
        | Some r => Some (dict_of_row ip r)
        | None => None
        end
    | Some (Unindexed listed) =>               (* [fetchone()] *)
        match first_row ip listed with
        | Some r => Some (dict_of_row ip r)
        | None => None
        end
    end.

(** [int(t)] for a clock reading: truncation toward zero. *)
Definition py_int_of_time (t : Q) : Z := Z.quot (Qnum t) (Zpos (Qden t)).

(** The parameter tuple of the [INSERT] in [save_geo_to_db]: the value
    bound for each column. *)
Definition bound_param (data : dict) (now : Q) (c : column) : pyval :=
  let flag v := PInt (if truthy v then 1 else 0) in
  match c with
  | c_continent => dict_get data "continent" (PStr "")
  | c_continentCode => dict_get data "continentCode" (PStr "")
  | c_country => dict_get data "country" (PStr "")
  | c_countryCode => dict_get data "countryCode" (PStr "")
  | c_region => dict_get data "region" (PStr "")
  | c_regionName => dict_get data "regionName" (PStr "")
  | c_city => dict_get data "city" (PStr "")
  | c_district => dict_get data "district" (PStr "")
  | c_zip => dict_get data "zip" (PStr "")
  | c_lat => dict_get data "lat" (PInt 0)
  | c_lon => dict_get data "lon" (PInt 0)
  | c_timezone => dict_get data "timezone" (PStr "")
  | c_utc_offset => dict_get data "offset" (PInt 0)
  | c_currency => dict_get data "currency" (PStr "")
  | c_isp => dict_get data "isp" (PStr "")
  | c_org => dict_get data "org" (PStr "")
  | c_as_info => dict_get data "as" (PStr "")
  | c_asname => dict_get data "asname" (PStr "")
  | c_mobile => flag (dict_get data "mobile" (PBool false))
  | c_proxy => flag (dict_get data "proxy" (PBool false))
  | c_hosting => flag (dict_get data "hosting" (PBool false))
  | c_last_updated => PInt (py_int_of_time now)
  end.

(** [INSERT OR IGNORE] of one row into the table of [init_geo_database]:
    a row whose address is present is skipped; a row without an address
    meets no conflict and is added. *)
Definition insert_or_ignore (table : gmap string row * list row)
           (kr : option string * row) : gmap string row * list row :=
  match kr.1 with
  | Some k =>
      match table.1 !! k with
      | Some _ => table
      | None => (<[k := kr.2]> table.1, table.2)
      end
  | None => (table.1, table.2 ++ [kr.2])
  end.

(** [executemany] of the [INSERT OR IGNORE] over the downloaded rows. *)
Definition merge_rows (table : gmap string row * list row)
           (remote : list (option string * row))
  : gmap string row * list row :=
  foldl insert_or_ignore table remote.

(** What [requests.get(GEO_DB_REPO_URL)] gave: an exception, or a status
    and the downloaded file, whose table is taken with the columns of
    [init_geo_database]. *)
Inductive download : Type :=
| RequestError
| Response (status_code : Z) (body : db_content).

(** The replies of [api_geodb_update]. *)
Inductive update_reply : Type :=
| Disabled
| DownloadFailed (status_code : Z)
| NotAGeoDatabase
| RemoteEmpty
| DownloadedDatabase (remote_count : nat)
| NewEntries (new_count total : nat)
| UpToDate (total : nat)
| UpdateError.

(** [api_geodb_update]: download the published database and merge it.
    Without a local file the download becomes the store as it is.  On a
    local table without the key no [INSERT OR IGNORE] meets a conflict. *)
Definition api_geodb_update (dl : download) (st : store)
  : store * update_reply :=
  if negb (geo_db_enabled st) then (st, Disabled)
  else
    match dl with
    | RequestError => (st, UpdateError)
    | Response status_code body =>
        if negb (status_code =? 200) then (st, DownloadFailed status_code)
        else
          match body with
          | NoTable => (st, NotAGeoDatabase)
          | _ =>
              let remote_rows := all_rows body in
              let remote_count := length remote_rows in
              if (remote_count =? 0)%nat then (st, RemoteEmpty)
              else
                let reply (before total : nat) :=
                  let new_count := (total - before)%nat in
                  if (0 <? new_count)%nat then NewEntries new_count total
                  else UpToDate total in
                match GEO_DB_FILE st with
                | None =>
                    (mkStore (geo_db_enabled st) (Some body),
                     DownloadedDatabase remote_count)
                | Some NoTable => (st, UpdateError)
                | Some (Table rows unkeyed) =>
                    let before := (size rows + length unkeyed)%nat in
                    let merged := merge_rows (rows, unkeyed) remote_rows in
                    let total := (size merged.1 + length merged.2)%nat in
                    (mkStore (geo_db_enabled st)
                             (Some (Table merged.1 merged.2)),
                     reply before total)
                | Some (Unindexed listed) =>
                    let before := length listed in
                    let listed' := listed ++ remote_rows in
                    let total := length listed' in
                    (mkStore (geo_db_enabled st) (Some (Unindexed listed')),
                     reply before total)
                end
          end
    end.

(** What SQLite keeps when a Python value is bound to a column of the given
    type (the [sqlite3] adapter followed by the column's type affinity),
    taken as given; [None] when the binding raises. *)
Class Sqlite : Type :=
  sqlite_cell : affinity -> pyval -> option pyval.

(** The row the [INSERT] writes, or [None] when a binding raises. *)
Definition insert_row `{Sqlite} (data : dict) (now : Q) : option row :=
  let cell c := sqlite_cell (column_affinity c) (bound_param data now c) in
  if forallb (fun c => bool_decide (is_Some (cell c))) columns
  then Some (fun c => default PNone (cell c))
  else None.

(** [save_geo_to_db]: insert the row, or overwrite every column of the row
    that has this [ip]; the address bound is a string, so rows without an
    address are not touched.  Any exception is printed and dropped: a binding
    that raises, the [INSERT] into a file without the table, which is
    also what [sqlite3.connect] leaves behind when the file was missing, or
    the [ON CONFLICT(ip)] clause on a table where [ip] is no key. *)
Definition save_geo_to_db `{Sqlite} (ip : string) (data : dict) (now : Q)
           (st : store) : store :=
  if negb (geo_db_enabled st) then st
  else
    match GEO_DB_FILE st with
    | None => mkStore (geo_db_enabled st) (Some NoTable)
    | Some NoTable => st
    | Some (Table rows unkeyed) =>
        match insert_row data now with
        | Some r =>
            mkStore (geo_db_enabled st)
                    (Some (Table (<[ip := r]> rows) unkeyed))
        | None => st
        end
    | Some (Unindexed _) => st
    end.

End GeoDb.

(** ** Connectivity monitoring *)

Module Connectivity.

(** The values of [internet_state]. *)
Inductive level : Type := green | yellow | red.

#[global] Instance level_eq_dec : EqDecision level.
Proof. solve_decision. Defined.

Definition level_eqb (a b : level) : bool :=
  match a, b with
  | green, green | yellow, yellow | red, red => true
  | _, _ => false
  end.

(** The module-level connectivity variables.  [connectivity_broadcasts]
    logs the states published by [set_internet_state], latest first, and
    [connectivity_thread_alive] tells whether the checker thread runs. *)
Record state : Type := mkState {
  internet_state : level;
  internet_consecutive_ok : Z;
  internet_failure_start : option Q;
  api_down_prompt_active : bool;
  api_down_prompt_count : Z;
  api_down_last_prompt_time : Q;
  connectivity_thread_alive : bool;
  connectivity_broadcasts : list level
}.

(** The values at import time. *)
Definition initial : state :=
  mkState green 0 None false 0 0 false [].

(** Truth value of [internet_failure_start]: [None] and [0.0] are falsy. *)
Definition failure_start_truthy (t : option Q) : bool :=
  match t with
  | None => false
  | Some q => negb (Qeq_bool q 0)
  end.

(** [set_internet_state]: nothing happens when the state is unchanged;
    otherwise the state is stored and the change is broadcast. *)
Definition set_internet_state (new_state : level) (st : state) : state :=
  if level_eqb (internet_state st) new_state then st
  else
    mkState new_state
            (internet_consecutive_ok st) (internet_failure_start st)
            (api_down_prompt_active st) (api_down_prompt_count st)
            (api_down_last_prompt_time st)
            (connectivity_thread_alive st)
            (new_state :: connectivity_broadcasts st).

(** [_ensure_connectivity_thread] *)
Definition _ensure_connectivity_thread (st : state) : state :=
  mkState (internet_state st)
          (internet_consecutive_ok st) (internet_failure_start st)
          (api_down_prompt_active st) (api_down_prompt_count st)
          (api_down_last_prompt_time st)
          true
          (connectivity_broadcasts st).

(** [on_network_failure], with [now] the reading of [time.time()]. *)
Definition on_network_failure (now : Q) (st : state) : state :=
  let st1 :=
    mkState (internet_state st)
            0
            (if level_eqb (internet_state st) green then Some now
             else internet_failure_start st)
            (api_down_prompt_active st) (api_down_prompt_count st)
            (api_down_last_prompt_time st)
            (connectivity_thread_alive st)
            (connectivity_broadcasts st) in
  _ensure_connectivity_thread (set_internet_state yellow st1).

(** [on_network_success] *)
Definition on_network_success (st : state) : state :=
  if level_eqb (internet_state st) green then st
  else
    let ok := internet_consecutive_ok st + 1 in
    let st1 :=
      if 4 <=? ok then
        mkState (internet_state st) 0 None false 0 0
                (connectivity_thread_alive st) (connectivity_broadcasts st)
      else
        mkState (internet_state st) ok (internet_failure_start st)
                (api_down_prompt_active st) (api_down_prompt_count st)
                (api_down_last_prompt_time st)
                (connectivity_thread_alive st) (connectivity_broadcasts st) in
    if (internet_consecutive_ok st1 =? 0)
       && bool_decide (internet_failure_start st1 = None)
    then set_internet_state green st1
    else st1.

(** Seconds of failure after which yellow turns red. *)
Definition RED_AFTER : Q := 10.

(** One turn of the loop of [_connectivity_checker]: [success] is the
    result of [ping_google()] and [now] the reading of [time.time()] in the
    yellow-to-red test.  The thread returns when it finds the state green.
    The closing delay changes no variable and is left out. *)
Definition _connectivity_checker (success : bool) (now : Q) (st : state)
  : state :=
  if level_eqb (internet_state st) green then
    mkState (internet_state st)
            (internet_consecutive_ok st) (internet_failure_start st)
            (api_down_prompt_active st) (api_down_prompt_count st)
            (api_down_last_prompt_time st)
            false
            (connectivity_broadcasts st)
  else if success then on_network_success st
  else
    let st1 :=
      mkState (internet_state st) 0 (internet_failure_start st)
              (api_down_prompt_active st) (api_down_prompt_count st)
              (api_down_last_prompt_time st)
              (connectivity_thread_alive st) (connectivity_broadcasts st) in
    if level_eqb (internet_state st1) yellow
       && failure_start_truthy (internet_failure_start st1)
    then
      match internet_failure_start st1 with
      | Some start =>
          if Qle_bool RED_AFTER (now - start) then set_internet_state red st1
          else st1
      | None => st1
      end
    else st1.

(** The start-up path of [main] when [MBTC_OFFLINE_START] is set. *)
Definition start_offline (now : Q) (st : state) : state :=
  let st1 := set_internet_state red st in
  _ensure_connectivity_thread
    (mkState (internet_state st1) (internet_consecutive_ok st1) (Some now)
             (api_down_prompt_active st1) (api_down_prompt_count st1)
             (api_down_last_prompt_time st1)
             (connectivity_thread_alive st1) (connectivity_broadcasts st1)).

(** The signals that reach the monitor: a failed or successful network
    call reported by a caller, and a probe of the checker thread. *)
Inductive signal : Type :=
| NetworkFailure (now : Q)
| NetworkSuccess
| Probe (success : bool) (now : Q).

Definition step (st : state) (s : signal) : state :=
  match s with
  | NetworkFailure now => on_network_failure now st
  | NetworkSuccess => on_network_success st
  | Probe success now => _connectivity_checker success now st
  end.

Definition run (st : state) (signals : list signal) : state :=
  foldl step st signals.

(** A signal that reports success: a caller's, or a successful probe. *)
Definition is_success (s : signal) : bool :=
  match s with
  | NetworkSuccess => true
  | Probe success _ => success
  | NetworkFailure _ => false
  end.

(** *** Calls of [on_network_success] that overlap

    [on_network_success] takes [internet_state_lock] twice and calls
    [set_internet_state] after the second release, so the steps of two
    callers (the checker thread, a request handler) can alternate. *)

(** The first lock block: the counter is raised, and reset with the
    failure start at the fourth success.  [None] when the call returns at
    once because the state is green. *)
Definition success_count (st : state) : option state :=
  if level_eqb (internet_state st) green then None
  else
    let ok := internet_consecutive_ok st + 1 in
    Some (if 4 <=? ok then
            mkState (internet_state st) 0 None false 0 0
                    (connectivity_thread_alive st) (connectivity_broadcasts st)
          else
            mkState (internet_state st) ok (internet_failure_start st)
                    (api_down_prompt_active st) (api_down_prompt_count st)
                    (api_down_last_prompt_time st)
                    (connectivity_thread_alive st)
                    (connectivity_broadcasts st)).

(** The second lock block with the call of [set_internet_state('green')]
    that follows it when the block does not return.  They are taken as one
    step: every schedule of this model is a schedule of the program. *)
Definition success_publish (st : state) : state :=
  if (internet_consecutive_ok st =? 0)
     && bool_decide (internet_failure_start st = None)
  then set_internet_state green st
  else st.

(** Where a call of [on_network_success] stands: before its first block,
    between its two blocks, or back at its caller. *)
Inductive call : Type := Entered | Counted | Returned.

(** The next step of a call. *)
Definition advance (c : call) (st : state) : call * state :=
  match c with
  | Entered =>
      match success_count st with
      | Some st' => (Counted, st')
      | None => (Returned, st)
      end
  | Counted => (Returned, success_publish st)
  | Returned => (Returned, st)
  end.

(** Two calls in flight; the schedule names, step by step, the call that
    runs: [true] for the first, [false] for the second. *)
Fixpoint interleave (schedule : list bool) (a b : call) (st : state)
  : call * call * state :=
  match schedule with
  | [] => (a, b, st)
  | true :: rest =>
      let '(a', st') := advance a st in interleave rest a' b st'
  | false :: rest =>
      let '(b', st') := advance b st in interleave rest a b' st'
  end.

End Connectivity.

(** ** Network utilities *)

Module Net.
Import Py.

(** [s.startswith(p)] *)
Definition startswith (s p : string) : bool := String.prefix p s.

(** [sub in s] *)
Fixpoint contains (sub s : string) : bool :=
  match s with
  | EmptyString => String.prefix sub EmptyString
  | String _ rest => String.prefix sub s || contains sub rest
  end.

(** [s.count(c)] for a one-character [c] *)
Fixpoint count_char (c : ascii) (s : string) : nat :=
  match s with
  | EmptyString => 0%nat
  | String a rest =>
      ((if Ascii.eqb a c then 1 else 0) + count_char c rest)%nat
  end.

(** [s[n:]] *)
Fixpoint string_drop (n : nat) (s : string) : string :=
  match n, s with
  | O, _ => s
  | S _, EmptyString => EmptyString
  | S m, String _ rest => string_drop m rest
  end.

(** [s.split(sep)[0]], for a separator that is not empty: the text before
    the first [sep], or all of [s]. *)
Fixpoint split_head (sep s : string) : string :=
  match s with
  | EmptyString => EmptyString
  | String c rest =>
      if String.prefix sep s then EmptyString
      else String c (split_head sep rest)
  end.

(** The text after the first [sep], when [sep] occurs in [s]. *)
Fixpoint split_rest (sep s : string) : option string :=
  match s with
  | EmptyString => None
  | String c rest =>
      if String.prefix sep s then Some (string_drop (String.length sep) s)
      else split_rest sep rest
  end.

(** [s.split(sep)[1]], when [sep] occurs in [s]. *)
Definition split_second (sep s : string) : option string :=
  match split_rest sep s with
  | Some rest => Some (split_head sep rest)
  | None => None
  end.

(** [s.rsplit(c, 1)] when [c] occurs in [s]: the text before and after the
    last [c]. *)
Fixpoint rsplit1 (c : ascii) (s : string) : option (string * string) :=
  match s with
  | EmptyString => None
  | String a rest =>
      match rsplit1 c rest with
      | Some (h, t) => Some (String a h, t)
      | None => if Ascii.eqb a c then Some (EmptyString, rest) else None
      end
  end.

Definition colon : ascii := ":"%char.

(** [get_network_type] *)
Definition get_network_type (addr : string) : string :=
  if contains ".onion" addr then "onion"
  else if contains ".i2p" addr then "i2p"
  else if startswith addr "fc" || startswith addr "fd" then "cjdns"
  else if contains ":" addr && (1 <? count_char colon addr)%nat then "ipv6"
  else "ipv4".

(** [is_private_ip].  The [try] around [int(...)] swallows every
    exception. *)
Definition is_private_ip `{Parsers} (ip : string) : bool :=
  if startswith ip "10." || startswith ip "192.168." then true
  else if startswith ip "172."
          && match split_second "." ip with
             | Some part =>
                 match int_of_str part with
                 | Some n => (16 <=? n) && (n <=? 31)
                 | None => false
                 end
             | None => false
             end
  then true
  else if startswith ip "127." || String.eqb ip "localhost" then true
  else if startswith ip "fe80:" || String.eqb ip "::1" then true
  else false.

(** [is_public_address] *)
Definition is_public_address `{Parsers} (network_type ip : string) : bool :=
  (String.eqb network_type "ipv4" || String.eqb network_type "ipv6")
  && negb (is_private_ip ip).

(** [extract_ip] *)
Definition extract_ip (addr : string) : string :=
  if startswith addr "[" then string_drop 1 (split_head "]" addr)
  else if contains ":" addr && (count_char colon addr <=? 1)%nat then
    match rsplit1 colon addr with
    | Some (h, _) => h
    | None => addr
    end
  else if contains ":" addr then split_head ":" addr
  else addr.

(** [extract_port] *)
Definition extract_port (addr : string) : string :=
  if startswith addr "[" && contains "]:" addr then
    match split_second "]:" addr with
    | Some p => p
    | None => EmptyString
    end
  else if contains ":" addr && (count_char colon addr <=? 1)%nat then
    match rsplit1 colon addr with
    | Some (_, t) => t
    | None => EmptyString
    end
  else EmptyString.

End Net.

(** ** The monitoring engine: shared state, geo worker, refresh worker *)

Module Engine.
Import Py GeoDb Net.
Import Connectivity (level, green, yellow, red, level_eqb).

Local Open Scope py_scope.

(** *** Validation of a payload of the geolocation service *)

Definition is_None (v : pyval) : bool :=
  match v with
  | PNone => true
  | _ => false
  end.

(** The body of the [try] of [is_valid_geo_data]. *)
Definition is_valid_geo_data_body `{Parsers} (data : dict) : raising bool :=
  let lat := dict_get data "lat" PNone in
  let lon := dict_get data "lon" PNone in
  let country := dict_get data "country" (PStr "") in
  if is_None lat || is_None lon then ret false
  else
    let! lat := py_float lat in
    let! lon := py_float lon in
    if negb (float_le (float_of_Z (-90)) lat && float_le lat (float_of_Z 90))
       || negb (float_le (float_of_Z (-180)) lon
                && float_le lon (float_of_Z 180))
    then ret false
    else if float_is_zero lat && float_is_zero lon && negb (truthy country)
    then ret false
    else if negb (truthy country) then ret false
    else
      let! stripped := py_strip country in
      if negb (truthy stripped) then ret false
      else ret true.

(** [is_valid_geo_data]: [TypeError] and [ValueError] mean "not valid";
    any other exception leaves the function. *)
Definition is_valid_geo_data `{Parsers} (data : dict) : raising bool :=
  match is_valid_geo_data_body data with
  | inl TypeError | inl ValueError => ret false
  | r => r
  end.

(** *** Session cache entries *)

(** The entry the geo worker stores for resolved [data]. *)
Definition ok_entry (data : dict) (from_db : bool) : dict :=
  list_to_map
    [("status", PStr "ok");
     ("continent", dict_get data "continent" (PStr ""));
     ("continentCode", dict_get data "continentCode" (PStr ""));
     ("country", dict_get data "country" (PStr ""));
     ("countryCode", dict_get data "countryCode" (PStr ""));
     ("region", dict_get data "region" (PStr ""));
     ("regionName", dict_get data "regionName" (PStr ""));
     ("city", dict_get data "city" (PStr ""));
     ("district", dict_get data "district" (PStr ""));
     ("zip", dict_get data "zip" (PStr ""));
     ("lat", dict_get data "lat" (PInt 0));
     ("lon", dict_get data "lon" (PInt 0));
     ("timezone", dict_get data "timezone" (PStr ""));
     ("offset", if from_db then dict_get data "utc_offset" PNone
                else dict_get data "offset" (PInt 0));
     ("currency", dict_get data "currency" (PStr ""));
     ("isp", dict_get data "isp" (PStr ""));
     ("org", dict_get data "org" (PStr ""));
     ("as", if from_db then dict_get data "as_info" PNone
            else dict_get data "as" (PStr ""));
     ("asname", dict_get data "asname" (PStr ""));
     ("mobile", dict_get data "mobile" (PBool false));
     ("proxy", dict_get data "proxy" (PBool false));
     ("hosting", dict_get data "hosting" (PBool false))].

(** The entry without location data, under the given [status]. *)
Definition blank_entry (status : string) : dict :=
  list_to_map
    [("status", PStr status);
     ("continent", PStr ""); ("continentCode", PStr "");
     ("country", PStr ""); ("countryCode", PStr "");
     ("region", PStr ""); ("regionName", PStr "");
     ("city", PStr ""); ("district", PStr ""); ("zip", PStr "");
     ("lat", PInt 0); ("lon", PInt 0);
     ("timezone", PStr ""); ("offset", PInt 0); ("currency", PStr "");
     ("isp", PStr ""); ("org", PStr ""); ("as", PStr ""); ("asname", PStr "");
     ("mobile", PBool false); ("proxy", PBool false);
     ("hosting", PBool false)].

(** [d.get('status') == s] *)
Definition status_is (d : dict) (s : string) : bool :=
  match dict_get d "status" PNone with
  | PStr t => String.eqb t s
  | _ => false
  end.

(** *** Shared state *)

(** The geolocation variables of the module, with the [offline_queue] of
    [geo_worker] and two logs: the addresses requested from the external
    service, and the number of [GEO_API_DELAY] pauses taken. *)
Record geo_state : Type := mkGeo {
  api_consecutive_failures : Z;
  geo_db_only_mode : bool;
  db : store;
  geo_cache : gmap string dict;
  geo_queue : list (string * string);
  pending_lookups : gset string;
  geo_pending_count : nat;
  offline_queue : list (string * string);
  api_requests : list string;
  api_delays : nat
}.

(** The entries of a [getpeerinfo] record that the engine reads. *)
Record peer : Type := mkPeer {
  id : option Z;
  addr : string;
  network : option string
}.

(** A value of [peer_ip_map], also the payload of a change event. *)
Record peer_info : Type := mkInfo {
  info_ip : string;
  info_port : string;
  info_network : string
}.

Inductive change_kind : Type := connected | disconnected.

(** An element of [recent_changes]. *)
Definition change : Type := (Q * change_kind * peer_info)%type.

(** The variables of the peer tracker, with the [previous_ids] and
    [addrman_refresh_counter] of [refresh_worker]. *)
Record tracker_state : Type := mkTracker {
  current_peers : list peer;
  peer_ip_map : gmap string peer_info;
  recent_changes : list change;
  previous_ids : gset string;
  addrman_refresh_counter : Z;
  addrman_cache : gset string
}.

(** The whole engine; [updates] logs the event types given to
    [broadcast_update] by the two workers, latest first. *)
Record world : Type := mkWorld {
  conn : Connectivity.state;
  geo : geo_state;
  tracker : tracker_state;
  updates : list string
}.

Definition initial : world :=
  mkWorld Connectivity.initial
          (mkGeo 0 false (mkStore false None) ∅ [] ∅ 0 [] [] 0)
          (mkTracker [] ∅ [] ∅ 0 ∅)
          [].

(** Field updates. *)
Definition with_geo (f : geo_state -> geo_state) (w : world) : world :=
  mkWorld (conn w) (f (geo w)) (tracker w) (updates w).

Definition with_tracker (f : tracker_state -> tracker_state) (w : world)
  : world :=
  mkWorld (conn w) (geo w) (f (tracker w)) (updates w).

Definition with_conn (f : Connectivity.state -> Connectivity.state)
           (w : world) : world :=
  mkWorld (f (conn w)) (geo w) (tracker w) (updates w).

Definition set_api_consecutive_failures (n : Z) (g : geo_state) : geo_state :=
  mkGeo n (geo_db_only_mode g) (db g) (geo_cache g) (geo_queue g)
        (pending_lookups g) (geo_pending_count g) (offline_queue g)
        (api_requests g) (api_delays g).

Definition set_db (s : store) (g : geo_state) : geo_state :=
  mkGeo (api_consecutive_failures g) (geo_db_only_mode g) s (geo_cache g)
        (geo_queue g) (pending_lookups g) (geo_pending_count g)
        (offline_queue g) (api_requests g) (api_delays g).

Definition set_geo_cache (c : gmap string dict) (g : geo_state) : geo_state :=
  mkGeo (api_consecutive_failures g) (geo_db_only_mode g) (db g) c
        (geo_queue g) (pending_lookups g) (geo_pending_count g)
        (offline_queue g) (api_requests g) (api_delays g).

Definition set_geo_queue (q : list (string * string)) (g : geo_state)
  : geo_state :=
  mkGeo (api_consecutive_failures g) (geo_db_only_mode g) (db g) (geo_cache g)
        q (pending_lookups g) (geo_pending_count g)
        (offline_queue g) (api_requests g) (api_delays g).

Definition set_pending_lookups (p : gset string) (g : geo_state) : geo_state :=
  mkGeo (api_consecutive_failures g) (geo_db_only_mode g) (db g) (geo_cache g)
        (geo_queue g) p (geo_pending_count g)
        (offline_queue g) (api_requests g) (api_delays g).

Definition set_geo_pending_count (n : nat) (g : geo_state) : geo_state :=
  mkGeo (api_consecutive_failures g) (geo_db_only_mode g) (db g) (geo_cache g)
        (geo_queue g) (pending_lookups g) n
        (offline_queue g) (api_requests g) (api_delays g).

Definition set_offline_queue (q : list (string * string)) (g : geo_state)
  : geo_state :=
  mkGeo (api_consecutive_failures g) (geo_db_only_mode g) (db g) (geo_cache g)
        (geo_queue g) (pending_lookups g) (geo_pending_count g)
        q (api_requests g) (api_delays g).

Definition set_api_requests (l : list string) (g : geo_state) : geo_state :=
  mkGeo (api_consecutive_failures g) (geo_db_only_mode g) (db g) (geo_cache g)
        (geo_queue g) (pending_lookups g) (geo_pending_count g)
        (offline_queue g) l (api_delays g).

Definition set_api_delays (n : nat) (g : geo_state) : geo_state :=
  mkGeo (api_consecutive_failures g) (geo_db_only_mode g) (db g) (geo_cache g)
        (geo_queue g) (pending_lookups g) (geo_pending_count g)
        (offline_queue g) (api_requests g) n.

(** [broadcast_update(event_type, ...)] *)
Definition broadcast_update (event_type : string) (w : world) : world :=
  mkWorld (conn w) (geo w) (tracker w) (event_type :: updates w).

(** *** The geo worker *)

(** What [requests.get] gave the geo lookup: an exception, or a status
    with the decoded body ([None] when [response.json()] raises or the
    document is not an object, which ends in the same [except]). *)
Inductive api_reply : Type :=
| RequestRaised
| Replied (status_code : Z) (body : option dict).

(** The failure path of [fetch_geo_api]. *)
Definition api_failed (now : Q) (w : world) : world :=
  with_conn (Connectivity.on_network_failure now)
    (with_geo (fun g =>
       set_api_consecutive_failures (api_consecutive_failures g + 1) g) w).

(** [fetch_geo_api]: the request is logged, then the reply is examined. *)
Definition fetch_geo_api (ip : string) (reply : api_reply) (now : Q)
           (w : world) : option dict * world :=
  let w := with_geo (fun g => set_api_requests (ip :: api_requests g) g) w in
  match reply with
  | RequestRaised => (None, api_failed now w)
  | Replied status_code body =>
      if negb (status_code =? 200) then (None, api_failed now w)
      else
        match body with
        | None => (None, api_failed now w)
        | Some data =>
            if status_is data "success" then
              (Some data,
               with_conn Connectivity.on_network_success
                 (with_geo (set_api_consecutive_failures 0) w))
            else (None, w)
        end
  end.

(** [internet_state in ('yellow', 'red')] *)
Definition offline (w : world) : bool :=
  match Connectivity.internet_state (conn w) with
  | yellow | red => true
  | green => false
  end.

(** [geo_db_only_mode or internet_state in ('yellow', 'red')] *)
Definition skip_api (w : world) : bool :=
  geo_db_only_mode (geo w) || offline w.

(** A loop turn either goes on or ends the thread with an exception. *)
Inductive outcome : Type :=
| Running (w : world)
| Died (e : exn) (w : world).

(** [bool(data)] for an [Optional[dict]] *)
Definition data_truthy (data : option dict) : bool :=
  match data with
  | Some d => dict_truthy d
  | None => false
  end.

(** The tail of a loop turn of [geo_worker]: the session cache is written,
    the address leaves [pending_lookups], the pending count is refreshed,
    the update is broadcast, and the worker pauses after a call of the
    service. *)
Definition store_result (ip : string) (data : option dict) (from_db : bool)
           (w : world) : world :=
  let entry :=
    match data with
    | Some d => if dict_truthy d then ok_entry d from_db
                else blank_entry "unavailable"
    | None => blank_entry "unavailable"
    end in
  let w := with_geo (fun g => set_geo_cache (<[ip := entry]> (geo_cache g)) g) w in
  let w := with_geo (fun g =>
             set_pending_lookups (pending_lookups g ∖ {[ip]}) g) w in
  let w := with_geo (fun g =>
             set_geo_pending_count (size (pending_lookups g)) g) w in
  let w := broadcast_update "geo_update" w in
  if negb from_db && negb (skip_api w)
  then with_geo (fun g => set_api_delays (S (api_delays g)) g) w
  else w.

(** The body of a loop turn of [geo_worker] for a dequeued address. *)
Definition lookup `{Parsers, Sqlite} (reply : api_reply) (now : Q)
           (ip network_type : string) (w : world) : outcome :=
  let db_data := get_geo_from_db (db (geo w)) ip in
  if data_truthy db_data then Running (store_result ip db_data true w)
  else if skip_api w then
    Running (store_result ip None false
               (with_geo (fun g =>
                  set_offline_queue
                    (offline_queue g ++ [(ip, network_type)]) g) w))
  else
    let '(data, w1) := fetch_geo_api ip reply now w in
    match data with
    | Some d =>
        if dict_truthy d then
          match is_valid_geo_data d with
          | inr true =>
              Running (store_result ip data false
                         (with_geo (fun g =>
                            set_db (save_geo_to_db ip d now (db g)) g) w1))
          | inr false => Running (store_result ip data false w1)
          | inl e => Died e w1
          end
        else Running (store_result ip data false w1)
    | None => Running (store_result ip data false w1)
    end.

(** The head of a loop turn: an item of [geo_queue], or, when the queue
    stays empty, the first deferred item once the state is green and the
    database-only mode is off. *)
Definition next_item (w : world) : option (string * string * world) :=
  match geo_queue (geo w) with
  | item :: rest => Some (item, with_geo (set_geo_queue rest) w)
  | [] =>
      match offline_queue (geo w) with
      | item :: rest =>
          if level_eqb (Connectivity.internet_state (conn w)) green
             && negb (geo_db_only_mode (geo w))
          then Some (item, with_geo (set_offline_queue rest) w)
          else None
      | [] => None
      end
  end.

(** One turn of the loop of [geo_worker]. *)
Definition geo_worker `{Parsers, Sqlite} (reply : api_reply) (now : Q)
           (w : world) : outcome :=
  match next_item w with
  | Some (ip, network_type, w1) => lookup reply now ip network_type w1
  | None => Running w
  end.

(** [get_cached_geo] *)
Definition get_cached_geo (w : world) (ip : string) : option dict :=
  geo_cache (geo w) !! ip.

(** [set_cached_geo_private] *)
Definition set_cached_geo_private (ip : string) (w : world) : world :=
  with_geo (fun g =>
    set_geo_cache (<[ip := blank_entry "private"]> (geo_cache g)) g) w.

(** [queue_geo_lookup] *)
Definition queue_geo_lookup (ip network_type : string) (w : world) : world :=
  if bool_decide (ip ∈ pending_lookups (geo w)) then w
  else
    with_geo (fun g =>
      set_geo_queue (geo_queue g ++ [(ip, network_type)])
        (set_pending_lookups ({[ip]} ∪ pending_lookups g) g)) w.

(** *** The refresh worker *)

Definition RECENT_WINDOW : Q := 20.

(** [refresh_addrman_cache]: [addresses] holds the ['address'] entries of
    the reply of [getnodeaddresses], or [None] when the call failed. *)
Definition refresh_addrman_cache (addresses : option (list string))
           (t : tracker_state) : tracker_state :=
  match addresses with
  | Some l =>
      mkTracker (current_peers t) (peer_ip_map t) (recent_changes t)
                (previous_ids t) (addrman_refresh_counter t)
                (list_to_set (filter (fun a => a ≠ EmptyString) l))
  | None => t
  end.

(** [str(peer.get('id', ''))] *)
Definition peer_id_of (p : peer) : string :=
  match id p with
  | Some n => pretty n
  | None => EmptyString
  end.

(** [peer.get('network', get_network_type(addr))] *)
Definition network_of (p : peer) : string :=
  match network p with
  | Some n => n
  | None => get_network_type (addr p)
  end.

Definition set_peer_ip_map (m : gmap string peer_info) (t : tracker_state)
  : tracker_state :=
  mkTracker (current_peers t) m (recent_changes t) (previous_ids t)
            (addrman_refresh_counter t) (addrman_cache t).

Definition set_recent_changes (l : list change) (t : tracker_state)
  : tracker_state :=
  mkTracker (current_peers t) (peer_ip_map t) l (previous_ids t)
            (addrman_refresh_counter t) (addrman_cache t).

(** The body of [for peer in peers]; [current_ids] is threaded along. *)
Definition track_peer `{Parsers} (now : Q) (acc : gset string * world)
           (p : peer) : gset string * world :=
  let '(current_ids, w) := acc in
  let peer_id := peer_id_of p in
  let current_ids := {[peer_id]} ∪ current_ids in
  let network_type := network_of p in
  let ip := extract_ip (addr p) in
  let port := extract_port (addr p) in
  let info := mkInfo ip port network_type in
  let w := with_tracker (fun t =>
             set_peer_ip_map (<[peer_id := info]> (peer_ip_map t)) t) w in
  let w :=
    if bool_decide (peer_id ∉ previous_ids (tracker w))
       && negb (bool_decide (previous_ids (tracker w) = ∅))
    then with_tracker (fun t =>
           set_recent_changes (recent_changes t ++ [(now, connected, info)]) t) w
    else w in
  let w :=
    match get_cached_geo w ip with
    | None =>
        if is_public_address network_type ip
        then queue_geo_lookup ip network_type w
        else set_cached_geo_private ip w
    | Some _ => w
    end in
  (current_ids, w).

(** The body of [for pid in previous_ids - current_ids]. *)
Definition drop_peer (now : Q) (w : world) (pid : string) : world :=
  with_tracker (fun t =>
    let info :=
      match peer_ip_map t !! pid with
      | Some i => i
      | None => mkInfo ("peer#" +:+ pid) EmptyString "?"
      end in
    set_recent_changes (recent_changes t ++ [(now, disconnected, info)])
      (set_peer_ip_map (delete pid (peer_ip_map t)) t)) w.

(** [now - t < RECENT_WINDOW] *)
Definition is_recent (now : Q) (c : change) : bool :=
  negb (Qle_bool RECENT_WINDOW (now - c.1.1)).

(** One turn of the loop of [refresh_worker]: [peers] is the result of
    [get_peer_info()], [addresses] the reply used when the address cache
    is due, [now] the reading of [time.time()]. *)
Definition refresh_worker `{Parsers} (peers : list peer)
           (addresses : option (list string)) (now : Q) (w : world) : world :=
  let w := with_tracker (fun t =>
             mkTracker peers (peer_ip_map t) (recent_changes t)
                       (previous_ids t) (addrman_refresh_counter t + 1)
                       (addrman_cache t)) w in
  let w :=
    if 6 <=? addrman_refresh_counter (tracker w) then
      with_tracker (fun t =>
        let t := refresh_addrman_cache addresses t in
        mkTracker (current_peers t) (peer_ip_map t) (recent_changes t)
                  (previous_ids t) 0 (addrman_cache t)) w
    else w in
  let '(current_ids, w) := foldl (track_peer now) (∅, w) peers in
  let w := foldl (drop_peer now) w
                 (elements (previous_ids (tracker w) ∖ current_ids)) in
  let w := with_geo (fun g =>
             set_geo_pending_count (size (pending_lookups g)) g) w in
  let w := with_tracker (fun t =>
             set_recent_changes (filter (fun c => is_recent now c)
                                        (recent_changes t)) t) w in
  let w := with_tracker (fun t =>
             mkTracker (current_peers t) (peer_ip_map t) (recent_changes t)
                       current_ids (addrman_refresh_counter t)
                       (addrman_cache t)) w in
  broadcast_update "peers_update" w.

(** *** What consumers are told *)

(** The [location_status] computed by [api_peers] for a peer. *)
Definition location_status `{Parsers} (network_type ip : string)
           (geo_entry : option dict) : string :=
  if String.eqb network_type "onion" || String.eqb network_type "i2p"
     || String.eqb network_type "cjdns" || is_private_ip ip
  then "private"
  else if data_truthy geo_entry
          && match geo_entry with
             | Some g => status_is g "ok" && truthy (dict_get g "city" PNone)
             | None => false
             end
  then "ok"
  else if data_truthy geo_entry
          && match geo_entry with
             | Some g => status_is g "unavailable"
             | None => false
             end
  then "unavailable"
  else "pending".

(** [api_peers], as far as the location goes: the status of each peer of
    the current snapshot. *)
Definition api_peers `{Parsers} (w : world) : list string :=
  map (fun p =>
         let ip := extract_ip (addr p) in
         location_status (network_of p) ip (get_cached_geo w ip))
      (current_peers (tracker w)).

(** [api_toggle_db_only] *)
Definition api_toggle_db_only (w : world) : world :=
  let mode := negb (geo_db_only_mode (geo w)) in
  let w :=
    with_geo (fun g =>
      mkGeo (api_consecutive_failures g) mode (db g) (geo_cache g)
            (geo_queue g) (pending_lookups g) (geo_pending_count g)
            (offline_queue g) (api_requests g) (api_delays g)) w in
  if mode then
    with_conn (fun c =>
      Connectivity.mkState
        (Connectivity.internet_state c)
        (Connectivity.internet_consecutive_ok c)
        (Connectivity.internet_failure_start c)
        false 0 0
        (Connectivity.connectivity_thread_alive c)
        (Connectivity.connectivity_broadcasts c)) w
  else w.

(** The state a loop turn leaves behind, whether the thread goes on or
    not. *)
Definition world_of (o : outcome) : world :=
  match o with
  | Running w => w
  | Died _ w => w
  end.

(** *** Histories of the engine *)

(** What can happen to the shared state: a loop turn of either worker, a
    lookup request of any caller, a connectivity signal, and the two
    routes that change the store or the lookup mode. *)
Inductive op : Type :=
| GeoTurn (reply : api_reply) (now : Q)
| RefreshTurn (peers : list peer) (addresses : option (list string)) (now : Q)
| Lookup (ip network_type : string)
| Signal (s : Connectivity.signal)
| ToggleDbOnly
| GeoDbUpdate (dl : download).

(** A turn of the geo worker that ends the thread still leaves its state
    behind; later turns are kept in the histories, which only adds
    histories to those the program has. *)
Definition exec `{Parsers, Sqlite} (w : world) (o : op) : world :=
  match o with
  | GeoTurn reply now => world_of (geo_worker reply now w)
  | RefreshTurn peers addresses now => refresh_worker peers addresses now w
  | Lookup ip network_type => queue_geo_lookup ip network_type w
  | Signal s => with_conn (fun c => Connectivity.step c s) w
  | ToggleDbOnly => api_toggle_db_only w
  | GeoDbUpdate dl =>
      with_geo (fun g => set_db (api_geodb_update dl (db g)).1 g) w
  end.

Definition run_ops `{Parsers, Sqlite} (w : world) (ops : list op) : world :=
  foldl exec w ops.

(** The state at start-up, for a given configuration of the store. *)
Definition startup (s : store) : world :=
  with_geo (set_db s) initial.

End Engine.

(** ** Reading the specification *)

Module Spec.
Import Py Engine.

(** A finite value between two integer bounds. *)
Definition within (lo hi : Z) (f : pyfloat) : Prop :=
  exists q, f = FFin q /\ (inject_Z lo <= q)%Q /\ (q <= inject_Z hi)%Q.

(** A payload with latitude and longitude present, numeric and in range,
    and a country string that satisfies [country_ok]. *)
Definition valid_with `{Parsers} (country_ok : string -> Prop) (data : dict)
  : Prop :=
  exists latitude longitude s,
    py_float (dict_get data "lat" PNone) = inr latitude /\
    py_float (dict_get data "lon" PNone) = inr longitude /\
    within (-90) 90 latitude /\
    within (-180) 180 longitude /\
    dict_get data "country" (PStr "") = PStr s /\
    country_ok s.

(** Validity as the specification words it: the country is not empty. *)
Definition spec_valid `{Parsers} (data : dict) : Prop :=
  valid_with (fun s => s <> EmptyString) data.

(** Validity as the code decides it: the country is not blank. *)
Definition code_valid `{Parsers} (data : dict) : Prop :=
  valid_with (fun s => strip s <> EmptyString) data.

(** Success signals at the start of a list of signals. *)
Fixpoint leading_successes (l : list Connectivity.signal) : nat :=
  match l with
  | s :: rest =>
      if Connectivity.is_success s then S (leading_successes rest) else O
  | [] => O
  end.

(** The run of success signals that ends a history. *)
Definition trailing_successes (l : list Connectivity.signal) : nat :=
  leading_successes (rev l).

(** An outage in a history from the initial state: the state left green
    at a failure signal at time [start], has not been green since, and
    [internet_failure_start] still holds [start]. *)
Definition outage_since (signals : list Connectivity.signal)
           (st : Connectivity.state) (start : Q) : Prop :=
  Connectivity.internet_failure_start st = Some start /\
  exists pre post,
    signals = pre ++ Connectivity.NetworkFailure start :: post /\
    Connectivity.internet_state (Connectivity.run Connectivity.initial pre)
    = Connectivity.green /\
    forall k : nat,
      Connectivity.internet_state
        (Connectivity.run Connectivity.initial
           (pre ++ Connectivity.NetworkFailure start :: take k post))
      <> Connectivity.green.

(** The number of rows of the persistent store. *)
Definition row_count (st : GeoDb.store) : nat :=
  match GeoDb.GEO_DB_FILE st with
  | Some (GeoDb.Table rows unkeyed) => (size rows + length unkeyed)%nat
  | Some (GeoDb.Unindexed listed) => length listed
  | _ => O
  end.

(** The listed rows that carry an address, and those that carry none. *)
Definition with_address (listed : list (option string * GeoDb.row))
  : list (string * GeoDb.row) :=
  omap (fun kr => match kr.1 with
                  | Some k => Some (k, kr.2)
                  | None => None
                  end) listed.

Definition without_address (listed : list (option string * GeoDb.row))
  : list GeoDb.row :=
  omap (fun kr => match kr.1 with
                  | Some _ => None
                  | None => Some kr.2
                  end) listed.

(** Every row of the download carries an address. *)
Definition all_addressed (dl : GeoDb.download) : Prop :=
  match dl with
  | GeoDb.RequestError => True
  | GeoDb.Response _ body =>
      Forall (fun kr => is_Some kr.1) (GeoDb.all_rows body)
  end.

(** The table of the store has [ip] as its key, when there is one. *)
Definition keyed_store (st : GeoDb.store) : Prop :=
  match GeoDb.GEO_DB_FILE st with
  | Some (GeoDb.Unindexed _) => False
  | _ => True
  end.

(** A geolocation record with every field under its own type. *)
Record GeoRecord : Type := mkGeoRecord {
  g_continent : string;
  g_continentCode : string;
  g_country : string;
  g_countryCode : string;
  g_region : string;
  g_regionName : string;
  g_city : string;
  g_district : string;
  g_zip : string;
  g_lat : Q;
  g_lon : Q;
  g_timezone : string;
  g_offset : Z;
  g_currency : string;
  g_isp : string;
  g_org : string;
  g_as : string;
  g_asname : string;
  g_mobile : bool;
  g_proxy : bool;
  g_hosting : bool
}.

(** The record as the geolocation service delivers it, which is what
    [save_geo_to_db] is given. *)
Definition payload_of (r : GeoRecord) : dict :=
  list_to_map
    [("status", PStr "success");
     ("continent", PStr (g_continent r));
     ("continentCode", PStr (g_continentCode r));
     ("country", PStr (g_country r));
     ("countryCode", PStr (g_countryCode r));
     ("region", PStr (g_region r));
     ("regionName", PStr (g_regionName r));
     ("city", PStr (g_city r));
     ("district", PStr (g_district r));
     ("zip", PStr (g_zip r));
     ("lat", PFloat (FFin (g_lat r)));
     ("lon", PFloat (FFin (g_lon r)));
     ("timezone", PStr (g_timezone r));
     ("offset", PInt (g_offset r));
     ("currency", PStr (g_currency r));
     ("isp", PStr (g_isp r));
     ("org", PStr (g_org r));
     ("as", PStr (g_as r));
     ("asname", PStr (g_asname r));
     ("mobile", PBool (g_mobile r));
     ("proxy", PBool (g_proxy r));
     ("hosting", PBool (g_hosting r))].

Definition text_at (d : dict) (k : string) : option string :=
  match d !! k with
  | Some (PStr s) => Some s
  | _ => None
  end.

Definition number_at (d : dict) (k : string) : option Q :=
  match d !! k with
  | Some (PFloat (FFin q)) => Some q
  | _ => None
  end.

Definition integer_at (d : dict) (k : string) : option Z :=
  match d !! k with
  | Some (PInt z) => Some z
  | _ => None
  end.

(** A flag is stored as the integer 1 or 0. *)
Definition flag_at (d : dict) (k : string) : option bool :=
  match d !! k with
  | Some (PInt z) => Some (negb (z =? 0))
  | _ => None
  end.

(** The record read back from [dict(row)], column by column: the offset
    under [utc_offset] and the AS under [as_info], as the geo worker reads
    them from a stored row. *)
Definition record_of_row (d : dict) : option GeoRecord :=
  a1 ← text_at d "continent"; a2 ← text_at d "continentCode";
  a3 ← text_at d "country"; a4 ← text_at d "countryCode";
  a5 ← text_at d "region"; a6 ← text_at d "regionName";
  a7 ← text_at d "city"; a8 ← text_at d "district";
  a9 ← text_at d "zip";
  a10 ← number_at d "lat"; a11 ← number_at d "lon";
  a12 ← text_at d "timezone"; a13 ← integer_at d "utc_offset";
  a14 ← text_at d "currency"; a15 ← text_at d "isp";
  a16 ← text_at d "org"; a17 ← text_at d "as_info";
  a18 ← text_at d "asname";
  a19 ← flag_at d "mobile"; a20 ← flag_at d "proxy";
  a21 ← flag_at d "hosting";
  Some (mkGeoRecord a1 a2 a3 a4 a5 a6 a7 a8 a9 a10 a11 a12 a13 a14 a15 a16
                    a17 a18 a19 a20 a21).

(** The cell each column holds once the record is stored at time [now]. *)
Definition stored_value (r : GeoRecord) (now : Q) (c : GeoDb.column) : pyval :=
  let flag (b : bool) := PInt (if b then 1 else 0) in
  match c with
  | GeoDb.c_continent => PStr (g_continent r)
  | GeoDb.c_continentCode => PStr (g_continentCode r)
  | GeoDb.c_country => PStr (g_country r)
  | GeoDb.c_countryCode => PStr (g_countryCode r)
  | GeoDb.c_region => PStr (g_region r)
  | GeoDb.c_regionName => PStr (g_regionName r)
  | GeoDb.c_city => PStr (g_city r)
  | GeoDb.c_district => PStr (g_district r)
  | GeoDb.c_zip => PStr (g_zip r)
  | GeoDb.c_lat => PFloat (FFin (g_lat r))
  | GeoDb.c_lon => PFloat (FFin (g_lon r))
  | GeoDb.c_timezone => PStr (g_timezone r)
  | GeoDb.c_utc_offset => PInt (g_offset r)
  | GeoDb.c_currency => PStr (g_currency r)
  | GeoDb.c_isp => PStr (g_isp r)
  | GeoDb.c_org => PStr (g_org r)
  | GeoDb.c_as_info => PStr (g_as r)
  | GeoDb.c_asname => PStr (g_asname r)
  | GeoDb.c_mobile => flag (g_mobile r)
  | GeoDb.c_proxy => flag (g_proxy r)
  | GeoDb.c_hosting => flag (g_hosting r)
  | GeoDb.c_last_updated => PInt (GeoDb.py_int_of_time now)
  end.

(** An integer that fits an SQLite [INTEGER]. *)
Definition int64 (z : Z) : Prop := - 2 ^ 63 <= z < 2 ^ 63.

(** SQLite keeps a value of the column's own type as it is: text in a
    [TEXT] column, a finite float in a [REAL] column, a 64-bit integer in
    an [INTEGER] column. *)
Definition keeps_typed_values `{GeoDb.Sqlite} : Prop :=
  (forall s, GeoDb.sqlite_cell GeoDb.TEXT (PStr s) = Some (PStr s)) /\
  (forall q, GeoDb.sqlite_cell GeoDb.REAL (PFloat (FFin q))
             = Some (PFloat (FFin q))) /\
  (forall z, int64 z ->
             GeoDb.sqlite_cell GeoDb.INTEGER (PInt z) = Some (PInt z)).

(** The address data the refresh worker keeps for a peer. *)
Definition info_of (p : peer) : peer_info :=
  mkInfo (Net.extract_ip (addr p)) (Net.extract_port (addr p)) (network_of p).

(** The 'connected' events of a snapshot: one per peer whose id is not in
    the previous id set, none at all when that set is empty. *)
Definition connect_events (now : Q) (previous : gset string)
           (peers : list peer) : list change :=
  if bool_decide (previous = ∅) then []
  else
    (fun p => (now, connected, info_of p))
      <$> filter (fun p => peer_id_of p ∉ previous) peers.

(** The 'disconnected' event of a peer id, from the remembered address. *)
Definition disconnect_event (now : Q) (m : gmap string peer_info)
           (pid : string) : change :=
  (now, disconnected,
   match m !! pid with
   | Some i => i
   | None => mkInfo ("peer#" +:+ pid) EmptyString "?"
   end).

(** The payload [{lat, lon, country}] of the specification's examples. *)
Definition geo_payload (latitude longitude : Z) (country : string) : dict :=
  list_to_map [("lat", PInt latitude); ("lon", PInt longitude);
               ("country", PStr country)].

(** A session entry under one of the three statuses that are stored. *)
Definition known_status (e : dict) : Prop :=
  status_is e "ok" = true \/ status_is e "unavailable" = true
  \/ status_is e "private" = true.

(** Every entry of the session cache is a non-empty dictionary under a
    stored status. *)
Definition cache_statuses_known (w : world) : Prop :=
  forall ip e,
    geo_cache (geo w) !! ip = Some e ->
    dict_truthy e = true /\ known_status e.

(** Single flight: no address is queued twice, and every queued address
    is in [pending_lookups]. *)
Definition single_flight (w : world) : Prop :=
  NoDup (geo_queue (geo w)).*1 /\
  forall ip, ip ∈ (geo_queue (geo w)).*1 -> ip ∈ pending_lookups (geo w).

(** The status of the session entry of an address, when it has one. *)
Definition cached_status (w : world) (ip : string) : option pyval :=
  match get_cached_geo w ip with
  | Some e => Some (dict_get e "status" PNone)
  | None => None
  end.

(** An address that [api_peers] calls private whatever the cache holds. *)
Definition classed_private `{Parsers} (network_type ip : string) : bool :=
  String.eqb network_type "onion" || String.eqb network_type "i2p"
  || String.eqb network_type "cjdns" || Net.is_private_ip ip.

(** An operation in which the geo worker takes the address [ip] from one
    of its queues. *)
Definition takes (ip : string) (w : world) (o : op) : bool :=
  match o with
  | GeoTurn _ _ =>
      match next_item w with
      | Some (ip', _, _) => String.eqb ip' ip
      | None => false
      end
  | _ => false
  end.

(** A history from [w] in which the geo worker never takes [ip]. *)
Fixpoint untaken `{Parsers, GeoDb.Sqlite} (ip : string) (w : world)
         (ops : list op) : bool :=
  match ops with
  | [] => true
  | o :: rest => negb (takes ip w o) && untaken ip (exec w o) rest
  end.

End Spec.

(** ** Sample instances, to run the definitions on concrete inputs *)

Module Sample.
Import Py GeoDb.

Definition digit_of (c : ascii) : option Z :=
  let n := Z.of_nat (nat_of_ascii c) in
  if (48 <=? n) && (n <=? 57) then Some (n - 48) else None.

Fixpoint digits_from (acc : Z) (s : string) : option Z :=
  match s with
  | EmptyString => Some acc
  | String c rest =>
      match digit_of c with
      | Some d => digits_from (10 * acc + d) rest
      | None => None
      end
  end.

(** Plain decimal numerals. *)
Definition numeral (s : string) : option Z :=
  match s with
  | EmptyString => None
  | _ => digits_from 0 s
  end.

#[export] Instance numeral_parsers : Parsers := {|
  float_of_str s := option_map float_of_Z (numeral s);
  int_of_str := numeral
|}.

(** An integer cell under the column's type. *)
Definition cell_of_int (a : affinity) (z : Z) : pyval :=
  match a with
  | REAL => PFloat (float_of_Z z)
  | INTEGER => PInt z
  | TEXT => PStr (pretty z)
  end.

(** Cells keep a value of the column's own type as it is; an integer
    follows the column's type, a flag is an integer, a NaN is [NULL]; lists
    and dictionaries cannot be bound. *)
#[export] Instance typed_cells : Sqlite := fun a v =>
  match v with
  | PNone => Some PNone
  | PList _ | PDict _ => None
  | PBool b => Some (cell_of_int a (if b then 1 else 0))
  | PInt z => Some (cell_of_int a z)
  | PFloat FNaN => Some PNone
  | PFloat f => Some (PFloat f)
  | PStr s => Some (PStr s)
  end.

(** A record of the kind the service returns. *)
Definition sample_record : Spec.GeoRecord :=
  Spec.mkGeoRecord "North America" "NA" "United States" "US" "CA"
                   "California" "Mountain View" "" "94043"
                   (3742 # 100) (-12208 # 100) "America/Los_Angeles"
                   (-28800) "USD" "Google LLC" "Google Public DNS"
                   "AS15169 Google LLC" "GOOGLE" false false true.

(** One lookup of a public address queued at start-up. *)
Definition queued_world : Engine.world :=
  Engine.queue_geo_lookup "8.8.8.8" "ipv4" Engine.initial.

(** The same, after a network failure turned the state yellow. *)
Definition yellow_world : Engine.world :=
  Engine.with_conn (Connectivity.on_network_failure 100) queued_world.

(** A tracker that remembers the peers 1, 2 and 3. *)
Definition tracked_world : Engine.world :=
  Engine.with_tracker
    (fun _ =>
       Engine.mkTracker [] {["1" := Engine.mkInfo "203.0.113.1" "8333" "ipv4"]}
                        [] {["1"; "2"; "3"]} 0 ∅)
    Engine.initial.

(** A peer of [getpeerinfo] with the given id and address. *)
Definition sample_peer (n : Z) (address : string) : Engine.peer :=
  Engine.mkPeer (Some n) address (Some "ipv4").

(** A successful reply of the service that names no city. *)
Definition reply_without_city : Engine.api_reply :=
  Engine.Replied 200
    (Some (list_to_map
             [("status", PStr "success");
              ("country", PStr "United States");
              ("lat", PFloat (FFin (3775 # 100)));
              ("lon", PFloat (FFin (-9782 # 100)))])).

End Sample.

(** ** Notions used to state properties of the engine *)

Module Notions.
Import Py Engine.

(** A reply of the geolocation service that [fetch_geo_api] counts as a
    failure: the request raised, the status is not 200, or the body is not
    a JSON object. *)
Definition failed_reply (reply : api_reply) : bool :=
  match reply with
  | RequestRaised => true
  | Replied status_code body =>
      negb (status_code =? 200) || bool_decide (body = None)
  end.

(** An operation that asks for a lookup from outside the two workers.  In
    the program [queue_geo_lookup] is only called by [refresh_worker]. *)
Definition outside_lookup (o : op) : bool :=
  match o with
  | Lookup _ _ => true
  | _ => false
  end.

(** The lookups waiting in either queue of the geo worker. *)
Definition waiting (g : geo_state) : list (string * string) :=
  geo_queue g ++ offline_queue g.

(** The addresses waiting in a queue are public, and so is every address
    that was requested from the service. *)
Definition only_public `{Parsers} (g : geo_state) : Prop :=
  (forall ip nt, (ip, nt) ∈ waiting g ->
                 Net.is_public_address nt ip = true) /\
  (forall ip, ip ∈ api_requests g -> Net.is_private_ip ip = false).


(** The number of turns of the refresh worker in a history. *)
Fixpoint refresh_turns (ops : list op) : nat :=
  match ops with
  | [] => O
  | RefreshTurn _ _ _ :: rest => S (refresh_turns rest)
  | _ :: rest => refresh_turns rest
  end.

(** The units of a connection time, and a display of one or two parts. *)
Inductive time_unit : Type := Days | Hours | Minutes | Seconds.

Definition unit_seconds (u : time_unit) : Z :=
  match u with
  | Days => 86400
  | Hours => 3600
  | Minutes => 60
  | Seconds => 1
  end.

Definition unit_letter (u : time_unit) : string :=
  match u with
  | Days => "d"
  | Hours => "h"
  | Minutes => "m"
  | Seconds => "s"
  end.

Definition shown (first : Z * time_unit) (second : option (Z * time_unit))
  : string :=
  pretty first.1 +:+ unit_letter first.2
  +:+ match second with
      | Some p => pretty p.1 +:+ unit_letter p.2
      | None => EmptyString
      end.

(** The duration a display stands for, and the last unit it names. *)
Definition shown_seconds (first : Z * time_unit)
           (second : option (Z * time_unit)) : Z :=
  first.1 * unit_seconds first.2
  + match second with
    | Some p => p.1 * unit_seconds p.2
    | None => 0
    end.

Definition last_unit (first : Z * time_unit)
           (second : option (Z * time_unit)) : time_unit :=
  match second with
  | Some p => p.2
  | None => first.2
  end.

(** The pause between an acknowledged prompt and the next one: one, two
    and three minutes after the first three prompts, five minutes after
    every later one. *)
Definition quiet_seconds (prompts : Z) : Z :=
  if prompts <=? 3 then 60 * prompts else 300.

End Notions.

(** ** What the dashboard routes compute from the shared state *)

Module Dashboard.
Import Py GeoDb Engine.

(** [is_in_addrman] *)
Definition is_in_addrman (w : world) (ip : string) : bool :=
  bool_decide (ip ∈ addrman_cache (tracker w)).

(** The connection time shown by [api_peers] for [elapsed] seconds: the
    first unit that is not zero and the next one that is not zero. *)
Definition elapsed_fmt (elapsed : Z) : string :=
  let days := elapsed / 86400 in
  let hours := (elapsed mod 86400) / 3600 in
  let minutes := (elapsed mod 3600) / 60 in
  let seconds := elapsed mod 60 in
  if 0 <? days then
    if 0 <? hours then pretty days +:+ "d" +:+ pretty hours +:+ "h"
    else if 0 <? minutes then pretty days +:+ "d" +:+ pretty minutes +:+ "m"
    else if 0 <? seconds then pretty days +:+ "d" +:+ pretty seconds +:+ "s"
    else pretty days +:+ "d"
  else if 0 <? hours then
    if 0 <? minutes then pretty hours +:+ "h" +:+ pretty minutes +:+ "m"
    else if 0 <? seconds then pretty hours +:+ "h" +:+ pretty seconds +:+ "s"
    else pretty hours +:+ "h"
  else if 0 <? minutes then
    if 0 <? seconds then pretty minutes +:+ "m" +:+ pretty seconds +:+ "s"
    else pretty minutes +:+ "m"
  else pretty seconds +:+ "s".

(** [conn_fmt] of [api_peers]: [conntime] is the peer's ['conntime'] entry
    (0 when it is missing), [now] the reading of [time.time()]. *)
Definition conn_fmt (now : Q) (conntime : Z) : string :=
  if conntime =? 0 then "-"
  else elapsed_fmt (py_int_of_time now - conntime).

(** [should_prompt] of [api_connectivity], with [now] the reading of
    [time.time()].  The time since the last prompt is infinite while
    [api_down_last_prompt_time] is zero. *)
Definition should_prompt (now : Q) (w : world) : bool :=
  let c := conn w in
  if (5 <=? api_consecutive_failures (geo w))
     && Connectivity.level_eqb (Connectivity.internet_state c)
                               Connectivity.green
     && negb (geo_db_only_mode (geo w))
  then
    let last := Connectivity.api_down_last_prompt_time c in
    let elapsed_at_least (bound : Z) :=
      if Qeq_bool last 0 then true
      else Qle_bool (inject_Z bound) (now - last) in
    let count := Connectivity.api_down_prompt_count c in
    if count =? 0 then true
    else if (count <=? 3) && elapsed_at_least (count * 60) then true
    else if (3 <? count) && elapsed_at_least 300 then true
    else false
  else false.

(** The reply of [api_connectivity], without the three entries of the
    price ticker, which are read from variables outside this model. *)
Record connectivity_reply : Type := mkConnectivityReply {
  reply_internet_state : Connectivity.level;
  reply_api_available : bool;
  reply_api_consecutive_failures : Z;
  reply_geo_db_only_mode : bool;
  reply_api_down_prompt : bool
}.

(** [api_connectivity] *)
Definition api_connectivity (now : Q) (w : world) : connectivity_reply :=
  mkConnectivityReply
    (Connectivity.internet_state (conn w))
    (api_consecutive_failures (geo w) <? 5)
    (api_consecutive_failures (geo w))
    (geo_db_only_mode (geo w))
    (should_prompt now w).

(** [api_prompt_ack] *)
Definition api_prompt_ack (now : Q) (w : world) : world :=
  with_conn (fun c =>
    Connectivity.mkState
      (Connectivity.internet_state c)
      (Connectivity.internet_consecutive_ok c)
      (Connectivity.internet_failure_start c)
      (Connectivity.api_down_prompt_active c)
      (Connectivity.api_down_prompt_count c + 1)
      now
      (Connectivity.connectivity_thread_alive c)
      (Connectivity.connectivity_broadcasts c)) w.

End Dashboard.

(** ** The update check *)

Module Update.
Import Py.

(** [s.split(c)] for a one-character separator *)
Fixpoint split_on (c : ascii) (s : string) : list string :=
  match s with
  | EmptyString => [EmptyString]
  | String a rest =>
      if Ascii.eqb a c then EmptyString :: split_on c rest
      else
        match split_on c rest with
        | piece :: pieces => String a piece :: pieces
        | [] => [String a EmptyString]
        end
  end.

(** [[int(x) for x in pieces]]: [None] when an [int(x)] raises *)
Definition parse_ints `{Parsers} (pieces : list string) : option (list Z) :=
  mapM int_of_str pieces.

(** [l[i] if i < len(l) else 0] *)
Definition item_or_zero (l : list Z) (i : nat) : Z :=
  default 0 (l !! i).

(** The [for] loop of [_compare_versions] over the indices left. *)
Fixpoint compare_loop (lp rp : list Z) (indices : list nat) : bool :=
  match indices with
  | [] => false
  | i :: rest =>
      let l := item_or_zero lp i in
      let r := item_or_zero rp i in
      if l <? r then true
      else if r <? l then false
      else compare_loop lp rp rest
  end.

(** [_compare_versions]: whether [remote] is newer than [local].  Any
    exception, which only [int] can raise, gives [False]. *)
Definition _compare_versions `{Parsers} (local remote : string) : bool :=
  match parse_ints (split_on "." local) with
  | None => false
  | Some lp =>
      match parse_ints (split_on "." remote) with
      | None => false
      | Some rp =>
          compare_loop lp rp (seq 0 (Nat.max (length lp) (length rp)))
      end
  end.

End Update.

(** ** The configuration file, as the list of its lines *)

Module Config.
Import Py Net.

Definition quote : string := String "034"%char EmptyString.

(** [f'{key}="{value}"'] *)
Definition assignment (key value : string) : string :=
  key +:+ "=" +:+ quote +:+ value +:+ quote.

(** [save_config_value] for a file that exists: the lines written. *)
Definition save_config_value (key value : string) (lines : list string)
  : list string :=
  let new_lines :=
    map (fun line => if startswith line (key +:+ "=")
                     then assignment key value else line) lines in
  let found := existsb (fun line => startswith line (key +:+ "=")) lines in
  if found then new_lines else new_lines ++ [assignment key value].

(** [save_port_to_config] for a file that exists: the lines written. *)
Definition save_port_to_config (port : Z) (lines : list string)
  : list string :=
  let port_line := assignment "MBTC_WEB_PORT" (pretty port) in
  let new_lines :=
    map (fun line => if startswith line "MBTC_WEB_PORT="
                     then port_line else line) lines in
  let found := existsb (fun line => startswith line "MBTC_WEB_PORT=") lines in
  if found then new_lines
  else
    let final_lines :=
      flat_map (fun line => if startswith line "MBTC_CONFIGURED="
                            then [port_line; line] else [line]) new_lines in
    match final_lines with
    | [] => new_lines ++ [port_line]
    | _ :: _ => final_lines
    end.

Definition DEFAULT_WEB_PORT : Z := 58333.

(** [s.lstrip(c)] and [s.rstrip(c)] for a one-character [c] *)
Fixpoint lstrip_char (c : ascii) (s : string) : string :=
  match s with
  | EmptyString => EmptyString
  | String a rest => if Ascii.eqb a c then lstrip_char c rest else s
  end.

Fixpoint rstrip_char (c : ascii) (s : string) : string :=
  match s with
  | EmptyString => EmptyString
  | String a rest =>
      match rstrip_char c rest with
      | EmptyString =>
          if Ascii.eqb a c then EmptyString else String a EmptyString
      | r => String a r
      end
  end.

(** [s.strip(c)] *)
Definition strip_char (c : ascii) (s : string) : string :=
  rstrip_char c (lstrip_char c s).

(** [get_configured_port] for a file that exists, over the lines read
    from it: the first port between 1024 and 65535 on a line that opens
    with [MBTC_WEB_PORT=]; a value that [int] refuses ends the search with
    the default, as does the end of the file. *)
Fixpoint get_configured_port `{Parsers} (lines : list string) : Z :=
  match lines with
  | [] => DEFAULT_WEB_PORT
  | line :: rest =>
      let line := strip line in
      if startswith line "MBTC_WEB_PORT=" then
        match split_rest "=" line with
        | Some after =>
            let value := strip_char "'" (strip_char "034" after) in
            match int_of_str value with
            | Some port =>
                if (1024 <=? port) && (port <=? 65535) then port
                else get_configured_port rest
            | None => DEFAULT_WEB_PORT
            end
        | None => DEFAULT_WEB_PORT
        end
      else get_configured_port rest
  end.

End Config.

(** ** Further sample states *)

Module Cases.
Import Py GeoDb Engine Sample.

(** A store that holds the sample record for one address. *)
Definition one_row_store : store :=
  mkStore true
    (Some (Table {["8.8.8.8" :=
                     Spec.stored_value Sample.sample_record 1700000000]}
                  [])).

(** The queued lookup of [Sample.queued_world], with that store. *)
Definition stored_world : world :=
  with_geo (set_db one_row_store) Sample.queued_world.

(** A successful reply whose country is a number. *)
Definition numeric_country : dict :=
  list_to_map [("status", PStr "success"); ("lat", PInt 10);
               ("lon", PInt 10); ("country", PInt 5)].

(** A snapshot with one public and one private peer, then a turn of the
    geo worker whose request fails. *)
Definition mixed_history : list op :=
  [RefreshTurn [Sample.sample_peer 1 "8.8.8.8:8333";
                Sample.sample_peer 2 "192.168.1.5:8333"] None 100;
   GeoTurn RequestRaised 101].



(** A configuration file with the anchor line only. *)
Definition anchored_config : list string :=
  ["MBTC_CONFIGURED=true"].

End Cases.

(** ** The connectivity state machine: proofs *)

Module ConnectivityFacts.
Import Connectivity Spec.

Lemma level_eqb_eq (a b : level) : level_eqb a b = true <-> a = b.
Proof. destruct a, b; simpl; split; intro; congruence. Qed.

Lemma run_snoc (st : state) (signals : list signal) (s : signal) :
  run st (signals ++ [s]) = step (run st signals) s.
Proof. unfold run. rewrite foldl_app. reflexivity. Qed.

Lemma set_internet_state_level (l : level) (st : state) :
  internet_state (set_internet_state l st) = l.
Proof.
  unfold set_internet_state.
  destruct (level_eqb (internet_state st) l) eqn:E; simpl; trivial.
  apply level_eqb_eq in E. exact E.
Qed.

Lemma set_internet_state_start (l : level) (st : state) :
  internet_failure_start (set_internet_state l st) = internet_failure_start st.
Proof.
  unfold set_internet_state.
  destruct (level_eqb (internet_state st) l); reflexivity.
Qed.

Lemma set_internet_state_ok (l : level) (st : state) :
  internet_consecutive_ok (set_internet_state l st) = internet_consecutive_ok st.
Proof.
  unfold set_internet_state.
  destruct (level_eqb (internet_state st) l); reflexivity.
Qed.

Lemma failure_level (now : Q) (st : state) :
  internet_state (on_network_failure now st) = yellow.
Proof.
  unfold on_network_failure, _ensure_connectivity_thread. simpl.
  apply set_internet_state_level.
Qed.

Lemma failure_start (now : Q) (st : state) :
  internet_failure_start (on_network_failure now st) =
  if level_eqb (internet_state st) green then Some now
  else internet_failure_start st.
Proof.
  unfold on_network_failure, _ensure_connectivity_thread. simpl.
  rewrite set_internet_state_start. reflexivity.
Qed.

Lemma failure_ok (now : Q) (st : state) :
  internet_consecutive_ok (on_network_failure now st) = 0.
Proof.
  unfold on_network_failure, _ensure_connectivity_thread. simpl.
  rewrite set_internet_state_ok. reflexivity.
Qed.

(** What a success signal does outside green, by the counter. *)
Lemma success_cases (st : state) :
  internet_state st <> green ->
  0 <= internet_consecutive_ok st ->
  let st' := on_network_success st in
  (3 <= internet_consecutive_ok st /\
   internet_state st' = green /\ internet_failure_start st' = None /\
   internet_consecutive_ok st' = 0)
  \/
  (internet_consecutive_ok st < 3 /\
   internet_state st' = internet_state st /\
   internet_failure_start st' = internet_failure_start st /\
   internet_consecutive_ok st' = internet_consecutive_ok st + 1).
Proof.
  intros Hng Hok. unfold on_network_success.
  destruct (level_eqb (internet_state st) green) eqn:E.
  { apply level_eqb_eq in E. contradiction. }
  destruct (4 <=? internet_consecutive_ok st + 1) eqn:E4.
  - left. apply Z.leb_le in E4. simpl.
    rewrite set_internet_state_level, set_internet_state_start,
      set_internet_state_ok. simpl. repeat split; trivial; lia.
  - right. apply Z.leb_gt in E4. simpl.
    destruct (internet_consecutive_ok st + 1 =? 0) eqn:E0.
    { apply Z.eqb_eq in E0. lia. }
    simpl. repeat split; trivial; lia.
Qed.

Lemma success_green (st : state) :
  internet_state st = green -> on_network_success st = st.
Proof.
  intros H. unfold on_network_success. rewrite H. reflexivity.
Qed.

(** What a failed probe does outside green. *)
Lemma probe_failure_cases (now : Q) (st : state) :
  internet_state st <> green ->
  let st' := _connectivity_checker false now st in
  internet_failure_start st' = internet_failure_start st /\
  internet_consecutive_ok st' = 0 /\
  (internet_state st' = internet_state st \/
   (internet_state st = yellow /\ internet_state st' = red /\
    exists start, internet_failure_start st = Some start /\
                  (start + RED_AFTER <= now)%Q)).
Proof.
  intros Hng. unfold _connectivity_checker.
  destruct (level_eqb (internet_state st) green) eqn:E.
  { apply level_eqb_eq in E. contradiction. }
  cbn [internet_state internet_failure_start].
  destruct (level_eqb (internet_state st) yellow) eqn:Ey; simpl;
    [|repeat split; auto].
  apply level_eqb_eq in Ey.
  destruct (internet_failure_start st) as [start|] eqn:Es; simpl;
    [|repeat split; auto].
  destruct (negb (Qeq_bool start 0)); simpl; [|repeat split; auto].
  destruct (Qle_bool RED_AFTER (now - start)) eqn:Et; simpl;
    [|repeat split; auto].
  rewrite set_internet_state_level, set_internet_state_start,
    set_internet_state_ok. simpl.
  repeat split; trivial. right. repeat split; trivial.
  exists start. split; trivial.
  apply Qle_bool_iff in Et. lra.
Qed.

Lemma probe_green (success : bool) (now : Q) (st : state) :
  internet_state st = green ->
  let st' := _connectivity_checker success now st in
  internet_state st' = green /\
  internet_failure_start st' = internet_failure_start st /\
  internet_consecutive_ok st' = internet_consecutive_ok st.
Proof.
  intros H. unfold _connectivity_checker. rewrite H. simpl. auto.
Qed.

Lemma probe_success (now : Q) (st : state) :
  internet_state st <> green ->
  _connectivity_checker true now st = on_network_success st.
Proof.
  intros H. unfold _connectivity_checker.
  destruct (level_eqb (internet_state st) green) eqn:E; trivial.
  apply level_eqb_eq in E. contradiction.
Qed.


Lemma trailing_successes_snoc (l : list signal) (s : signal) :
  trailing_successes (l ++ [s]) =
  if is_success s then S (trailing_successes l) else O.
Proof.
  unfold trailing_successes. rewrite rev_unit. reflexivity.
Qed.

(** The counter along a history that starts outside green at zero. *)
Lemma counter_invariant (st0 : state) (signals : list signal) :
  internet_state st0 <> green ->
  internet_consecutive_ok st0 = 0 ->
  let st := run st0 signals in
  0 <= internet_consecutive_ok st /\
  (internet_state st = green -> internet_consecutive_ok st = 0) /\
  (internet_state st <> green ->
   internet_consecutive_ok st = Z.of_nat (trailing_successes signals) /\
   internet_consecutive_ok st <= 3).
Proof.
  intros Hng H0. induction signals as [|s l IH] using rev_ind.
  - simpl. rewrite H0. repeat split; intros; lia.
  - rewrite run_snoc, trailing_successes_snoc.
    set (st := run st0 l) in *. simpl in IH.
    destruct IH as (Hpos & Hg & Hn).
    destruct (decide (internet_state st = green)) as [G|N].
    + specialize (Hg G).
      destruct s as [now| |success now]; cbn [step is_success].
      * rewrite failure_level, failure_ok. repeat split; try lia; congruence.
      * rewrite success_green by trivial. repeat split; try lia; tauto.
      * destruct (probe_green success now st G) as (A & _ & C).
        rewrite A, C. repeat split; try lia; tauto.
    + destruct (Hn N) as (Hc & H3).
      destruct s as [now| |success now]; cbn [step is_success].
      * rewrite failure_level, failure_ok. repeat split; try lia; congruence.
      * destruct (success_cases st N Hpos) as [(A & B & _ & D)|(A & B & _ & D)];
          rewrite ?B, ?D; repeat split; try lia; try congruence.
      * destruct success; cbn [step is_success].
        -- rewrite probe_success by trivial.
           destruct (success_cases st N Hpos)
             as [(A & B & _ & D)|(A & B & _ & D)];
             rewrite ?B, ?D; repeat split; try lia; try congruence.
        -- destruct (probe_failure_cases now st N) as (_ & C & _).
           rewrite C. repeat split; lia.
Qed.

Lemma outage_extend (signals : list signal) (st st' : state) (start : Q)
      (s : signal) :
  st = run initial signals ->
  st' = step st s ->
  outage_since signals st start ->
  internet_state st' <> green ->
  internet_failure_start st' = internet_failure_start st ->
  outage_since (signals ++ [s]) st' start.
Proof.
  intros Hst Hst' (Hfs & pre & post & Hsig & Hpre & Hall) Hng Hsame.
  split; [congruence|].
  exists pre, (post ++ [s]). split; [|split; trivial].
  - rewrite Hsig, <- app_assoc. reflexivity.
  - intros k. destruct (decide (k <= length post)%nat) as [Hk|Hk].
    + rewrite take_app_le by trivial. apply Hall.
    + rewrite take_ge by (rewrite length_app; simpl; lia).
      replace (pre ++ NetworkFailure start :: post ++ [s])
        with (signals ++ [s]) by (rewrite Hsig, <- app_assoc; reflexivity).
      rewrite run_snoc, <- Hst, <- Hst'. exact Hng.
Qed.

Lemma outage_invariant (signals : list signal) :
  let st := run initial signals in
  0 <= internet_consecutive_ok st /\
  (internet_state st = green -> internet_failure_start st = None) /\
  (internet_state st <> green -> exists start, outage_since signals st start).
Proof.
  induction signals as [|s l IH] using rev_ind.
  - simpl. repeat split; try lia. intros; contradiction.
  - rewrite run_snoc. set (st := run initial l) in *. simpl in IH.
    destruct IH as (Hpos & Hg & Hn).
    destruct (decide (internet_state st = green)) as [G|N].
    + specialize (Hg G).
      destruct s as [now| |success now]; cbn [step is_success].
      * rewrite failure_level, failure_ok, failure_start, G. simpl.
        split; [lia|]. split; [congruence|].
        intros _. exists now.
        split; [rewrite failure_start, G; reflexivity|].
        exists l, (@nil signal). repeat split; trivial.
        intros k. rewrite take_nil, run_snoc. fold st. cbn [step].
        rewrite failure_level. congruence.
      * rewrite success_green by trivial. repeat split; try lia; tauto.
      * destruct (probe_green success now st G) as (A & B & C).
        rewrite A, B, C. repeat split; try lia; tauto.
    + destruct (Hn N) as (start & Hout).
      assert (Hext : forall s',
                 internet_state (step st s') <> green ->
                 internet_failure_start (step st s') =
                 internet_failure_start st ->
                 exists start', outage_since (l ++ [s']) (step st s') start').
      { intros s' A B. exists start.
        eapply outage_extend; eauto. }
      destruct s as [now| |success now].
      * split; [cbn [step]; rewrite failure_ok; lia|]. split.
        -- cbn [step]. rewrite failure_level. congruence.
        -- intros _. apply Hext; cbn [step].
           ++ rewrite failure_level. congruence.
           ++ rewrite failure_start.
              destruct (level_eqb (internet_state st) green) eqn:E; trivial.
              apply level_eqb_eq in E. contradiction.
      * destruct (success_cases st N Hpos) as [(A & B & C & D)|(A & B & C & D)].
        -- cbn [step]. rewrite B, C, D. repeat split; try lia; try congruence.
        -- split; [cbn [step]; rewrite D; lia|]. split.
           ++ cbn [step]. rewrite B. tauto.
           ++ intros _. apply Hext; cbn [step]; congruence.
      * destruct success.
        -- cbn [step]. rewrite probe_success by trivial.
           destruct (success_cases st N Hpos)
             as [(A & B & C & D)|(A & B & C & D)].
           ++ rewrite B, C, D. repeat split; try lia; try congruence.
           ++ split; [rewrite D; lia|]. split; [rewrite B; tauto|].
              intros _.
              rewrite <- (probe_success now st N).
              apply (Hext (Probe true now)); cbn [step];
                rewrite probe_success by trivial; congruence.
        -- destruct (probe_failure_cases now st N) as (A & C & D).
           assert (internet_state (step st (Probe false now)) <> green).
           { cbn [step]. destruct D as [D|(_ & D & _)]; rewrite D; congruence. }
           split; [cbn [step]; rewrite C; lia|]. split; [tauto|].
           intros _. apply Hext; trivial.
Qed.


(** Every change of state is an edge of the specification, or the edge
    from red to yellow. *)
Lemma step_edges (st : state) (s : signal) :
  let a := internet_state st in
  let b := internet_state (step st s) in
  a = b \/ (a = green /\ b = yellow) \/ (a = yellow /\ b = red)
  \/ (a = yellow /\ b = green) \/ (a = red /\ b = green)
  \/ (a = red /\ b = yellow).
Proof.
  cbv zeta.
  assert (Hsucc : forall st0,
             internet_state (on_network_success st0) = internet_state st0
             \/ (internet_state st0 <> green /\
                 internet_state (on_network_success st0) = green)).
  { intros st0. unfold on_network_success.
    destruct (level_eqb (internet_state st0) green) eqn:E; [auto|].
    assert (N : internet_state st0 <> green).
    { intros G. rewrite G in E. discriminate. }
    destruct (4 <=? internet_consecutive_ok st0 + 1); cbn.
    - right. split; trivial. apply set_internet_state_level.
    - destruct (_ && _); [|auto].
      right. split; trivial. apply set_internet_state_level. }
  destruct s as [now| |success now]; cbn [step].
  - rewrite failure_level. destruct (internet_state st); auto 10.
  - destruct (Hsucc st) as [E|[N E]]; [auto|].
    rewrite E. destruct (internet_state st); auto 10.
  - destruct (decide (internet_state st = green)) as [G|N].
    + destruct (probe_green success now st G) as (A & _). rewrite A, G. auto.
    + destruct success.
      * rewrite probe_success by trivial.
        destruct (Hsucc st) as [E|[_ E]]; [auto|].
        rewrite E. destruct (internet_state st); auto 10.
      * destruct (probe_failure_cases now st N) as (_ & _ & [D|(Y & R & _)]).
        -- auto.
        -- rewrite Y, R. auto 10.
Qed.

(** C2.  A failure signal received in the red state moves the state to
    yellow: [on_network_failure] calls [set_internet_state('yellow')]
    whatever the current state is.  The history below reaches red from the
    initial state and then leaves it for yellow. *)
Theorem failure_signal_moves_red_to_yellow :
  (forall now ok start active count prompt alive log,
      internet_state
        (on_network_failure now
           (mkState red ok start active count prompt alive log)) = yellow) /\
  internet_state (run initial [NetworkFailure 100; Probe false 110]) = red /\
  internet_state
    (run initial [NetworkFailure 100; Probe false 110; NetworkFailure 112])
  = yellow.
Proof.
  split; [|split; reflexivity].
  intros. apply failure_level.
Qed.

(** C4.  In every history from the initial state, a step from yellow to
    red is a failed probe of the checker, taken at least 10 seconds after
    the recorded failure start; and that start is the failure signal at
    which the state left green, with no green state since. *)
Theorem yellow_to_red_after_ten_seconds (signals : list signal) (s : signal) :
  internet_state (run initial signals) = yellow ->
  internet_state (run initial (signals ++ [s])) = red ->
  exists now start,
    s = Probe false now /\
    (start + 10 <= now)%Q /\
    outage_since signals (run initial signals) start.
Proof.
  intros Hy Hr. rewrite run_snoc in Hr.
  destruct (outage_invariant signals) as (Hpos & _ & Hout).
  set (st := run initial signals) in *.
  assert (N : internet_state st <> green) by congruence.
  destruct (Hout N) as (start & Hsince).
  destruct s as [now| |success now]; cbn [step] in Hr.
  - rewrite failure_level in Hr. discriminate.
  - destruct (success_cases st N Hpos) as [(_ & B & _)|(_ & B & _)];
      rewrite B in Hr; congruence.
  - destruct success.
    + rewrite probe_success in Hr by trivial.
      destruct (success_cases st N Hpos) as [(_ & B & _)|(_ & B & _)];
        rewrite B in Hr; congruence.
    + exists now, start. split; trivial. split; trivial.
      destruct (probe_failure_cases now st N) as (_ & _ & [D|D]).
      * rewrite D in Hr. congruence.
      * destruct D as (_ & _ & start' & Hs & Ht).
        destruct Hsince as (Hfs & _).
        rewrite Hfs in Hs. injection Hs as <-. exact Ht.
Qed.

Lemma yellow_to_red_after_ten_seconds_witness :
  internet_state (run initial [NetworkFailure 100]) = yellow /\
  internet_state (run initial ([NetworkFailure 100] ++ [Probe false 110])) = red /\
  exists now start,
    Probe false 110 = Probe false now /\
    (start + 10 <= now)%Q /\
    outage_since [NetworkFailure 100] (run initial [NetworkFailure 100]) start.
Proof.
  split; [reflexivity|]. split; [reflexivity|].
  apply (yellow_to_red_after_ten_seconds [NetworkFailure 100] (Probe false 110));
    reflexivity.
Defined.

(** X1.  When the calls of the handlers follow one another without
    overlap: along every history of signals that starts outside green
    with the counter at zero, a step turns the state green exactly when it
    completes a run of four success signals, and a failure signal leaves
    the counter at zero. *)
Theorem green_after_four_successes (st0 : state) (signals : list signal)
        (s : signal) :
  internet_state st0 <> green ->
  internet_consecutive_ok st0 = 0 ->
  let before := run st0 signals in
  let after := run st0 (signals ++ [s]) in
  (internet_state before <> green ->
   (internet_state after = green <->
    (4 <= trailing_successes (signals ++ [s]))%nat)) /\
  (is_success s = false -> internet_consecutive_ok after = 0).
Proof.
  intros Hng H0 before after. subst after. rewrite run_snoc. fold before.
  destruct (counter_invariant st0 signals Hng H0) as (Hpos & Hg & Hn).
  fold before in Hpos, Hg, Hn.
  rewrite trailing_successes_snoc. split.
  - intros N. destruct (Hn N) as (Hc & H3).
    destruct s as [now| |success now]; cbn [step is_success].
    + rewrite failure_level. split; [discriminate|lia].
    + destruct (success_cases before N Hpos)
        as [(A & B & _)|(A & B & _)]; rewrite B; split; intros; try lia;
        try congruence; trivial.
    + destruct success.
      * rewrite probe_success by trivial.
        destruct (success_cases before N Hpos)
          as [(A & B & _)|(A & B & _)]; rewrite B; split; intros; try lia;
          try congruence; trivial.
      * destruct (probe_failure_cases now before N) as (_ & _ & [D|D]).
        -- rewrite D. split; [congruence|lia].
        -- destruct D as (_ & D & _). rewrite D. split; [discriminate|lia].
  - destruct s as [now| |[|] now]; cbn [step is_success]; try discriminate;
      intros _.
    + apply failure_ok.
    + destruct (decide (internet_state before = green)) as [G|N].
      * destruct (probe_green false now before G) as (_ & _ & C).
        rewrite C. auto.
      * apply (probe_failure_cases now before N).
Qed.

Lemma green_after_four_successes_witness :
  let st0 := on_network_failure 100 initial in
  let signals := [NetworkSuccess; Probe true 1; NetworkSuccess] in
  internet_state st0 <> green /\
  internet_consecutive_ok st0 = 0 /\
  (internet_state (run st0 signals) <> green ->
   (internet_state (run st0 (signals ++ [NetworkSuccess])) = green <->
    (4 <= trailing_successes (signals ++ [NetworkSuccess]))%nat)) /\
  (is_success NetworkSuccess = false ->
   internet_consecutive_ok (run st0 (signals ++ [NetworkSuccess])) = 0).
Proof.
  intros st0 signals.
  split; [discriminate|]. split; [reflexivity|].
  apply (green_after_four_successes st0 signals NetworkSuccess);
    [discriminate|reflexivity].
Defined.

(** C5 (code defect).  [on_network_success] is its two lock blocks run one
    after the other.  From the yellow state with three successes counted,
    two calls that follow one another turn the state green at the fourth
    success; when the two calls overlap, the second counting before the
    first has tested the counter, neither sets the state: after five
    successes in a row the state is still yellow, with the counter at 1
    and no failure start. *)
Theorem overlapping_successes_stay_yellow :
  (forall st,
      (advance (advance Entered st).1 (advance Entered st).2).2
      = on_network_success st) /\
  let st3 := run initial [NetworkFailure 100; NetworkSuccess;
                          NetworkSuccess; NetworkSuccess] in
  internet_state st3 = yellow /\
  internet_consecutive_ok st3 = 3 /\
  internet_state
    (interleave [true; true; false; false] Entered Entered st3).2 = green /\
  let r := interleave [true; false; true; false] Entered Entered st3 in
  r.1 = (Returned, Returned) /\
  internet_state r.2 = yellow /\
  internet_consecutive_ok r.2 = 1 /\
  internet_failure_start r.2 = None.
Proof.
  split.
  - intros st. unfold advance, success_count, on_network_success,
      success_publish.
    destruct (level_eqb (internet_state st) green); reflexivity.
  - cbv zeta. repeat split; vm_compute; reflexivity.
Qed.

End ConnectivityFacts.

(** ** Payload validation: proofs *)

Module ValidationFacts.
Import Py GeoDb Engine Spec.

Lemma float_le_within (lo hi : Z) (f : pyfloat) :
  float_le (float_of_Z lo) f && float_le f (float_of_Z hi) = true
  <-> within lo hi f.
Proof.
  unfold within, float_of_Z. destruct f as [|[|]|q]; simpl.
  - split; [discriminate|]. intros (q & E & _). discriminate.
  - split; [discriminate|]. intros (q & E & _). discriminate.
  - split; [discriminate|]. intros (q & E & _). discriminate.
  - rewrite andb_true_iff, !Qle_bool_iff. split.
    + intros [A B]. exists q. auto.
    + intros (q' & E & A & B). injection E as ->. auto.
Qed.

Lemma rstrip_empty (s : string) :
  rstrip s = EmptyString -> lstrip s = EmptyString.
Proof.
  induction s as [|c s IH]; simpl; trivial.
  destruct (rstrip s) eqn:E.
  - destruct (isspace c); [auto|discriminate].
  - discriminate.
Qed.

Lemma strip_empty : strip EmptyString = EmptyString.
Proof. reflexivity. Qed.

Lemma truthy_str (s : string) : truthy (PStr s) = true <-> s <> EmptyString.
Proof.
  simpl. rewrite negb_true_iff. split.
  - intros E ->. discriminate.
  - intros N. destruct (String.eqb s "") eqn:E; trivial.
    apply String.eqb_eq in E. contradiction.
Qed.

Lemma strip_not_empty (s : string) :
  strip s <> EmptyString -> s <> EmptyString.
Proof. intros N ->. apply N. reflexivity. Qed.

(** The validator says yes exactly on the payloads that are valid with a
    country that is not blank. *)
Lemma is_valid_geo_data_code_valid `{Parsers} (data : dict) :
  is_valid_geo_data data = inr true <-> code_valid data.
Proof.
  unfold is_valid_geo_data, is_valid_geo_data_body, code_valid, valid_with.
  set (lat := dict_get data "lat" PNone).
  set (lon := dict_get data "lon" PNone).
  set (country := dict_get data "country" (PStr "")).
  destruct (is_None lat) eqn:Nlat.
  { cbn [orb]. split; [discriminate|].
    intros (la & lo & s & A & _). destruct lat; discriminate. }
  destruct (is_None lon) eqn:Nlon.
  { cbn [orb]. split; [discriminate|].
    intros (la & lo & s & _ & B & _). destruct lon; discriminate. }
  cbn [orb].
  destruct (py_float lat) as [e|la] eqn:Fla.
  { cbn [bind]. split; [destruct e; discriminate|].
    intros (la & lo & s & A & _). discriminate. }
  destruct (py_float lon) as [e|lo] eqn:Flo.
  { cbn [bind]. split; [destruct e; discriminate|].
    intros (la' & lo & s & _ & B & _). discriminate. }
  cbn [bind].
  destruct (float_le (float_of_Z (-90)) la && float_le la (float_of_Z 90))
    eqn:Rla; cbn [negb orb].
  2:{ split; [discriminate|].
      intros (la' & lo' & s & A & _ & C & _). injection A as <-.
      apply float_le_within in C. congruence. }
  destruct (float_le (float_of_Z (-180)) lo && float_le lo (float_of_Z 180))
    eqn:Rlo; cbn [negb orb].
  2:{ split; [discriminate|].
      intros (la' & lo' & s & _ & B & _ & D & _). injection B as <-.
      apply float_le_within in D. congruence. }
  apply float_le_within in Rla, Rlo.
  destruct (truthy country) eqn:Tc; cbn [negb].
  2:{ split; [|intros (la' & lo' & s & _ & _ & _ & _ & E & N)].
      - destruct (float_is_zero la && float_is_zero lo && true); discriminate.
      - rewrite E in Tc. apply strip_not_empty, truthy_str in N. congruence. }
  rewrite andb_false_r.
  destruct country as [| | | |s| |] eqn:Ec;
    try (cbn [py_strip bind raise]; split; [discriminate|];
         intros (la' & lo' & s & _ & _ & _ & _ & E & _); discriminate).
  cbn [py_strip bind ret].
  destruct (truthy (PStr (strip s))) eqn:Ts; cbn [negb].
  - split; [intros _|trivial].
    exists la, lo, s. repeat split; trivial; try apply Rla; try apply Rlo.
    all: try (apply truthy_str; exact Ts).
  - split; [discriminate|].
    intros (la' & lo' & s' & _ & _ & _ & _ & E & N). injection E as <-.
    apply truthy_str in N. congruence.
Qed.

End ValidationFacts.

(** ** The geo worker and the histories of the engine: proofs *)

Module EngineFacts.
Import Py GeoDb Net Engine Spec.
Import Connectivity (level, green, yellow, red, level_eqb).

Section Worker.
Context `{Parsers, Sqlite}.

Lemma store_result_db ip data from_db w :
  db (geo (store_result ip data from_db w)) = db (geo w).
Proof.
  unfold store_result.
  match goal with |- context [if ?c then _ else _] => destruct c end;
    reflexivity.
Qed.

Lemma store_result_cache ip data from_db w :
  geo_cache (geo (store_result ip data from_db w)) =
  <[ip := match data with
          | Some d => if dict_truthy d then ok_entry d from_db
                      else blank_entry "unavailable"
          | None => blank_entry "unavailable"
          end]> (geo_cache (geo w)).
Proof.
  unfold store_result.
  match goal with |- context [if ?c then _ else _] => destruct c end;
    reflexivity.
Qed.

Lemma store_result_offline ip data from_db w :
  offline_queue (geo (store_result ip data from_db w)) =
  offline_queue (geo w).
Proof.
  unfold store_result.
  match goal with |- context [if ?c then _ else _] => destruct c end;
    reflexivity.
Qed.

Lemma store_result_requests ip data from_db w :
  api_requests (geo (store_result ip data from_db w)) =
  api_requests (geo w).
Proof.
  unfold store_result.
  match goal with |- context [if ?c then _ else _] => destruct c end;
    reflexivity.
Qed.

Lemma store_result_pending ip data from_db w :
  pending_lookups (geo (store_result ip data from_db w)) =
  pending_lookups (geo w) ∖ {[ip]}.
Proof.
  unfold store_result.
  match goal with |- context [if ?c then _ else _] => destruct c end;
    reflexivity.
Qed.

Lemma store_result_queue ip data from_db w :
  geo_queue (geo (store_result ip data from_db w)) = geo_queue (geo w).
Proof.
  unfold store_result.
  match goal with |- context [if ?c then _ else _] => destruct c end;
    reflexivity.
Qed.

Lemma fetch_geo_api_geo ip reply now w :
  let w1 := (fetch_geo_api ip reply now w).2 in
  db (geo w1) = db (geo w) /\
  geo_cache (geo w1) = geo_cache (geo w) /\
  geo_queue (geo w1) = geo_queue (geo w) /\
  pending_lookups (geo w1) = pending_lookups (geo w) /\
  offline_queue (geo w1) = offline_queue (geo w) /\
  api_requests (geo w1) = ip :: api_requests (geo w) /\
  tracker w1 = tracker w.
Proof.
  unfold fetch_geo_api.
  destruct reply as [|code [data|]]; simpl; auto 10.
  - destruct (code =? 200); simpl; auto 10.
    destruct (status_is data "success"); simpl; auto 10.
  - destruct (code =? 200); simpl; auto 10.
Qed.

Lemma status_is_ok_entry (d : dict) (from_db : bool) (s : string) :
  status_is (ok_entry d from_db) s = String.eqb "ok" s.
Proof.
  unfold status_is, ok_entry, dict_get. cbn [list_to_map foldr].
  rewrite lookup_insert_eq. reflexivity.
Qed.

Lemma status_is_blank_entry (status s : string) :
  status_is (blank_entry status) s = String.eqb status s.
Proof.
  unfold status_is, blank_entry, dict_get. cbn [list_to_map foldr].
  rewrite lookup_insert_eq. reflexivity.
Qed.

Lemma ok_entry_city (d : dict) (from_db : bool) :
  dict_get (ok_entry d from_db) "city" PNone = dict_get d "city" (PStr "").
Proof.
  unfold ok_entry. unfold dict_get at 1. cbn [list_to_map foldr fst snd].
  repeat (rewrite lookup_insert_ne by discriminate).
  rewrite lookup_insert_eq. reflexivity.
Qed.

Lemma ok_entry_truthy (d : dict) (from_db : bool) :
  dict_truthy (ok_entry d from_db) = true.
Proof.
  unfold dict_truthy.
  destruct (map_to_list (ok_entry d from_db)) eqn:E; trivial.
  apply map_to_list_empty_iff in E.
  assert (F : ok_entry d from_db !! "status" = None) by (rewrite E; apply lookup_empty).
  unfold ok_entry in F. cbn [list_to_map foldr] in F.
  rewrite lookup_insert_eq in F. discriminate.
Qed.

Lemma blank_entry_truthy (status : string) :
  dict_truthy (blank_entry status) = true.
Proof.
  unfold dict_truthy.
  destruct (map_to_list (blank_entry status)) eqn:E; trivial.
  apply map_to_list_empty_iff in E.
  assert (F : blank_entry status !! "status" = None) by (rewrite E; apply lookup_empty).
  unfold blank_entry in F. cbn [list_to_map foldr] in F.
  rewrite lookup_insert_eq in F. discriminate.
Qed.

Lemma blank_entry_city (status : string) :
  dict_get (blank_entry status) "city" PNone = PStr "".
Proof.
  unfold blank_entry, dict_get. cbn [list_to_map foldr fst snd].
  repeat (rewrite lookup_insert_ne by discriminate).
  rewrite lookup_insert_eq. reflexivity.
Qed.

Lemma lookup_deferred reply now ip network_type w :
  get_geo_from_db (db (geo w)) ip = None ->
  skip_api w = true ->
  lookup reply now ip network_type w =
  Running (store_result ip None false
             (with_geo (fun g =>
                set_offline_queue
                  (offline_queue g ++ [(ip, network_type)]) g) w)).
Proof.
  intros Hdb Hskip. unfold lookup. rewrite Hdb. cbn [data_truthy].
  rewrite Hskip. reflexivity.
Qed.

Lemma next_item_same w item w1 :
  next_item w = Some (item, w1) ->
  conn w1 = conn w /\
  db (geo w1) = db (geo w) /\
  geo_db_only_mode (geo w1) = geo_db_only_mode (geo w) /\
  geo_cache (geo w1) = geo_cache (geo w) /\
  pending_lookups (geo w1) = pending_lookups (geo w) /\
  api_requests (geo w1) = api_requests (geo w) /\
  tracker w1 = tracker w /\
  ((geo_queue (geo w) = item :: geo_queue (geo w1) /\
    offline_queue (geo w1) = offline_queue (geo w))
   \/
   (geo_queue (geo w) = [] /\ geo_queue (geo w1) = [] /\
    offline_queue (geo w) = item :: offline_queue (geo w1) /\
    Connectivity.internet_state (conn w) = green /\
    geo_db_only_mode (geo w) = false)).
Proof.
  unfold next_item.
  destruct (geo_queue (geo w)) as [|i rest] eqn:Eq.
  - destruct (offline_queue (geo w)) as [|i rest] eqn:Eo; [discriminate|].
    destruct (level_eqb (Connectivity.internet_state (conn w)) green) eqn:Eg;
      [|discriminate].
    destruct (geo_db_only_mode (geo w)) eqn:Em; [discriminate|].
    cbn [negb andb]. intros [= <- <-]. cbn. rewrite Eq, Em.
    repeat split; trivial. right. repeat split; trivial.
    destruct (Connectivity.internet_state (conn w)); trivial; discriminate.
  - intros [= <- <-]. cbn. repeat split; trivial. left. split; trivial.
Qed.

Lemma fetch_geo_api_data ip reply now w d :
  (fetch_geo_api ip reply now w).1 = Some d ->
  reply = Replied 200 (Some d) /\ status_is d "success" = true.
Proof.
  unfold fetch_geo_api.
  destruct reply as [|code [data|]]; cbn; try discriminate.
  - destruct (code =? 200) eqn:E; cbn; [|discriminate].
    apply Z.eqb_eq in E. subst code.
    destruct (status_is data "success") eqn:S; cbn; [|discriminate].
    intros [= ->]. auto.
  - destruct (code =? 200); cbn; discriminate.
Qed.

(** The store after a lookup: unchanged, or the valid payload saved. *)
Lemma lookup_db reply now ip network_type w :
  db (geo (world_of (lookup reply now ip network_type w))) = db (geo w)
  \/ exists d,
      reply = Replied 200 (Some d) /\
      is_valid_geo_data d = inr true /\
      db (geo (world_of (lookup reply now ip network_type w))) =
      save_geo_to_db ip d now (db (geo w)).
Proof.
  unfold lookup.
  destruct (data_truthy (get_geo_from_db (db (geo w)) ip)).
  { left. cbn [world_of]. apply store_result_db. }
  destruct (skip_api w).
  { left. cbn [world_of]. rewrite store_result_db. reflexivity. }
  destruct (fetch_geo_api ip reply now w) as [data w1] eqn:F.
  assert (Hdb : db (geo w1) = db (geo w)).
  { pose proof (fetch_geo_api_geo ip reply now w) as G.
    rewrite F in G. apply G. }
  destruct data as [d|].
  2:{ left. cbn [world_of]. rewrite store_result_db. exact Hdb. }
  destruct (dict_truthy d).
  2:{ left. cbn [world_of]. rewrite store_result_db. exact Hdb. }
  destruct (is_valid_geo_data d) as [e|[|]] eqn:V.
  - left. cbn [world_of]. exact Hdb.
  - right. exists d. split.
    + apply (fetch_geo_api_data ip reply now w). rewrite F. reflexivity.
    + split; trivial. cbn [world_of]. rewrite store_result_db. cbn.
      rewrite Hdb. reflexivity.
  - left. cbn [world_of]. rewrite store_result_db. exact Hdb.
Qed.

(** The store after a turn of the worker: unchanged, or the valid payload
    saved under the address the turn took from a queue. *)
Lemma geo_worker_db reply now w :
  db (geo (world_of (geo_worker reply now w))) = db (geo w)
  \/ exists ip network_type w1 d,
      next_item w = Some (ip, network_type, w1) /\
      reply = Replied 200 (Some d) /\
      is_valid_geo_data d = inr true /\
      db (geo (world_of (geo_worker reply now w))) =
      save_geo_to_db ip d now (db (geo w)).
Proof.
  unfold geo_worker.
  destruct (next_item w) as [[[ip nt] w1]|] eqn:N; [|left; reflexivity].
  destruct (next_item_same w _ _ N) as (_ & Hdb & _).
  destruct (lookup_db reply now ip nt w1) as [E|(d & A & B & C)].
  - left. congruence.
  - right. exists ip, nt, w1, d. rewrite <- Hdb. auto.
Qed.

Lemma skip_api_not_green w :
  skip_api w = true <->
  geo_db_only_mode (geo w) = true \/
  Connectivity.internet_state (conn w) <> green.
Proof.
  unfold skip_api, offline.
  destruct (geo_db_only_mode (geo w)); cbn [orb].
  - split; auto.
  - destruct (Connectivity.internet_state (conn w)); split;
      try discriminate; trivial.
    + intros [?|?]; [discriminate|contradiction].
    + intros _. right. discriminate.
    + intros _. right. discriminate.
Qed.

Lemma location_status_unavailable network_type ip :
  location_status network_type ip (Some (blank_entry "unavailable"))
  <> "pending".
Proof.
  unfold location_status. cbn [data_truthy].
  rewrite blank_entry_truthy, !status_is_blank_entry.
  destruct (_ || is_private_ip ip); [discriminate|].
  cbn. discriminate.
Qed.

Lemma location_status_of_unavailable network_type ip :
  location_status network_type ip (Some (blank_entry "unavailable")) =
  if classed_private network_type ip then "private" else "unavailable".
Proof.
  unfold location_status, classed_private. cbn [data_truthy].
  rewrite blank_entry_truthy, !status_is_blank_entry.
  destruct (_ || is_private_ip ip); reflexivity.
Qed.

End Worker.

Section Histories.
Context `{Parsers, Sqlite}.

(** A property of the geolocation variables that lookups requests, the
    private-address path and the pending count preserve is preserved by
    a turn of the refresh worker. *)
Lemma refresh_worker_geo_ind (P : geo_state -> Prop) :
  (forall ip nt w, P (geo w) -> P (geo (queue_geo_lookup ip nt w))) ->
  (forall ip w, P (geo w) -> P (geo (set_cached_geo_private ip w))) ->
  (forall n g, P g -> P (set_geo_pending_count n g)) ->
  forall peers addresses now w,
    P (geo w) -> P (geo (refresh_worker peers addresses now w)).
Proof.
  intros Hq Hp Hc peers addresses now w HP.
  unfold refresh_worker.
  set (w1 := with_tracker _ w).
  set (w2 := if 6 <=? addrman_refresh_counter (tracker w1) then _ else w1).
  assert (H2 : P (geo w2)).
  { subst w2. destruct (6 <=? _); exact HP. }
  clearbody w2. clear w1 HP.
  assert (Hfold : forall ids wa, P (geo wa) ->
            P (geo (foldl (track_peer now) (ids, wa) peers).2)).
  { clear w2 H2. induction peers as [|p peers IH]; intros ids wa HP;
      [exact HP|].
    cbn [foldl].
    destruct (track_peer now (ids, wa) p) as [ids' w'] eqn:E.
    apply IH. unfold track_peer in E.
    cbv beta iota zeta in E.
    injection E as _ <-.
    match goal with
    | |- context [match get_cached_geo ?wx ?i with _ => _ end] =>
        assert (Hx : P (geo wx));
        [|destruct (get_cached_geo wx i);
          [exact Hx|destruct (is_public_address _ _); auto]]
    end.
    match goal with
    | |- context [if ?c then _ else _] => destruct c; exact HP
    end. }
  specialize (Hfold ∅ w2 H2).
  destruct (foldl (track_peer now) (∅, w2) peers) as [ids w3].
  cbn [snd] in Hfold.
  cbn [broadcast_update with_tracker with_geo geo].
  apply Hc.
  clear H2. generalize (elements (previous_ids (tracker w3) ∖ ids)).
  intros l. revert w3 Hfold.
  induction l as [|pid l IH]; intros w3 HP; [exact HP|].
  cbn [foldl]. apply IH. exact HP.
Qed.

(** The refresh worker asks for a lookup, or marks an address private,
    only for an address without a session entry, and asks only for public
    addresses. *)
Lemma refresh_worker_geo_steps (P : geo_state -> Prop) :
  (forall ip nt w,
      P (geo w) -> geo_cache (geo w) !! ip = None ->
      is_public_address nt ip = true ->
      P (geo (queue_geo_lookup ip nt w))) ->
  (forall ip w,
      P (geo w) -> geo_cache (geo w) !! ip = None ->
      P (geo (set_cached_geo_private ip w))) ->
  (forall n g, P g -> P (set_geo_pending_count n g)) ->
  forall peers addresses now w,
    P (geo w) -> P (geo (refresh_worker peers addresses now w)).
Proof.
  intros Hq Hp Hc peers addresses now w HP.
  unfold refresh_worker.
  set (w1 := with_tracker _ w).
  set (w2 := if 6 <=? addrman_refresh_counter (tracker w1) then _ else w1).
  assert (H2 : P (geo w2)).
  { subst w2. destruct (6 <=? _); exact HP. }
  clearbody w2. clear w1 HP.
  assert (Hfold : forall ids wa, P (geo wa) ->
            P (geo (foldl (track_peer now) (ids, wa) peers).2)).
  { clear w2 H2. induction peers as [|p peers IH]; intros ids wa HP;
      [exact HP|].
    cbn [foldl].
    destruct (track_peer now (ids, wa) p) as [ids' w'] eqn:E.
    apply IH. unfold track_peer in E.
    cbv beta iota zeta in E.
    injection E as _ <-.
    match goal with
    | |- context [match get_cached_geo ?wx ?i with _ => _ end] =>
        assert (Hx : P (geo wx));
        [|destruct (get_cached_geo wx i) eqn:Eg;
          [exact Hx
          |destruct (is_public_address (network_of p) i) eqn:Ep;
           [apply Hq; assumption|apply Hp; assumption]]]
    end.
    match goal with
    | |- context [if ?c then _ else _] => destruct c; exact HP
    end. }
  specialize (Hfold ∅ w2 H2).
  destruct (foldl (track_peer now) (∅, w2) peers) as [ids w3].
  cbn [snd] in Hfold.
  cbn [broadcast_update with_tracker with_geo geo].
  apply Hc.
  clear H2. generalize (elements (previous_ids (tracker w3) ∖ ids)).
  intros l. revert w3 Hfold.
  induction l as [|pid l IH]; intros w3 HP; [exact HP|].
  cbn [foldl]. apply IH. exact HP.
Qed.

(** The session cache after a lookup. *)
Lemma lookup_cache reply now ip network_type w :
  let w' := world_of (lookup reply now ip network_type w) in
  geo_cache (geo w') = geo_cache (geo w)
  \/ exists e,
      geo_cache (geo w') = <[ip := e]> (geo_cache (geo w)) /\
      dict_truthy e = true /\
      (status_is e "ok" = true \/ status_is e "unavailable" = true).
Proof.
  assert (Hstore : forall data from_db w0,
             geo_cache (geo w0) = geo_cache (geo w) ->
             exists e,
               geo_cache (geo (store_result ip data from_db w0)) =
               <[ip := e]> (geo_cache (geo w)) /\
               dict_truthy e = true /\
               (status_is e "ok" = true \/
                status_is e "unavailable" = true)).
  { intros data from_db w0 E. rewrite store_result_cache, E.
    eexists. split; [reflexivity|].
    destruct data as [d|]; [destruct (dict_truthy d)|].
    - rewrite ok_entry_truthy, status_is_ok_entry. auto.
    - rewrite blank_entry_truthy, !status_is_blank_entry. auto.
    - rewrite blank_entry_truthy, !status_is_blank_entry. auto. }
  cbv zeta. unfold lookup.
  destruct (data_truthy (get_geo_from_db (db (geo w)) ip)).
  { right. cbn [world_of]. apply Hstore. reflexivity. }
  destruct (skip_api w).
  { right. cbn [world_of]. apply Hstore. reflexivity. }
  destruct (fetch_geo_api ip reply now w) as [data w1] eqn:F.
  assert (Hc : geo_cache (geo w1) = geo_cache (geo w)).
  { pose proof (fetch_geo_api_geo ip reply now w) as G.
    rewrite F in G. apply G. }
  destruct data as [d|].
  2:{ right. cbn [world_of]. apply Hstore. exact Hc. }
  destruct (dict_truthy d).
  2:{ right. cbn [world_of]. apply Hstore. exact Hc. }
  destruct (is_valid_geo_data d) as [e|[|]].
  - left. exact Hc.
  - right. cbn [world_of]. apply Hstore. exact Hc.
  - right. cbn [world_of]. apply Hstore. exact Hc.
Qed.

Lemma known_insert (w : world) (c : gmap string dict) ip e :
  cache_statuses_known w ->
  c = <[ip := e]> (geo_cache (geo w)) ->
  dict_truthy e = true -> known_status e ->
  forall ip' e', c !! ip' = Some e' ->
                 dict_truthy e' = true /\ known_status e'.
Proof.
  intros Hw -> Ht Hk ip' e' L.
  destruct (decide (ip = ip')) as [->|N].
  - rewrite lookup_insert_eq in L. injection L as <-. auto.
  - rewrite lookup_insert_ne in L by trivial. eapply Hw; eauto.
Qed.

(** Every operation of the engine keeps the stored statuses known. *)
Lemma exec_statuses_known (w : world) (o : op) :
  cache_statuses_known w -> cache_statuses_known (exec w o).
Proof.
  intros Hw. destruct o as [reply now|peers addresses now|ip nt|s| |dl].
  - cbn [exec]. unfold geo_worker.
    destruct (next_item w) as [[[ip nt] w1]|] eqn:N; [|exact Hw].
    destruct (next_item_same w _ _ N) as (_ & _ & _ & Hc & _).
    assert (Hw1 : cache_statuses_known w1).
    { unfold cache_statuses_known. rewrite Hc. exact Hw. }
    destruct (lookup_cache reply now ip nt w1) as [E|(e & E & T & K)].
    + unfold cache_statuses_known. rewrite E. exact Hw1.
    + unfold cache_statuses_known.
      apply (known_insert w1 _ ip e); trivial.
      unfold known_status. tauto.
  - cbn [exec].
    set (P := fun g : geo_state =>
                forall ip e, geo_cache g !! ip = Some e ->
                             dict_truthy e = true /\ known_status e).
    change (P (geo (refresh_worker peers addresses now w))).
    apply refresh_worker_geo_ind; subst P; cbv beta; trivial.
    + intros ip nt w0 H1. unfold queue_geo_lookup.
      destruct (bool_decide _); exact H1.
    + intros ip w0 H1.
      apply (known_insert w0 _ ip (blank_entry "private"));
        [exact H1|reflexivity|apply blank_entry_truthy|].
      unfold known_status. rewrite !status_is_blank_entry. auto.
  - cbn [exec]. unfold queue_geo_lookup.
    destruct (bool_decide _); exact Hw.
  - exact Hw.
  - cbn [exec]. unfold api_toggle_db_only.
    destruct (negb _); exact Hw.
  - exact Hw.
Qed.

Lemma run_ops_snoc (w : world) (ops : list op) (o : op) :
  run_ops w (ops ++ [o]) = exec (run_ops w ops) o.
Proof. unfold run_ops. rewrite foldl_app. reflexivity. Qed.

(** A session entry stays as it is under every operation but a turn of
    the geo worker that takes its address. *)
Lemma exec_keeps_entry (w : world) (o : op) (ip : string) (e : dict) :
  geo_cache (geo w) !! ip = Some e ->
  takes ip w o = false ->
  geo_cache (geo (exec w o)) !! ip = Some e.
Proof.
  intros He Ht. destruct o as [reply now|peers addresses now|ip0 nt0|s| |dl].
  - cbn [exec]. unfold geo_worker. cbn [takes] in Ht.
    destruct (next_item w) as [[[ip' nt] w1]|] eqn:N; [|exact He].
    apply String.eqb_neq in Ht.
    destruct (next_item_same w _ _ N) as (_ & _ & _ & Hc & _).
    destruct (lookup_cache reply now ip' nt w1) as [E|(e' & E & _)];
      rewrite E, Hc; [exact He|].
    rewrite lookup_insert_ne by exact Ht. exact He.
  - cbn [exec].
    apply (refresh_worker_geo_steps (fun g => geo_cache g !! ip = Some e));
      [| | |exact He].
    + intros ip' nt w0 H1 _ _. unfold queue_geo_lookup.
      destruct (bool_decide _); exact H1.
    + intros ip' w0 H1 Hnone. cbn.
      rewrite lookup_insert_ne by congruence. exact H1.
    + intros n g H1. exact H1.
  - cbn [exec]. unfold queue_geo_lookup. destruct (bool_decide _); exact He.
  - exact He.
  - cbn [exec]. unfold api_toggle_db_only. destruct (negb _); exact He.
  - exact He.
Qed.

Lemma run_ops_keeps_entry (ops : list op) (w : world) (ip : string)
      (e : dict) :
  geo_cache (geo w) !! ip = Some e ->
  untaken ip w ops = true ->
  geo_cache (geo (run_ops w ops)) !! ip = Some e.
Proof.
  revert w. induction ops as [|o ops IH]; intros w He Hu; [exact He|].
  cbn [untaken] in Hu. apply andb_true_iff in Hu. destruct Hu as [Ht Hu].
  apply negb_true_iff in Ht.
  change (run_ops w (o :: ops)) with (run_ops (exec w o) ops).
  apply IH; [|exact Hu]. apply exec_keeps_entry; assumption.
Qed.

Lemma run_ops_statuses_known (w : world) (ops : list op) :
  cache_statuses_known w -> cache_statuses_known (run_ops w ops).
Proof.
  intros Hw. induction ops as [|o ops IH] using rev_ind; [exact Hw|].
  rewrite run_ops_snoc. apply exec_statuses_known. exact IH.
Qed.

(** The queue and the pending set after a lookup. *)
Lemma lookup_flight reply now ip network_type w :
  let o := lookup reply now ip network_type w in
  geo_queue (geo (world_of o)) = geo_queue (geo w) /\
  (pending_lookups (geo (world_of o)) = pending_lookups (geo w) ∖ {[ip]}
   \/ (exists e, o = Died e (world_of o)) /\
      pending_lookups (geo (world_of o)) = pending_lookups (geo w)).
Proof.
  cbv zeta. unfold lookup.
  destruct (data_truthy (get_geo_from_db (db (geo w)) ip)).
  { cbn [world_of]. rewrite store_result_queue, store_result_pending. auto. }
  destruct (skip_api w).
  { cbn [world_of]. rewrite store_result_queue, store_result_pending. auto. }
  destruct (fetch_geo_api ip reply now w) as [data w1] eqn:F.
  pose proof (fetch_geo_api_geo ip reply now w) as G.
  rewrite F in G. cbn [snd] in G.
  destruct G as (_ & _ & Gq & Gp & _).
  destruct data as [d|].
  2:{ cbn [world_of]. rewrite store_result_queue, store_result_pending.
      rewrite Gq, Gp. auto. }
  destruct (dict_truthy d).
  2:{ cbn [world_of]. rewrite store_result_queue, store_result_pending.
      rewrite Gq, Gp. auto. }
  destruct (is_valid_geo_data d) as [e|[|]].
  - cbn [world_of]. split; trivial. right. split; eauto.
  - cbn [world_of]. rewrite store_result_queue, store_result_pending.
    cbn. rewrite Gq, Gp. auto.
  - cbn [world_of]. rewrite store_result_queue, store_result_pending.
    rewrite Gq, Gp. auto.
Qed.

Lemma queue_geo_lookup_flight ip network_type w :
  single_flight w -> single_flight (queue_geo_lookup ip network_type w).
Proof.
  intros [Hnd Hin]. unfold queue_geo_lookup.
  destruct (bool_decide (ip ∈ pending_lookups (geo w))) eqn:E;
    [split; trivial|].
  apply bool_decide_eq_false in E.
  unfold single_flight. cbn.
  rewrite fmap_app. cbn. split.
  - apply NoDup_app. split; [exact Hnd|]. split.
    + intros x Hx Hx'. apply list_elem_of_singleton in Hx'. subst x.
      apply E, Hin, Hx.
    + apply NoDup_singleton.
  - intros x Hx. apply elem_of_app in Hx. destruct Hx as [Hx|Hx].
    + apply elem_of_union_r, Hin, Hx.
    + apply list_elem_of_singleton in Hx. subst x.
      apply elem_of_union_l, elem_of_singleton. reflexivity.
Qed.

(** Every operation of the engine keeps lookups in single flight. *)
Lemma exec_single_flight (w : world) (o : op) :
  single_flight w -> single_flight (exec w o).
Proof.
  intros Hw. destruct o as [reply now|peers addresses now|ip nt|s| |dl].
  - cbn [exec]. unfold geo_worker.
    destruct (next_item w) as [[[ip nt] w1]|] eqn:N; [|exact Hw].
    destruct (next_item_same w _ _ N)
      as (_ & _ & _ & _ & Hp & _ & _ & Hq).
    destruct (lookup_flight reply now ip nt w1) as (Lq & Lp).
    destruct Hw as [Hnd Hin]. unfold single_flight. rewrite Lq.
    destruct Hq as [(Hq & _)|(_ & Hq & _)].
    + rewrite Hq in Hnd, Hin. cbn in Hnd, Hin.
      apply NoDup_cons in Hnd. destruct Hnd as [Hip Hnd].
      split; [exact Hnd|]. intros x Hx.
      assert (Hx' : x ∈ pending_lookups (geo w1)).
      { rewrite Hp. apply Hin. apply elem_of_cons. auto. }
      destruct Lp as [-> | [_ ->]]; trivial.
      apply elem_of_difference. split; trivial.
      intros Hs. apply elem_of_singleton in Hs. subst x. contradiction.
    + rewrite Hq. cbn. split; [apply NoDup_nil_2|].
      intros x Hx. inversion Hx.
  - cbn [exec].
    set (P := fun g : geo_state =>
                NoDup (geo_queue g).*1 /\
                forall ip, ip ∈ (geo_queue g).*1 -> ip ∈ pending_lookups g).
    change (P (geo (refresh_worker peers addresses now w))).
    apply refresh_worker_geo_ind; subst P; cbv beta; trivial.
    intros ip nt w0 H1. apply (queue_geo_lookup_flight ip nt w0 H1).
  - cbn [exec]. apply queue_geo_lookup_flight, Hw.
  - exact Hw.
  - cbn [exec]. unfold api_toggle_db_only.
    destruct (negb _); exact Hw.
  - exact Hw.
Qed.

Lemma run_ops_single_flight (w : world) (ops : list op) :
  single_flight w -> single_flight (run_ops w ops).
Proof.
  intros Hw. induction ops as [|o ops IH] using rev_ind; [exact Hw|].
  rewrite run_ops_snoc. apply exec_single_flight. exact IH.
Qed.

End Histories.

(** C1 (amended).  An address taken by the geo worker that the store does
    not hold, while the database-only mode is on or the state is not
    green, is appended to the offline retry list, no request is sent to the
    external service, and its session entry is written with status
    'unavailable'.  Until the worker takes the address again the entry
    stays as written, and consumers are told 'unavailable' ('private' where
    they class the address private), never 'pending'. *)
Theorem deferred_lookup_is_marked_unavailable `{Parsers, Sqlite}
        (reply : api_reply) (now : Q) (w w1 : world)
        (ip network_type : string) :
  next_item w = Some (ip, network_type, w1) ->
  get_geo_from_db (db (geo w)) ip = None ->
  (geo_db_only_mode (geo w) = true \/
   Connectivity.internet_state (conn w) <> green) ->
  exists w',
    geo_worker reply now w = Running w' /\
    offline_queue (geo w') = offline_queue (geo w1) ++ [(ip, network_type)] /\
    api_requests (geo w') = api_requests (geo w) /\
    forall ops,
      untaken ip w' ops = true ->
      get_cached_geo (run_ops w' ops) ip = Some (blank_entry "unavailable") /\
      forall network_type',
        location_status network_type' ip (get_cached_geo (run_ops w' ops) ip)
        = if classed_private network_type' ip then "private"
          else "unavailable".
Proof.
  intros Hnext Hdb Hskip.
  destruct (next_item_same w _ _ Hnext)
    as (Hconn & Hdb1 & Hmode & _ & _ & Hreq & _ & _).
  assert (Hskip1 : skip_api w1 = true).
  { apply skip_api_not_green. rewrite Hconn, Hmode. exact Hskip. }
  unfold geo_worker. rewrite Hnext.
  rewrite lookup_deferred by (rewrite ?Hdb1; trivial).
  eexists. split; [reflexivity|].
  rewrite store_result_offline, store_result_requests.
  split; [reflexivity|]. split; [exact Hreq|].
  intros ops Hu.
  assert (Hentry : get_cached_geo
                     (run_ops (store_result ip None false
                        (with_geo (fun g =>
                           set_offline_queue
                             (offline_queue g ++ [(ip, network_type)]) g) w1))
                        ops) ip
                   = Some (blank_entry "unavailable")).
  { unfold get_cached_geo. apply run_ops_keeps_entry; [|exact Hu].
    rewrite store_result_cache. apply lookup_insert_eq. }
  split; [exact Hentry|]. intros nt'. rewrite Hentry.
  apply location_status_of_unavailable.
Qed.

Lemma status_is_exclusive (e : dict) (a b : string) :
  status_is e a = true -> a <> b -> status_is e b = false.
Proof.
  unfold status_is. destruct (dict_get e "status" PNone); try discriminate.
  intros Ha Hab. apply String.eqb_eq in Ha. subst a.
  destruct (String.eqb s b) eqn:E; trivial.
  apply String.eqb_eq in E. contradiction.
Qed.

Lemma startup_statuses_known (s : store) : cache_statuses_known (startup s).
Proof. intros ip e L. cbn in L. rewrite lookup_empty in L. discriminate. Qed.

Lemma startup_single_flight (s : store) : single_flight (startup s).
Proof.
  split; cbn.
  - apply NoDup_nil_2.
  - intros ip Hip. inversion Hip.
Qed.

(** What [api_peers] reports for an address whose entry, if any, is not
    empty and has a stored status. *)
Lemma location_status_pending `{Parsers} (network_type ip : string)
      (entry : option dict) :
  (forall e, entry = Some e -> dict_truthy e = true /\ known_status e) ->
  location_status network_type ip entry = "pending" <->
  classed_private network_type ip = false /\
  (entry = None \/
   exists e, entry = Some e /\
     ((status_is e "ok" = true /\ truthy (dict_get e "city" PNone) = false)
      \/ status_is e "private" = true)).
Proof.
  intros Hentry. unfold location_status, classed_private.
  destruct (_ || is_private_ip ip).
  { split; [discriminate|]. intros [? _]. discriminate. }
  destruct entry as [e|]; cbn [data_truthy].
  2:{ cbn. split; auto. }
  destruct (Hentry e eq_refl) as (Ht & Hk). rewrite Ht. cbn [andb].
  destruct (status_is e "ok") eqn:Eok.
  - rewrite (status_is_exclusive e "ok" "unavailable") by (trivial; discriminate).
    cbn [andb].
    assert (Epr : status_is e "private" = false)
      by (apply (status_is_exclusive e "ok"); trivial; discriminate).
    destruct (truthy (dict_get e "city" PNone)) eqn:Ec.
    + split; [discriminate|]. intros (_ & [F|(e' & E' & F)]); [discriminate|].
      injection E' as <-. destruct F as [[_ F]|F]; congruence.
    + split; [|reflexivity]. intros _. split; trivial. right. exists e. auto.
  - cbn [andb].
    destruct (status_is e "unavailable") eqn:Eun.
    + assert (Epr : status_is e "private" = false)
        by (apply (status_is_exclusive e "unavailable"); trivial; discriminate).
      split; [discriminate|]. intros (_ & [F|(e' & E' & F)]); [discriminate|].
      injection E' as <-. destruct F as [[F _]|F]; congruence.
    + split; [|reflexivity]. intros _. split; trivial. right. exists e.
      split; trivial. right.
      destruct Hk as [K|[K|K]]; congruence.
Qed.

(** C3 (amended).  The validator returns true exactly for a payload whose
    latitude and longitude are present, convertible by [float] and within
    [-90,90] and [-180,180], and whose country is a string that is not
    blank; [{lat:0, lon:0, country:""}] is rejected and [{lat:0, lon:0,
    country:"Ghana"}] accepted; and a turn of the geo worker that changes
    the persistent store does so by one write: [save_geo_to_db] of the
    reply of the service, which the validator accepted, under the address
    the turn took from its queue. *)
Theorem geo_payload_validation `{Parsers, Sqlite} :
  (forall data, is_valid_geo_data data = inr true <-> code_valid data) /\
  is_valid_geo_data (geo_payload 0 0 "") = inr false /\
  is_valid_geo_data (geo_payload 0 0 "Ghana") = inr true /\
  (forall reply now w,
      db (geo (world_of (geo_worker reply now w))) <> db (geo w) ->
      exists ip network_type w1 d,
        next_item w = Some (ip, network_type, w1) /\
        reply = Replied 200 (Some d) /\
        code_valid d /\
        db (geo (world_of (geo_worker reply now w))) =
        save_geo_to_db ip d now (db (geo w))).
Proof.
  split; [apply ValidationFacts.is_valid_geo_data_code_valid|].
  split; [reflexivity|]. split; [reflexivity|].
  intros reply now w Hne.
  destruct (geo_worker_db reply now w) as [E|(ip & nt & w1 & d & N & A & B & C)].
  - contradiction.
  - exists ip, nt, w1, d. split; [exact N|]. split; [exact A|].
    split; [|exact C].
    apply ValidationFacts.is_valid_geo_data_code_valid. exact B.
Qed.

(** C8.  In every history from start-up no address is queued twice and
    every queued address is in the pending set, which holds each address
    once; a lookup request for a pending address changes nothing; and a
    completed turn of the geo worker leaves its address out of the pending
    set. *)
Theorem pending_lookups_single_flight `{Parsers, Sqlite} (s : store)
        (ops : list op) :
  let w := run_ops (startup s) ops in
  single_flight w /\
  NoDup (elements (pending_lookups (geo w))) /\
  (forall ip network_type,
      ip ∈ pending_lookups (geo w) ->
      queue_geo_lookup ip network_type w = w) /\
  (forall reply now ip network_type w1 w',
      next_item w = Some (ip, network_type, w1) ->
      geo_worker reply now w = Running w' ->
      ip ∉ pending_lookups (geo w')).
Proof.
  intros w. split; [apply run_ops_single_flight, startup_single_flight|].
  split; [apply NoDup_elements|]. split.
  - intros ip nt Hin. unfold queue_geo_lookup.
    rewrite bool_decide_eq_true_2 by trivial. reflexivity.
  - intros reply now ip nt w1 w' Hnext Hrun.
    unfold geo_worker in Hrun. rewrite Hnext in Hrun.
    destruct (lookup_flight reply now ip nt w1) as (_ & [Lp|[[e Le] _]]).
    + rewrite Hrun in Lp. cbn [world_of] in Lp. rewrite Lp.
      intros Hin. apply elem_of_difference in Hin.
      destruct Hin as [_ Hin]. apply Hin, elem_of_singleton. reflexivity.
    + rewrite Hrun in Le. discriminate.
Qed.

(** C10 (amended).  In every history from start-up each session entry is
    under the status 'ok', 'unavailable' or 'private', never 'pending'; an
    entry that a turn of the geo worker writes is 'ok' or 'unavailable';
    the private-address path writes 'private'; and [api_peers] reports an
    address as pending exactly when it does not class the address as
    private and the entry is missing, or is 'ok' without a city, or is
    'private'. *)
Theorem session_statuses_and_pending `{Parsers, Sqlite} (s : store)
        (ops : list op) :
  let w := run_ops (startup s) ops in
  cache_statuses_known w /\
  (forall ip e, geo_cache (geo w) !! ip = Some e ->
                status_is e "pending" = false) /\
  (forall reply now ip e,
      geo_cache (geo (world_of (geo_worker reply now w))) !! ip = Some e ->
      geo_cache (geo w) !! ip = Some e
      \/ status_is e "ok" = true \/ status_is e "unavailable" = true) /\
  (forall ip,
      exists e, get_cached_geo (set_cached_geo_private ip w) ip = Some e /\
                status_is e "private" = true) /\
  (forall network_type ip,
      location_status network_type ip (get_cached_geo w ip) = "pending" <->
      classed_private network_type ip = false /\
      (get_cached_geo w ip = None \/
       exists e, get_cached_geo w ip = Some e /\
         ((status_is e "ok" = true /\
           truthy (dict_get e "city" PNone) = false)
          \/ status_is e "private" = true))).
Proof.
  intros w.
  assert (Hk : cache_statuses_known w)
    by apply run_ops_statuses_known, startup_statuses_known.
  split; [exact Hk|]. split; [|split; [|split]].
  - intros ip e L. destruct (Hk ip e L) as (_ & [K|[K|K]]);
      apply (status_is_exclusive e _ _ K); discriminate.
  - intros reply now ip e L. unfold geo_worker in L.
    destruct (next_item w) as [[[ip' nt] w1]|] eqn:N; [|auto].
    destruct (next_item_same w _ _ N) as (_ & _ & _ & Hc & _).
    destruct (lookup_cache reply now ip' nt w1) as [E|(e' & E & _ & K)].
    + left. rewrite E, Hc in L. exact L.
    + rewrite E, Hc in L. destruct (decide (ip' = ip)) as [->|Ne].
      * rewrite lookup_insert_eq in L. injection L as <-. auto.
      * rewrite lookup_insert_ne in L by trivial. auto.
  - intros ip. exists (blank_entry "private"). split.
    + unfold get_cached_geo. cbn. apply lookup_insert_eq.
    + apply status_is_blank_entry.
  - intros nt ip. apply location_status_pending.
    intros e L. apply (Hk ip e L).
Qed.

End EngineFacts.

(** ** The persistent store: proofs *)

Module GeoDbFacts.
Import Py GeoDb Spec.

Lemma insert_or_ignore_union (rows m : gmap string row) (unkeyed : list row)
      (k : string) (r : row) :
  (insert_or_ignore (rows, unkeyed) (Some k, r)).1 ∪ m = rows ∪ <[k := r]> m /\
  (insert_or_ignore (rows, unkeyed) (Some k, r)).2 = unkeyed.
Proof.
  unfold insert_or_ignore. cbn [fst snd].
  destruct (rows !! k) as [r0|] eqn:E; cbn [fst snd]; (split; [|reflexivity]);
    apply map_eq; intros i; rewrite !lookup_union;
    destruct (decide (k = i)) as [->|N].
  - rewrite E, lookup_insert_eq. cbn. destruct (m !! i); reflexivity.
  - rewrite lookup_insert_ne by trivial. reflexivity.
  - rewrite !lookup_insert_eq, E. cbn. destruct (m !! i); reflexivity.
  - rewrite !lookup_insert_ne by trivial. reflexivity.
Qed.

(** The merge is the union that keeps the local row on a conflict, next
    to the rows without an address, which are all added. *)
Lemma merge_rows_split (remote : list (option string * row))
      (rows : gmap string row) (unkeyed : list row) :
  merge_rows (rows, unkeyed) remote
  = (rows ∪ list_to_map (with_address remote),
     unkeyed ++ without_address remote).
Proof.
  unfold merge_rows. revert rows unkeyed.
  induction remote as [|[[k|] r] remote IH]; intros rows unkeyed.
  - cbn. rewrite (right_id_L ∅ (∪)), app_nil_r. reflexivity.
  - cbn [foldl].
    destruct (insert_or_ignore_union rows
                (list_to_map (with_address remote)) unkeyed k r) as [E1 E2].
    destruct (insert_or_ignore (rows, unkeyed) (Some k, r)) as [rows1 unkeyed1].
    cbn [fst snd] in E1, E2. subst unkeyed1. rewrite IH, E1. reflexivity.
  - cbn [foldl]. unfold insert_or_ignore at 2. cbn [fst snd].
    rewrite IH, <- app_assoc. reflexivity.
Qed.

(** The row the merge takes for an address is the first one listed. *)
Lemma first_row_with_address (ip : string)
      (listed : list (option string * row)) :
  (list_to_map (with_address listed) : gmap string row) !! ip
  = first_row ip listed.
Proof.
  induction listed as [|[[k|] r] listed IH]; cbn [first_row].
  - apply lookup_empty.
  - change (with_address ((Some k, r) :: listed))
      with ((k, r) :: with_address listed).
    cbn [list_to_map foldr fst snd].
    destruct (String.eqb_spec k ip) as [->|N].
    + apply lookup_insert_eq.
    + rewrite lookup_insert_ne by trivial. exact IH.
  - exact IH.
Qed.

Lemma with_address_table (remote : gmap string row) (unkeyed : list row) :
  with_address (all_rows (Table remote unkeyed)) = map_to_list remote /\
  without_address (all_rows (Table remote unkeyed)) = unkeyed.
Proof.
  unfold with_address, without_address, all_rows. rewrite !omap_app.
  assert (K : forall l : list (string * row),
             omap (fun kr : option string * row =>
                     match kr.1 with
                     | Some k => Some (k, kr.2)
                     | None => None
                     end) (map (fun kr => (Some kr.1, kr.2)) l) = l
             /\ omap (fun kr : option string * row =>
                        match kr.1 with
                        | Some _ => None
                        | None => Some kr.2
                        end) (map (fun kr => (Some kr.1, kr.2)) l) = []).
  { induction l as [|[k r] l [IH1 IH2]]; [split; reflexivity|].
    cbn. cbn in IH1, IH2. rewrite IH1, IH2. split; reflexivity. }
  assert (U : forall l : list row,
             omap (fun kr : option string * row =>
                     match kr.1 with
                     | Some k => Some (k, kr.2)
                     | None => None
                     end) (map (fun r => (None, r)) l) = []
             /\ omap (fun kr : option string * row =>
                        match kr.1 with
                        | Some _ => None
                        | None => Some kr.2
                        end) (map (fun r => (None, r)) l) = l).
  { induction l as [|r l [IH1 IH2]]; [split; reflexivity|].
    cbn. cbn in IH1, IH2. rewrite IH1, IH2. split; reflexivity. }
  destruct (K (map_to_list remote)) as [-> ->].
  destruct (U unkeyed) as [-> ->].
  rewrite app_nil_r. split; reflexivity.
Qed.

Lemma without_address_none (listed : list (option string * row)) :
  Forall (fun kr => is_Some kr.1) listed -> without_address listed = [].
Proof.
  induction 1 as [|[[k|] r] listed [k' E] _ IH]; [reflexivity| |discriminate].
  exact IH.
Qed.

Lemma union_absorb (rows remote : gmap string row) :
  (rows ∪ remote) ∪ remote = rows ∪ remote.
Proof.
  rewrite <- (assoc_L (∪)). rewrite (idemp_L (∪)). reflexivity.
Qed.

(** The store after the handler has answered a download that came with the
    status 200, with the store enabled. *)
Lemma api_geodb_update_store (body : db_content) (file : option db_content) :
  (api_geodb_update (Response 200 body) (mkStore true file)).1
  = if (length (all_rows body) =? 0)%nat then mkStore true file
    else match file with
         | None => mkStore true (Some body)
         | Some NoTable => mkStore true file
         | Some (Table rows unkeyed) =>
             mkStore true
               (Some (Table
                        (rows ∪ list_to_map (with_address (all_rows body)))
                        (unkeyed ++ without_address (all_rows body))))
         | Some (Unindexed listed) =>
             mkStore true (Some (Unindexed (listed ++ all_rows body)))
         end.
Proof.
  unfold api_geodb_update.
  cbn [geo_db_enabled GEO_DB_FILE negb Z.eqb Pos.eqb].
  destruct body as [|remote ru|listed0]; [reflexivity| |];
    (destruct (length _ =? 0)%nat; [reflexivity|]);
    destruct file as [[|rows unkeyed|listed]|]; cbn [fst];
      rewrite ?merge_rows_split; reflexivity.
Qed.

(** In every other case the handler leaves the store as it is. *)
Lemma api_geodb_update_changes (dl : download) (st : store) :
  (api_geodb_update dl st).1 = st \/
  exists body file, dl = Response 200 body /\ st = mkStore true file.
Proof.
  destruct st as [[|] file]; [|left; reflexivity].
  destruct dl as [|code body]; [left; reflexivity|].
  destruct (Z.eqb_spec code 200) as [->|N].
  - right. exists body, file. split; reflexivity.
  - left. unfold api_geodb_update. cbn [geo_db_enabled negb].
    apply Z.eqb_neq in N. rewrite N. reflexivity.
Qed.

(** C7 (amended).  On the table of [init_geo_database] the bulk merge
    keeps every row the store has and adds rows of the download only; a
    downloaded row that carries an address is inserted exactly when the
    store holds no row with that address, the first one listed when the
    download has several.  On a table without the key, which only an
    installed download brings, the merge appends the download.  Merging a
    second time a download in which every row carries an address leaves the
    store, hence its row count, unchanged when its table has the key, also
    when the first call installed the download as the store. *)
Theorem bulk_merge_fills_gaps_only (dl : download) (st : store) :
  let st1 := (api_geodb_update dl st).1 in
  (forall rows unkeyed,
      GEO_DB_FILE st = Some (Table rows unkeyed) ->
      exists rows1 unkeyed1,
        GEO_DB_FILE st1 = Some (Table rows1 unkeyed1) /\
        (forall ip r, rows !! ip = Some r -> rows1 !! ip = Some r) /\
        (exists added, unkeyed1 = unkeyed ++ added) /\
        (forall ip r,
            rows !! ip = None -> rows1 !! ip = Some r ->
            exists status body,
              dl = Response status body /\
              first_row ip (all_rows body) = Some r)) /\
  (forall body rows unkeyed,
      geo_db_enabled st = true ->
      dl = Response 200 body ->
      GEO_DB_FILE st = Some (Table rows unkeyed) ->
      exists rows1 unkeyed1,
        GEO_DB_FILE st1 = Some (Table rows1 unkeyed1) /\
        (unkeyed1 = unkeyed ++ without_address (all_rows body)) /\
        forall ip r,
          rows !! ip = None -> first_row ip (all_rows body) = Some r ->
          rows1 !! ip = Some r) /\
  (forall listed,
      GEO_DB_FILE st = Some (Unindexed listed) ->
      exists added,
        GEO_DB_FILE st1 = Some (Unindexed (listed ++ added)) /\
        (added = [] \/
         exists body, dl = Response 200 body /\ added = all_rows body)) /\
  (all_addressed dl -> keyed_store st1 ->
   (api_geodb_update dl st1).1 = st1 /\
   row_count (api_geodb_update dl st1).1 = row_count st1).
Proof.
  intros st1. split; [|split; [|split]].
  - intros rows unkeyed Hfile. subst st1.
    destruct (api_geodb_update_changes dl st)
      as [->|(body & file & -> & ->)].
    + exists rows, unkeyed. split; trivial. split; trivial.
      split; [exists []; rewrite app_nil_r; reflexivity|].
      intros; congruence.
    + cbn [GEO_DB_FILE] in Hfile. subst file. rewrite api_geodb_update_store.
      destruct (length (all_rows body) =? 0)%nat; cbn [GEO_DB_FILE].
      * exists rows, unkeyed. split; trivial. split; trivial.
        split; [exists []; rewrite app_nil_r; reflexivity|].
        intros; congruence.
      * eexists _, _. split; [reflexivity|]. split; [|split].
        -- intros ip r L. rewrite lookup_union, L.
           destruct (list_to_map (with_address (all_rows body)) !! ip);
             reflexivity.
        -- eexists. reflexivity.
        -- intros ip r L L1.
           rewrite lookup_union, L, first_row_with_address in L1.
           exists 200, body. split; trivial.
           destruct (first_row ip (all_rows body)); trivial; discriminate.
  - intros body rows unkeyed Hen -> Hfile. subst st1.
    destruct st as [enabled file]. cbn [geo_db_enabled GEO_DB_FILE] in Hen, Hfile.
    subst enabled file. rewrite api_geodb_update_store.
    destruct (length (all_rows body) =? 0)%nat eqn:El; cbn [GEO_DB_FILE].
    + apply Nat.eqb_eq, length_zero_iff_nil in El. rewrite El.
      exists rows, unkeyed. split; trivial.
      split; [rewrite app_nil_r; reflexivity|].
      intros ip r _ L. discriminate.
    + eexists _, _. split; [reflexivity|]. split; trivial.
      intros ip r L L1.
      rewrite lookup_union, L, first_row_with_address, L1. reflexivity.
  - intros listed Hfile. subst st1.
    destruct (api_geodb_update_changes dl st)
      as [->|(body & file & -> & ->)].
    + exists []. rewrite app_nil_r. split; [trivial|left; reflexivity].
    + cbn [GEO_DB_FILE] in Hfile. subst file. rewrite api_geodb_update_store.
      destruct (length (all_rows body) =? 0)%nat; cbn [GEO_DB_FILE].
      * exists []. rewrite app_nil_r. split; [trivial|left; reflexivity].
      * exists (all_rows body). split; trivial. right. exists body.
        split; reflexivity.
  - intros Hall Hkey.
    assert (Hidem : (api_geodb_update dl st1).1 = st1).
    { subst st1.
      destruct (api_geodb_update_changes dl st)
        as [E|(body & file & -> & ->)].
      - rewrite !E. reflexivity.
      - rewrite api_geodb_update_store in Hkey |- *.
        cbn [all_addressed] in Hall.
        destruct (length (all_rows body) =? 0)%nat eqn:El.
        + rewrite api_geodb_update_store, El. reflexivity.
        + destruct file as [[|rows unkeyed|listed]|];
            rewrite api_geodb_update_store, El.
          * reflexivity.
          * rewrite (without_address_none _ Hall), !app_nil_r, union_absorb.
            reflexivity.
          * destruct Hkey.
          * destruct body as [|remote ru|listed0];
              [reflexivity| |destruct Hkey].
            rewrite (without_address_none _ Hall), app_nil_r.
            destruct (with_address_table remote ru) as [-> _].
            rewrite list_to_map_to_list, (idemp_L (∪)). reflexivity. }
    split; [exact Hidem|rewrite Hidem; reflexivity].
Qed.

(** The parameters [save_geo_to_db] binds for a typed record. *)
Lemma bound_param_payload (r : GeoRecord) (now : Q) (c : column) :
  bound_param (payload_of r) now c = stored_value r now c.
Proof.
  destruct r. destruct c; vm_compute; reflexivity.
Qed.

Lemma cell_of_typed_record `{Sqlite} (r : GeoRecord) (now : Q) (c : column) :
  keeps_typed_values ->
  int64 (g_offset r) -> int64 (py_int_of_time now) ->
  sqlite_cell (column_affinity c) (bound_param (payload_of r) now c)
  = Some (stored_value r now c).
Proof.
  intros (Ht & Hr & Hi) Ho Hn. rewrite bound_param_payload.
  assert (Hflag : forall b : bool, int64 (if b then 1 else 0)).
  { intros [|]; unfold int64; lia. }
  destruct c; cbn [column_affinity stored_value]; auto.
Qed.

Lemma insert_row_typed_record `{Sqlite} (r : GeoRecord) (now : Q) :
  keeps_typed_values ->
  int64 (g_offset r) -> int64 (py_int_of_time now) ->
  exists row0,
    insert_row (payload_of r) now = Some row0 /\
    forall c, row0 c = stored_value r now c.
Proof.
  intros Hk Ho Hn. unfold insert_row. cbv zeta.
  assert (Hall :
            forallb (fun c => bool_decide
                       (is_Some (sqlite_cell (column_affinity c)
                                   (bound_param (payload_of r) now c))))
                    columns = true).
  { apply forallb_forall. intros c _. apply bool_decide_eq_true.
    rewrite cell_of_typed_record by trivial. eauto. }
  rewrite Hall. eexists. split; [reflexivity|].
  intros c. cbv beta. rewrite cell_of_typed_record by trivial. reflexivity.
Qed.

Lemma record_of_stored_row (ip : string) (r : GeoRecord) (now : Q) (row0 : row) :
  (forall c, row0 c = stored_value r now c) ->
  record_of_row (dict_of_row ip row0) = Some r /\
  dict_of_row ip row0 !! "ip" = Some (PStr ip) /\
  dict_of_row ip row0 !! "last_updated" = Some (PInt (py_int_of_time now)).
Proof.
  intros Hrow.
  assert (E : dict_of_row ip row0 = dict_of_row ip (stored_value r now)).
  { unfold dict_of_row. cbn [map columns]. rewrite !Hrow. reflexivity. }
  rewrite E. clear E Hrow row0.
  destruct r as [a1 a2 a3 a4 a5 a6 a7 a8 a9 a10 a11 a12 a13 a14 a15 a16 a17
                 a18 [|] [|] [|]];
    (split; [vm_compute; reflexivity|split; vm_compute; reflexivity]).
Qed.

(** C9.  A typed record saved by [save_geo_to_db] into an enabled store
    and read back by [get_geo_from_db] under the same address comes back
    with every field at the value written: text, coordinates and offset as
    they were (the offset in column [utc_offset], the AS in [as_info]), the
    three flags as the integers 1 and 0, next to the address and the time
    of the update.  The store is the table of [init_geo_database]. *)
Theorem upsert_then_get_round_trip `{Sqlite} (ip : string) (r : GeoRecord)
        (now : Q) (rows : gmap string row) (unkeyed : list row) :
  keeps_typed_values ->
  int64 (g_offset r) -> int64 (py_int_of_time now) ->
  exists d,
    get_geo_from_db
      (save_geo_to_db ip (payload_of r) now
                      (mkStore true (Some (Table rows unkeyed))))
      ip = Some d /\
    record_of_row d = Some r /\
    d !! "ip" = Some (PStr ip) /\
    d !! "last_updated" = Some (PInt (py_int_of_time now)).
Proof.
  intros Hk Ho Hn.
  destruct (insert_row_typed_record r now Hk Ho Hn) as (row0 & Hins & Hrow).
  exists (dict_of_row ip row0).
  unfold save_geo_to_db, get_geo_from_db.
  cbn [geo_db_enabled GEO_DB_FILE negb]. rewrite Hins.
  cbn [geo_db_enabled GEO_DB_FILE negb]. rewrite lookup_insert_eq.
  split; [reflexivity|]. apply (record_of_stored_row ip r now row0 Hrow).
Qed.

End GeoDbFacts.

(** ** The refresh worker: proofs *)

Module RefreshFacts.
Import Py GeoDb Net Engine Spec.

Section Tracker.
Context `{Parsers}.

Lemma connect_events_app now previous (l1 l2 : list peer) :
connect_events now previous (l1 ++ l2) =
connect_events now previous l1 ++ connect_events now previous l2.
Proof.
unfold connect_events. destruct (bool_decide (previous = ∅)); trivial.
rewrite filter_app, fmap_app. reflexivity.
Qed.

Lemma connect_events_one now previous (p : peer) :
connect_events now previous [p] =
if bool_decide (peer_id_of p ∉ previous)
   && negb (bool_decide (previous = ∅))
then [(now, connected, info_of p)] else [].
Proof.
unfold connect_events.
destruct (bool_decide (previous = ∅)); cbn [negb].
- rewrite andb_false_r. reflexivity.
- rewrite andb_true_r, filter_cons, filter_nil.
  destruct (decide (peer_id_of p ∉ previous)) as [Y|N].
  + rewrite bool_decide_eq_true_2 by trivial. reflexivity.
  + rewrite bool_decide_eq_false_2 by trivial. reflexivity.
Qed.

Lemma geo_step_tracker (w : world) (ip network_type : string) :
tracker
  (match get_cached_geo w ip with
   | Some _ => w
   | None =>
       if is_public_address network_type ip
       then queue_geo_lookup ip network_type w
       else set_cached_geo_private ip w
   end) = tracker w.
Proof.
destruct (get_cached_geo w ip); trivial.
destruct (is_public_address _ _); trivial.
unfold queue_geo_lookup. destruct (bool_decide _); reflexivity.
Qed.

(** The tracker variables after the body of the loop over the peers. *)
Lemma track_peer_tracker now ids w (p : peer) :
let r := track_peer now (ids, w) p in
r.1 = {[peer_id_of p]} ∪ ids /\
peer_ip_map (tracker r.2) =
  <[peer_id_of p := info_of p]> (peer_ip_map (tracker w)) /\
recent_changes (tracker r.2) =
  recent_changes (tracker w)
  ++ connect_events now (previous_ids (tracker w)) [p] /\
previous_ids (tracker r.2) = previous_ids (tracker w).
Proof.
cbv zeta. unfold track_peer. cbv beta iota zeta. cbn [fst snd].
split; [reflexivity|].
rewrite geo_step_tracker, connect_events_one.
cbn [with_tracker tracker set_peer_ip_map previous_ids].
destruct (bool_decide (peer_id_of p ∉ previous_ids (tracker w))
          && negb (bool_decide (previous_ids (tracker w) = ∅)));
  cbn; rewrite ?app_nil_r; auto.
Qed.

Lemma track_peers_tracker now (peers : list peer) ids w :
let r := foldl (track_peer now) (ids, w) peers in
r.1 = list_to_set (peer_id_of <$> peers) ∪ ids /\
peer_ip_map (tracker r.2) =
  foldl (fun m p => <[peer_id_of p := info_of p]> m)
        (peer_ip_map (tracker w)) peers /\
recent_changes (tracker r.2) =
  recent_changes (tracker w)
  ++ connect_events now (previous_ids (tracker w)) peers /\
previous_ids (tracker r.2) = previous_ids (tracker w).
Proof.
revert ids w. induction peers as [|p peers IH]; intros ids w; cbv zeta.
- cbn. unfold connect_events.
  destruct (bool_decide _); cbn; rewrite app_nil_r;
    (split; [|auto]); rewrite (left_id_L ∅ (∪)); reflexivity.
- cbn [foldl].
  destruct (track_peer now (ids, w) p) as [ids1 w1] eqn:E.
  pose proof (track_peer_tracker now ids w p) as T.
  rewrite E in T. cbn [fst snd] in T. destruct T as (T1 & T2 & T3 & T4).
  destruct (IH ids1 w1) as (I1 & I2 & I3 & I4).
  rewrite I1, I2, I3, I4, T1, T2, T3, T4.
  split; [|split; [reflexivity|split; [|reflexivity]]].
  + rewrite fmap_cons, list_to_set_cons.
    rewrite (assoc_L (∪)), (comm_L (∪) _ {[peer_id_of p]}). reflexivity.
  + rewrite <- List.app_assoc. f_equal.
    change (p :: peers) with ([p] ++ peers).
    rewrite connect_events_app. reflexivity.
Qed.

Lemma drop_peers_tracker now (gone : list string) w :
NoDup gone ->
let w' := foldl (drop_peer now) w gone in
recent_changes (tracker w') =
  recent_changes (tracker w)
  ++ (disconnect_event now (peer_ip_map (tracker w)) <$> gone) /\
peer_ip_map (tracker w') =
  foldl (fun m pid => delete pid m) (peer_ip_map (tracker w)) gone /\
previous_ids (tracker w') = previous_ids (tracker w) /\
geo w' = geo w.
Proof.
revert w. induction gone as [|pid gone IH]; intros w Hnd; cbv zeta.
- cbn. rewrite app_nil_r. auto.
- apply NoDup_cons in Hnd. destruct Hnd as [Hnotin Hnd].
  cbn [foldl]. destruct (IH (drop_peer now w pid) Hnd) as (I1 & I2 & I3 & I4).
  rewrite I1, I2, I3, I4.
  assert (D1 : recent_changes (tracker (drop_peer now w pid)) =
               recent_changes (tracker w)
               ++ [disconnect_event now (peer_ip_map (tracker w)) pid])
    by reflexivity.
  assert (D2 : peer_ip_map (tracker (drop_peer now w pid)) =
               delete pid (peer_ip_map (tracker w))) by reflexivity.
  assert (D3 : previous_ids (tracker (drop_peer now w pid)) =
               previous_ids (tracker w)) by reflexivity.
  assert (D4 : geo (drop_peer now w pid) = geo w) by reflexivity.
  rewrite D1, D2, D3, D4.
  split; [|auto].
  rewrite <- List.app_assoc. f_equal. cbn [fmap list_fmap app]. f_equal.
  apply list_fmap_ext. intros _ x Hx%list_elem_of_lookup_2.
  unfold disconnect_event. rewrite lookup_delete_ne; trivial.
  intros ->. contradiction.
Qed.

(** The tracker variables after a turn of the refresh worker. *)
Lemma refresh_worker_tracker (peers : list peer) addresses now w :
let previous := previous_ids (tracker w) in
let current : gset string := list_to_set (peer_id_of <$> peers) in
let m := foldl (fun m p => <[peer_id_of p := info_of p]> m)
               (peer_ip_map (tracker w)) peers in
let gone := elements (previous ∖ current) in
let w' := refresh_worker peers addresses now w in
recent_changes (tracker w') =
  filter (fun c => is_recent now c)
         (recent_changes (tracker w)
          ++ connect_events now previous peers
          ++ (disconnect_event now m <$> gone)) /\
peer_ip_map (tracker w') = foldl (fun m pid => delete pid m) m gone /\
previous_ids (tracker w') = current.
Proof.
cbv zeta. unfold refresh_worker.
set (w1 := with_tracker _ w).
set (w2 := if 6 <=? addrman_refresh_counter (tracker w1) then _ else w1).
assert (H2 : peer_ip_map (tracker w2) = peer_ip_map (tracker w) /\
             recent_changes (tracker w2) = recent_changes (tracker w) /\
             previous_ids (tracker w2) = previous_ids (tracker w)).
{ subst w2. destruct (6 <=? _); [|auto].
  subst w1. destruct addresses; cbn; auto. }
clearbody w2. clear w1. destruct H2 as (Hm & Hr & Hp).
pose proof (track_peers_tracker now peers ∅ w2) as T.
destruct (foldl (track_peer now) (∅, w2) peers) as [ids w3].
cbn [fst snd] in T. destruct T as (T1 & T2 & T3 & T4).
rewrite (right_id_L ∅ (∪)) in T1. subst ids.
pose proof (drop_peers_tracker now
              (elements (previous_ids (tracker w3)
                         ∖ list_to_set (peer_id_of <$> peers)))
              w3 (NoDup_elements _)) as D.
cbv zeta in D. destruct D as (D1 & D2 & D3 & _).
cbn [broadcast_update with_tracker with_geo tracker set_recent_changes
     recent_changes peer_ip_map previous_ids].
rewrite D1, D2, T2, T3, T4, Hm, Hr, Hp, <- List.app_assoc.
auto.
Qed.

Lemma is_recent_now now kind info : is_recent now (now, kind, info) = true.
Proof.
unfold is_recent, RECENT_WINDOW. cbn [fst].
destruct (Qle_bool 20 (now - now)) eqn:E; trivial.
apply Qle_bool_iff in E. lra.
Qed.

End Tracker.

(** C6.  On a turn with previous id set {1,2,3} and a snapshot of the
    peers 2, 3 and 4, the changes recorded are one 'connected' event for
    peer 4 and one 'disconnected' event for id 1 with the address
    remembered in [peer_ip_map], whose entry for id 1 is removed; and on a
    turn with an empty previous id set no event is recorded. *)
Theorem refresh_records_the_diff `{Parsers} (w : world) (p2 p3 p4 : peer)
        (addresses : option (list string)) (now : Q) (info1 : peer_info) :
  previous_ids (tracker w) = {["1"; "2"; "3"]} ->
  id p2 = Some 2 -> id p3 = Some 3 -> id p4 = Some 4 ->
  peer_ip_map (tracker w) !! "1" = Some info1 ->
  let w' := refresh_worker [p2; p3; p4] addresses now w in
  recent_changes (tracker w') =
    filter (fun c => is_recent now c) (recent_changes (tracker w))
    ++ [(now, connected, info_of p4); (now, disconnected, info1)] /\
  peer_ip_map (tracker w') !! "1" = None /\
  previous_ids (tracker w') = {["2"; "3"; "4"]} /\
  forall w0 peers,
    previous_ids (tracker w0) = ∅ ->
    recent_changes (tracker (refresh_worker peers addresses now w0)) =
    filter (fun c => is_recent now c) (recent_changes (tracker w0)).
Proof.
  intros Hprev H2 H3 H4 Hmap w'.
  assert (Hfirst : forall w0 peers,
             previous_ids (tracker w0) = ∅ ->
             recent_changes (tracker (refresh_worker peers addresses now w0)) =
             filter (fun c => is_recent now c) (recent_changes (tracker w0))).
  { intros w0 peers E.
    destruct (refresh_worker_tracker peers addresses now w0) as (R & _).
    rewrite R, E. unfold connect_events.
    rewrite bool_decide_eq_true_2 by reflexivity.
    assert (Hd : (∅ : gset string) ∖ list_to_set (peer_id_of <$> peers) = ∅).
    { apply set_eq. intros x. rewrite elem_of_difference, elem_of_empty.
      tauto. }
    rewrite Hd, elements_empty. cbn.
    rewrite app_nil_r. reflexivity. }
  destruct (refresh_worker_tracker [p2; p3; p4] addresses now w)
    as (R & M & P).
  fold w' in R, M, P.
  assert (I2 : peer_id_of p2 = "2") by (unfold peer_id_of; rewrite H2; reflexivity).
  assert (I3 : peer_id_of p3 = "3") by (unfold peer_id_of; rewrite H3; reflexivity).
  assert (I4 : peer_id_of p4 = "4") by (unfold peer_id_of; rewrite H4; reflexivity).
  assert (Hcur : (list_to_set (peer_id_of <$> [p2; p3; p4]) : gset string)
                 = {["2"; "3"; "4"]}).
  { cbn. rewrite I2, I3, I4, (right_id_L ∅ (∪)). reflexivity. }
  assert (Hgone : ({["1"; "2"; "3"]} ∖ {["2"; "3"; "4"]} : gset string)
                  = {["1"]}).
  { vm_compute. reflexivity. }
  rewrite Hcur, Hprev, Hgone, elements_singleton in R, M.
  split; [|split; [|split; [exact (eq_trans P Hcur)|exact Hfirst]]].
  - rewrite R. cbn [fmap list_fmap].
    change [p2; p3; p4] with ([p2] ++ [p3] ++ [p4]).
    rewrite !connect_events_app, !connect_events_one, I2, I3, I4.
    assert (Hne : bool_decide (({["1"; "2"; "3"]} : gset string) = ∅) = false)
      by (vm_compute; reflexivity).
    assert (Hn2 : bool_decide ("2" ∉ ({["1"; "2"; "3"]} : gset string)) = false)
      by (vm_compute; reflexivity).
    assert (Hn3 : bool_decide ("3" ∉ ({["1"; "2"; "3"]} : gset string)) = false)
      by (vm_compute; reflexivity).
    rewrite Hne, Hn2, Hn3.
    destruct (bool_decide ("4" ∉ _)) eqn:Hn4;
      [|vm_compute in Hn4; discriminate].
    cbn [andb negb app].
    unfold disconnect_event. cbn [foldl].
    rewrite I2, I3, I4, !lookup_insert_ne, Hmap by discriminate.
    rewrite filter_app. f_equal.
    rewrite !filter_cons, filter_nil.
    rewrite !decide_True by (rewrite is_recent_now; exact I).
    reflexivity.
  - rewrite M. cbn [foldl]. apply lookup_delete_eq.
Qed.

End RefreshFacts.

(** ** The theorems at concrete inputs *)

Module Examples.
Import Py GeoDb Net Engine Spec Sample EngineFacts GeoDbFacts RefreshFacts.
Import Connectivity (level, green, yellow, red, level_eqb).

(** C1, as stated, fails: after the turn that defers the address, its
    session entry is set, under the status 'unavailable', and that is what
    [api_peers] reports. *)
Lemma deferred_lookup_entry_is_set :
  let w' := world_of (geo_worker RequestRaised 100 yellow_world) in
  geo_queue (geo yellow_world) = [("8.8.8.8", "ipv4")] /\
  get_geo_from_db (db (geo yellow_world)) "8.8.8.8" = None /\
  Connectivity.internet_state (conn yellow_world) = yellow /\
  offline_queue (geo w') = [("8.8.8.8", "ipv4")] /\
  api_requests (geo w') = [] /\
  cached_status w' "8.8.8.8" = Some (PStr "unavailable") /\
  location_status "ipv4" "8.8.8.8" (get_cached_geo w' "8.8.8.8")
  = "unavailable".
Proof. intros w'. repeat split; vm_compute; reflexivity. Qed.

Lemma deferred_lookup_is_marked_unavailable_witness :
  let w := yellow_world in
  let w1 := with_geo (set_geo_queue []) yellow_world in
  next_item w = Some ("8.8.8.8", "ipv4", w1) /\
  get_geo_from_db (db (geo w)) "8.8.8.8" = None /\
  (geo_db_only_mode (geo w) = true \/
   Connectivity.internet_state (conn w) <> green) /\
  exists w',
    geo_worker RequestRaised 100 w = Running w' /\
    offline_queue (geo w') = offline_queue (geo w1) ++ [("8.8.8.8", "ipv4")] /\
    api_requests (geo w') = api_requests (geo w) /\
    forall ops,
      untaken "8.8.8.8" w' ops = true ->
      get_cached_geo (run_ops w' ops) "8.8.8.8"
      = Some (blank_entry "unavailable") /\
      forall network_type',
        location_status network_type' "8.8.8.8"
                        (get_cached_geo (run_ops w' ops) "8.8.8.8")
        = if classed_private network_type' "8.8.8.8" then "private"
          else "unavailable".
Proof.
  intros w w1.
  assert (Hnext : next_item w = Some ("8.8.8.8", "ipv4", w1))
    by (vm_compute; reflexivity).
  assert (Hdb : get_geo_from_db (db (geo w)) "8.8.8.8" = None)
    by (vm_compute; reflexivity).
  assert (Hst : geo_db_only_mode (geo w) = true \/
                Connectivity.internet_state (conn w) <> green)
    by (right; vm_compute; discriminate).
  split; [exact Hnext|]. split; [exact Hdb|]. split; [exact Hst|].
  exact (deferred_lookup_is_marked_unavailable
           RequestRaised 100 w w1 "8.8.8.8" "ipv4" Hnext Hdb Hst).
Defined.

(** C3, as stated, fails: a payload with coordinates in range and the
    country " " (one space, not empty) is valid in the words of the
    specification, and the validator rejects it. *)
Lemma blank_country_is_rejected :
  let data := list_to_map [("lat", PInt 10); ("lon", PInt 10);
                           ("country", PStr " ")] : dict in
  spec_valid data /\ is_valid_geo_data data = inr false.
Proof.
  intros data. split; [|vm_compute; reflexivity].
  exists (float_of_Z 10), (float_of_Z 10), " ".
  split; [vm_compute; reflexivity|]. split; [vm_compute; reflexivity|].
  split; [|split; [|split; [vm_compute; reflexivity|discriminate]]].
  - exists (inject_Z 10). repeat split; vm_compute; discriminate.
  - exists (inject_Z 10). repeat split; vm_compute; discriminate.
Qed.

(** C10, as stated, fails: after a successful lookup whose reply names no
    city the address has a session entry, under 'ok', and [api_peers]
    still reports it as pending. *)
Lemma resolved_without_city_is_pending :
  let w := run_ops (startup (mkStore false None))
                   [Lookup "8.8.8.8" "ipv4"; GeoTurn reply_without_city 100] in
  cached_status w "8.8.8.8" = Some (PStr "ok") /\
  location_status "ipv4" "8.8.8.8" (get_cached_geo w "8.8.8.8") = "pending".
Proof. intros w. split; vm_compute; reflexivity. Qed.

(** C7, as stated, fails: a download with one row that carries no address
    is merged into an empty table, which then has one row; merging the
    same download again leaves two. *)
Lemma unkeyed_rows_are_merged_again :
  let dl := Response 200 (Table ∅ [fun _ => PNone]) in
  let st := mkStore true (Some (Table ∅ [])) in
  let st1 := (api_geodb_update dl st).1 in
  row_count st1 = 1%nat /\
  row_count (api_geodb_update dl st1).1 = 2%nat.
Proof. intros dl st st1. split; vm_compute; reflexivity. Qed.

(** A download whose table has no key on [ip], installed as the store
    because the local file was missing, is appended again by the next
    merge, although its row carries an address; the lookup still answers
    with the first row. *)
Lemma installed_download_without_key_grows :
  let dl := Response 200 (Unindexed [(Some "8.8.8.8", fun _ => PNone)]) in
  let st1 := (api_geodb_update dl (mkStore true None)).1 in
  let st2 := (api_geodb_update dl st1).1 in
  row_count st1 = 1%nat /\ row_count st2 = 2%nat /\
  get_geo_from_db st2 "8.8.8.8" = get_geo_from_db st1 "8.8.8.8".
Proof. intros dl st1 st2. repeat split; vm_compute; reflexivity. Qed.

Lemma bulk_merge_fills_gaps_only_witness :
  let dl := Response 200 (Table {["8.8.8.8" := fun _ => PNone]} []) in
  let st := mkStore true (Some (Table ∅ [])) in
  let st1 := (api_geodb_update dl st).1 in
  all_addressed dl /\ keyed_store st1 /\
  row_count st1 = 1%nat /\
  (api_geodb_update dl st1).1 = st1 /\
  row_count (api_geodb_update dl st1).1 = row_count st1.
Proof.
  intros dl st st1.
  assert (Ha : all_addressed dl).
  { vm_compute. apply Forall_cons. split; [eexists; reflexivity|].
    apply Forall_nil_2. }
  assert (Hk : keyed_store st1) by (vm_compute; exact I).
  split; [exact Ha|]. split; [exact Hk|]. split; [vm_compute; reflexivity|].
  exact (proj2 (proj2 (proj2 (bulk_merge_fills_gaps_only dl st))) Ha Hk).
Defined.

Lemma upsert_then_get_round_trip_witness :
  keeps_typed_values /\
  int64 (g_offset sample_record) /\
  int64 (py_int_of_time 1700000000) /\
  exists d,
    get_geo_from_db
      (save_geo_to_db "8.8.8.8" (payload_of sample_record) 1700000000
                      (mkStore true (Some (Table ∅ []))))
      "8.8.8.8" = Some d /\
    record_of_row d = Some sample_record /\
    d !! "ip" = Some (PStr "8.8.8.8") /\
    d !! "last_updated" = Some (PInt (py_int_of_time 1700000000)).
Proof.
  assert (Hk : keeps_typed_values).
  { repeat split; intros; reflexivity. }
  assert (Ho : int64 (g_offset sample_record))
    by (vm_compute; split; [discriminate|reflexivity]).
  assert (Hn : int64 (py_int_of_time 1700000000))
    by (vm_compute; split; [discriminate|reflexivity]).
  split; [exact Hk|]. split; [exact Ho|]. split; [exact Hn|].
  exact (upsert_then_get_round_trip "8.8.8.8" sample_record 1700000000 ∅ []
                                    Hk Ho Hn).
Defined.

Lemma refresh_records_the_diff_witness :
  let w := tracked_world in
  let p2 := sample_peer 2 "198.51.100.2:8333" in
  let p3 := sample_peer 3 "198.51.100.3:8333" in
  let p4 := sample_peer 4 "198.51.100.4:8333" in
  let info1 := mkInfo "203.0.113.1" "8333" "ipv4" in
  let w' := refresh_worker [p2; p3; p4] None 1000 w in
  previous_ids (tracker w) = {["1"; "2"; "3"]} /\
  id p2 = Some 2 /\ id p3 = Some 3 /\ id p4 = Some 4 /\
  peer_ip_map (tracker w) !! "1" = Some info1 /\
  recent_changes (tracker w') =
    filter (fun c => is_recent 1000 c) (recent_changes (tracker w))
    ++ [(1000%Q, connected, info_of p4); (1000%Q, disconnected, info1)] /\
  peer_ip_map (tracker w') !! "1" = None /\
  previous_ids (tracker w') = {["2"; "3"; "4"]} /\
  forall w0 peers,
    previous_ids (tracker w0) = ∅ ->
    recent_changes (tracker (refresh_worker peers None 1000 w0)) =
    filter (fun c => is_recent 1000 c) (recent_changes (tracker w0)).
Proof.
  intros w p2 p3 p4 info1 w'.
  assert (Hprev : previous_ids (tracker w) = {["1"; "2"; "3"]}) by reflexivity.
  assert (Hmap : peer_ip_map (tracker w) !! "1" = Some info1)
    by apply lookup_singleton_eq.
  split; [exact Hprev|]. do 3 (split; [reflexivity|]).
  split; [exact Hmap|].
  exact (refresh_records_the_diff w p2 p3 p4 None 1000 info1
           Hprev eq_refl eq_refl eq_refl Hmap).
Defined.

End Examples.

(** ** The geo worker: further proofs *)

Module WorkerFacts.
Import Py GeoDb Net Engine Spec Notions EngineFacts.
Import Connectivity (level, green, yellow, red, level_eqb).

Section Turns.
Context `{Parsers, Sqlite}.

Lemma dict_of_row_truthy (ip : string) (r : row) :
  dict_truthy (dict_of_row ip r) = true.
Proof.
  unfold dict_truthy.
  destruct (map_to_list (dict_of_row ip r)) eqn:E; trivial.
  apply map_to_list_empty_iff in E.
  assert (F : dict_of_row ip r !! "ip" = None)
    by (rewrite E; apply lookup_empty).
  unfold dict_of_row in F. rewrite lookup_insert_eq in F. discriminate.
Qed.

Lemma db_miss (st : store) (ip : string) :
  data_truthy (get_geo_from_db st ip) = false <->
  get_geo_from_db st ip = None.
Proof.
  split.
  - unfold get_geo_from_db.
    destruct (negb (geo_db_enabled st)); trivial.
    destruct (GEO_DB_FILE st) as [[|rows unkeyed|listed]|]; trivial;
      [destruct (rows !! ip)|destruct (first_row ip listed)]; trivial;
      cbn [data_truthy]; rewrite dict_of_row_truthy; discriminate.
  - intros ->. reflexivity.
Qed.

Lemma store_result_delays ip data from_db w :
  api_delays (geo (store_result ip data from_db w)) =
  if negb from_db && negb (skip_api w) then S (api_delays (geo w))
  else api_delays (geo w).
Proof.
  unfold store_result.
  change (skip_api (broadcast_update "geo_update" ?x)) with (skip_api x).
  match goal with |- context [skip_api ?x] => change (skip_api x) with (skip_api w) end.
  destruct (negb from_db && negb (skip_api w)); reflexivity.
Qed.

Lemma store_result_conn ip data from_db w :
  conn (store_result ip data from_db w) = conn w.
Proof.
  unfold store_result.
  match goal with |- context [if ?c then _ else _] => destruct c end;
    reflexivity.
Qed.


Lemma store_result_failures ip data from_db w :
  api_consecutive_failures (geo (store_result ip data from_db w)) =
  api_consecutive_failures (geo w).
Proof.
  unfold store_result.
  match goal with |- context [if ?c then _ else _] => destruct c end;
    reflexivity.
Qed.


(** The three ways a request of the service ends. *)
Lemma fetch_geo_api_cases ip reply now w :
  let logged := with_geo (fun g => set_api_requests (ip :: api_requests g) g) w in
  (failed_reply reply = true /\
   fetch_geo_api ip reply now w = (None, api_failed now logged))
  \/ (exists d, reply = Replied 200 (Some d) /\
                status_is d "success" = false /\
                fetch_geo_api ip reply now w = (None, logged))
  \/ (exists d, reply = Replied 200 (Some d) /\
                status_is d "success" = true /\
                fetch_geo_api ip reply now w =
                (Some d,
                 with_conn Connectivity.on_network_success
                   (with_geo (set_api_consecutive_failures 0) logged))).
Proof.
  cbv zeta. unfold fetch_geo_api, failed_reply.
  destruct reply as [|code [d|]]; cbn [negb orb].
  - left. auto.
  - destruct (code =? 200) eqn:E; cbn [negb orb].
    + apply Z.eqb_eq in E. subst code. right.
      destruct (status_is d "success") eqn:S; [right|left]; eauto.
    + left. auto.
  - left. split; [|destruct (code =? 200); reflexivity].
    rewrite bool_decide_eq_true_2 by reflexivity. apply orb_true_r.
Qed.

Lemma api_failed_facts now w :
  Connectivity.internet_state (conn (api_failed now w)) = yellow /\
  api_consecutive_failures (geo (api_failed now w)) =
  api_consecutive_failures (geo w) + 1 /\
  geo_db_only_mode (geo (api_failed now w)) = geo_db_only_mode (geo w) /\
  api_delays (geo (api_failed now w)) = api_delays (geo w).
Proof.
  unfold api_failed. split; [|repeat split].
  cbn [with_conn conn]. apply ConnectivityFacts.failure_level.
Qed.

Lemma status_success_truthy (d : dict) :
  status_is d "success" = true -> dict_truthy d = true.
Proof.
  unfold status_is, dict_get, dict_truthy.
  destruct (d !! "status") as [v|] eqn:E; [|discriminate].
  intros _. destruct (map_to_list d) eqn:L; trivial.
  apply map_to_list_empty_iff in L. subst d.
  rewrite lookup_empty in E. discriminate.
Qed.

Lemma validator_exceptions (d : dict) (e : exn) :
  is_valid_geo_data d = inl e -> e = AttributeError \/ e = OverflowError.
Proof.
  unfold is_valid_geo_data.
  destruct (is_valid_geo_data_body d) as [[| | |]|b];
    try discriminate; intros [= <-]; auto.
Qed.

End Turns.

(** X2. A turn of the geo worker sends at most one request to the
    geolocation service, and only for an address that the store does not
    hold, with the database-only mode off and the state green. *)
Theorem request_only_for_unknown_address_when_online `{Parsers, Sqlite} reply now w :
  let w' := world_of (geo_worker reply now w) in
  api_requests (geo w') = api_requests (geo w) \/
  exists ip network_type w1,
    next_item w = Some (ip, network_type, w1) /\
    api_requests (geo w') = ip :: api_requests (geo w) /\
    get_geo_from_db (db (geo w)) ip = None /\
    geo_db_only_mode (geo w) = false /\
    Connectivity.internet_state (conn w) = green.
Proof.
  cbv zeta. unfold geo_worker.
  destruct (next_item w) as [[[ip nt] w1]|] eqn:N; [|left; reflexivity].
  destruct (next_item_same w _ _ N) as (Hc & Hdb & Hm & _ & _ & Hr & _).
  unfold lookup.
  destruct (data_truthy (get_geo_from_db (db (geo w1)) ip)) eqn:D.
  { left. cbn [world_of]. rewrite store_result_requests. exact Hr. }
  destruct (skip_api w1) eqn:S.
  { left. cbn [world_of]. rewrite store_result_requests. exact Hr. }
  right. exists ip, nt, w1. split; trivial.
  apply db_miss in D. rewrite Hdb in D.
  assert (S' : ~ (geo_db_only_mode (geo w1) = true \/
                  Connectivity.internet_state (conn w1) <> green)).
  { intros X. apply skip_api_not_green in X. congruence. }
  rewrite Hc, Hm in S'.
  assert (Hreq : forall o,
             api_requests (geo (world_of o)) =
             api_requests (geo (fetch_geo_api ip reply now w1).2) ->
             api_requests (geo (world_of o)) = ip :: api_requests (geo w)).
  { intros o ->.
    destruct (fetch_geo_api_geo ip reply now w1) as (_ & _ & _ & _ & _ & R & _).
    rewrite R, Hr. reflexivity. }
  split; [|split; [exact D|split]].
  - apply Hreq.
    destruct (fetch_geo_api ip reply now w1) as [data w2]. cbn [snd].
    destruct data as [d|]; [destruct (dict_truthy d);
      [destruct (is_valid_geo_data d) as [e|[|]]|]|];
      cbn [world_of]; rewrite ?store_result_requests; reflexivity.
  - destruct (geo_db_only_mode (geo w)); trivial. exfalso. apply S'. auto.
  - destruct (decide (Connectivity.internet_state (conn w) = green)); trivial.
    exfalso. apply S'. auto.
Qed.


(** X4. A lookup whose request fails is not retried: the address gets the
    status 'unavailable', leaves the pending set and is put on neither
    queue; the failure is counted and the state turns yellow. *)
Theorem failed_request_is_marked_and_dropped `{Parsers, Sqlite} reply now w w1 ip network_type :
  next_item w = Some (ip, network_type, w1) ->
  get_geo_from_db (db (geo w)) ip = None ->
  skip_api w = false ->
  failed_reply reply = true ->
  exists w',
    geo_worker reply now w = Running w' /\
    get_cached_geo w' ip = Some (blank_entry "unavailable") /\
    api_requests (geo w') = ip :: api_requests (geo w) /\
    api_consecutive_failures (geo w') = api_consecutive_failures (geo w) + 1 /\
    Connectivity.internet_state (conn w') = yellow /\
    (ip ∉ pending_lookups (geo w')) /\
    geo_queue (geo w') = geo_queue (geo w1) /\
    offline_queue (geo w') = offline_queue (geo w1) /\
    db (geo w') = db (geo w).
Proof.
  intros N Hmiss Hskip Hfail.
  assert (Hfl : api_consecutive_failures (geo w1) =
                api_consecutive_failures (geo w)).
  { unfold next_item in N.
    destruct (geo_queue (geo w)); [destruct (offline_queue (geo w));
      [discriminate|destruct (_ && _); [|discriminate]]|];
      injection N as _ <-; reflexivity. }
  destruct (next_item_same w _ _ N) as (Hc & Hdb & Hm & _ & _ & Hr & _).
  assert (Hskip1 : skip_api w1 = false).
  { unfold skip_api, offline in *. rewrite Hc, Hm. exact Hskip. }
  unfold geo_worker. rewrite N. unfold lookup.
  rewrite Hdb, Hmiss. cbn [data_truthy]. rewrite Hskip1.
  destruct (fetch_geo_api_cases ip reply now w1)
    as [(_ & F)|[(d & -> & _)|(d & -> & _)]];
    [|cbn in Hfail; discriminate..].
  rewrite F. eexists. split; [reflexivity|].
  unfold get_cached_geo.
  rewrite store_result_cache, store_result_requests, store_result_failures,
    store_result_conn, store_result_pending, store_result_queue,
    store_result_offline, store_result_db.
  destruct (api_failed_facts now
              (with_geo (fun g => set_api_requests (ip :: api_requests g) g) w1))
    as (Y & Fl & _).
  rewrite Y, Fl. cbn.
  rewrite lookup_insert_eq, Hr, Hfl, Hdb.
  repeat split; trivial.
  intros X. apply elem_of_difference in X. destruct X as [_ X].
  apply X, elem_of_singleton. reflexivity.
Qed.

(** X5. A successful reply on which the validator raises ends the worker
    thread with that exception ([AttributeError] or [OverflowError]): the
    address stays in the pending set and gets no session entry. *)
Theorem validator_exception_ends_the_worker `{Parsers, Sqlite} d e now w w1 ip network_type :
  next_item w = Some (ip, network_type, w1) ->
  get_geo_from_db (db (geo w)) ip = None ->
  skip_api w = false ->
  status_is d "success" = true ->
  is_valid_geo_data d = inl e ->
  exists w',
    geo_worker (Replied 200 (Some d)) now w = Died e w' /\
    (e = AttributeError \/ e = OverflowError) /\
    geo_cache (geo w') = geo_cache (geo w) /\
    pending_lookups (geo w') = pending_lookups (geo w) /\
    db (geo w') = db (geo w) /\
    api_requests (geo w') = ip :: api_requests (geo w).
Proof.
  intros N Hmiss Hskip Hs He.
  destruct (next_item_same w _ _ N) as (Hc & Hdb & Hm & Hca & Hp & Hr & _).
  assert (Hskip1 : skip_api w1 = false).
  { unfold skip_api, offline in *. rewrite Hc, Hm. exact Hskip. }
  unfold geo_worker. rewrite N. unfold lookup.
  rewrite Hdb, Hmiss. cbn [data_truthy]. rewrite Hskip1.
  destruct (fetch_geo_api_cases ip (Replied 200 (Some d)) now w1)
    as [(Hf & _)|[(d' & [= <-] & Hs' & _)|(d' & [= <-] & _ & F)]].
  - cbn in Hf. discriminate.
  - congruence.
  - rewrite F, (status_success_truthy d Hs), He.
    eexists. split; [reflexivity|].
    split; [exact (validator_exceptions d e He)|].
    cbn. rewrite Hca, Hp, Hdb, Hr. auto.
Qed.

(** X6. An address that the store holds is answered from the store: the
    session entry is built from the stored row, and the turn sends no
    request, takes no pause and leaves the store and the connectivity
    state as they are. *)
Theorem stored_address_needs_no_request `{Parsers, Sqlite} reply now w w1 ip network_type d :
  next_item w = Some (ip, network_type, w1) ->
  get_geo_from_db (db (geo w)) ip = Some d ->
  exists w',
    geo_worker reply now w = Running w' /\
    get_cached_geo w' ip = Some (ok_entry d true) /\
    api_requests (geo w') = api_requests (geo w) /\
    api_delays (geo w') = api_delays (geo w) /\
    db (geo w') = db (geo w) /\
    conn w' = conn w /\
    ip ∉ pending_lookups (geo w').
Proof.
  intros N Hhit.
  assert (Hd : api_delays (geo w1) = api_delays (geo w)).
  { unfold next_item in N.
    destruct (geo_queue (geo w)); [destruct (offline_queue (geo w));
      [discriminate|destruct (_ && _); [|discriminate]]|];
      injection N as _ <-; reflexivity. }
  destruct (next_item_same w _ _ N) as (Hc & Hdb & _ & _ & _ & Hr & _).
  assert (T : dict_truthy d = true).
  { destruct (data_truthy (get_geo_from_db (db (geo w)) ip)) eqn:D.
    - rewrite Hhit in D. exact D.
    - apply db_miss in D. congruence. }
  unfold geo_worker. rewrite N. unfold lookup.
  rewrite Hdb, Hhit. cbn [data_truthy]. rewrite T.
  eexists. split; [reflexivity|].
  unfold get_cached_geo.
  rewrite store_result_cache, store_result_requests, store_result_delays,
    store_result_db, store_result_conn, store_result_pending, T.
  cbn [negb andb]. rewrite lookup_insert_eq.
  repeat split; trivial.
  intros X. apply elem_of_difference in X. destruct X as [_ X].
  apply X, elem_of_singleton. reflexivity.
Qed.

End WorkerFacts.

(** ** Histories of the engine: what is requested *)

Module HistoryFacts.
Import Py GeoDb Net Engine Spec Notions EngineFacts WorkerFacts.
Import Connectivity (level, green, yellow, red, level_eqb).

Section Requests.
Context `{Parsers, Sqlite}.

(** What a lookup does to the retry list and to the request log. *)
Lemma lookup_queues reply now ip network_type w :
  let w' := world_of (lookup reply now ip network_type w) in
  (offline_queue (geo w') = offline_queue (geo w) \/
   offline_queue (geo w') = offline_queue (geo w) ++ [(ip, network_type)]) /\
  (api_requests (geo w') = api_requests (geo w) \/
   api_requests (geo w') = ip :: api_requests (geo w)).
Proof.
  cbv zeta. unfold lookup.
  destruct (data_truthy (get_geo_from_db (db (geo w)) ip)).
  { cbn [world_of]. rewrite store_result_offline, store_result_requests. auto. }
  destruct (skip_api w).
  { cbn [world_of]. rewrite store_result_offline, store_result_requests.
    cbn. auto. }
  pose proof (fetch_geo_api_geo ip reply now w) as G.
  destruct (fetch_geo_api ip reply now w) as [data w1].
  cbn [snd] in G. destruct G as (_ & _ & _ & _ & Go & Gr & _).
  destruct data as [d|]; [destruct (dict_truthy d);
    [destruct (is_valid_geo_data d) as [e|[|]]|]|];
    cbn [world_of];
    rewrite ?store_result_offline, ?store_result_requests; cbn;
    rewrite ?Go, ?Gr; auto.
Qed.

Lemma next_item_waiting w item w1 :
  next_item w = Some (item, w1) ->
  item ∈ waiting (geo w) /\
  forall x, x ∈ waiting (geo w1) -> x ∈ waiting (geo w).
Proof.
  intros N. unfold waiting.
  destruct (next_item_same w _ _ N)
    as (_ & _ & _ & _ & _ & _ & _ & [(Hq & Ho)|(Hq & Hq1 & Ho & _)]).
  - rewrite Hq, Ho. split; [apply elem_of_app; left; apply elem_of_cons; auto|].
    intros x Hx. apply elem_of_app in Hx. apply elem_of_app.
    destruct Hx; [left; apply elem_of_cons|]; auto.
  - rewrite Hq, Hq1, Ho. cbn.
    split; [apply elem_of_cons; auto|].
    intros x Hx. apply elem_of_cons; auto.
Qed.

Lemma public_not_private nt ip :
  is_public_address nt ip = true -> is_private_ip ip = false.
Proof.
  unfold is_public_address. intros X. apply andb_true_iff in X.
  destruct X as [_ X]. apply negb_true_iff in X. exact X.
Qed.

Lemma exec_only_public (w : world) (o : op) :
  outside_lookup o = false ->
  only_public (geo w) -> only_public (geo (exec w o)).
Proof.
  intros Ho [Hw Hr].
  destruct o as [reply now|peers addresses now|ip nt|s| |dl];
    try discriminate.
  - cbn [exec]. unfold geo_worker.
    destruct (next_item w) as [[[ip nt] w1]|] eqn:N; [|split; assumption].
    destruct (next_item_waiting w _ _ N) as [Hin Hsub].
    destruct (next_item_same w _ _ N) as (_ & _ & _ & _ & _ & Hr1 & _).
    destruct (lookup_flight reply now ip nt w1) as (Lq & _).
    destruct (lookup_queues reply now ip nt w1) as (Lo & Lr).
    pose proof (Hw ip nt Hin) as Hpub.
    split.
    + intros ip' nt' X. unfold waiting in X. rewrite Lq in X.
      destruct Lo as [E|E]; rewrite E in X.
      * apply Hw, Hsub, X.
      * rewrite List.app_assoc in X. apply elem_of_app in X.
        destruct X as [X|X]; [apply Hw, Hsub, X|].
        apply list_elem_of_singleton in X. injection X as -> ->. exact Hpub.
    + intros ip' X. destruct Lr as [E|E]; rewrite E, Hr1 in X.
      * apply Hr, X.
      * apply elem_of_cons in X. destruct X as [->|X]; [|apply Hr, X].
        exact (public_not_private nt ip Hpub).
  - cbn [exec]. apply (refresh_worker_geo_steps only_public); [| | |split; assumption].
    + intros ip nt w0 [A B] _ Hpub. unfold queue_geo_lookup.
      destruct (bool_decide _); [split; assumption|].
      split; [|exact B].
      intros ip' nt' X. unfold waiting in X. cbn in X.
      rewrite <- List.app_assoc in X.
      apply elem_of_app in X. destruct X as [X|X].
      * apply A. apply elem_of_app. auto.
      * apply elem_of_cons in X. destruct X as [X|X].
        -- injection X as -> ->. exact Hpub.
        -- apply A. apply elem_of_app. auto.
    + intros ip w0 HP _. exact HP.
    + intros n g HP. exact HP.
  - split; assumption.
  - cbn [exec]. unfold api_toggle_db_only.
    destruct (negb _); split; assumption.
  - split; assumption.
Qed.


End Requests.

(** X7. No private address is ever sent to the geolocation service: in
    every history of the two workers, the connectivity signals and the
    routes, every address requested is outside the private ranges, and so
    is every address waiting in a queue. *)
Theorem private_addresses_are_never_requested `{Parsers, Sqlite}
        (s : store) (ops : list op) :
  forallb (fun o => negb (outside_lookup o)) ops = true ->
  let w := run_ops (startup s) ops in
  (forall ip, ip ∈ api_requests (geo w) -> is_private_ip ip = false) /\
  (forall ip nt, (ip, nt) ∈ waiting (geo w) ->
                 is_public_address nt ip = true).
Proof.
  intros Hops. cbv zeta.
  assert (Inv : only_public (geo (run_ops (startup s) ops))).
  { induction ops as [|o ops IH] using rev_ind.
    - split; intros ? *; cbn; intros X; inversion X.
    - rewrite forallb_app in Hops. apply andb_true_iff in Hops.
      destruct Hops as [H1 H2]. cbn in H2. rewrite andb_true_r in H2.
      apply negb_true_iff in H2.
      rewrite run_ops_snoc. apply exec_only_public; auto. }
  destruct Inv as [A B]. split; assumption.
Qed.


End HistoryFacts.

(** ** The refresh worker: the tracker *)

Module TrackerFacts.
Import Py GeoDb Net Engine Spec Notions Dashboard EngineFacts RefreshFacts.

Section Snapshots.
Context `{Parsers, Sqlite}.

Lemma dom_insert_peers (peers : list peer) (m : gmap string peer_info) :
  dom (foldl (fun m p => <[peer_id_of p := info_of p]> m) m peers)
  =@{gset string} dom m ∪ list_to_set (peer_id_of <$> peers).
Proof.
  revert m. induction peers as [|p peers IH]; intros m; cbn [foldl].
  - cbn. apply set_eq. intros x. rewrite elem_of_union, elem_of_empty. tauto.
  - rewrite IH, dom_insert_L. cbn [fmap list_fmap list_to_set].
    apply set_eq. intros x. rewrite !elem_of_union. tauto.
Qed.

Lemma dom_delete_ids (gone : list string) (m : gmap string peer_info) :
  dom (foldl (fun m pid => delete pid m) m gone)
  =@{gset string} dom m ∖ list_to_set gone.
Proof.
  revert m. induction gone as [|pid gone IH]; intros m; cbn [foldl].
  - cbn. apply set_eq. intros x. rewrite elem_of_difference, elem_of_empty.
    tauto.
  - rewrite IH, dom_delete_L. cbn [list_to_set].
    apply set_eq. intros x. rewrite !elem_of_difference, elem_of_union.
    tauto.
Qed.

Lemma refresh_worker_keys (peers : list peer) addresses now w :
  dom (peer_ip_map (tracker w)) = previous_ids (tracker w) ->
  dom (peer_ip_map (tracker (refresh_worker peers addresses now w))) =
  previous_ids (tracker (refresh_worker peers addresses now w)).
Proof.
  intros Hdom.
  destruct (refresh_worker_tracker peers addresses now w) as (_ & Hm & Hp).
  rewrite Hm, Hp, dom_delete_ids, dom_insert_peers, Hdom.
  rewrite list_to_set_elements_L.
  apply set_eq. intros x.
  rewrite !elem_of_difference, !elem_of_union.
  destruct (decide (x ∈ (list_to_set (peer_id_of <$> peers) : gset string)));
    tauto.
Qed.

Lemma geo_worker_tracker reply now w :
  tracker (world_of (geo_worker reply now w)) = tracker w.
Proof.
  unfold geo_worker.
  destruct (next_item w) as [[[ip nt] w1]|] eqn:N; [|reflexivity].
  destruct (next_item_same w _ _ N) as (_ & _ & _ & _ & _ & _ & Ht & _).
  rewrite <- Ht. unfold lookup.
  assert (St : forall data from_db w0,
             tracker (store_result ip data from_db w0) = tracker w0).
  { intros. unfold store_result.
    match goal with |- context [if ?c then _ else _] => destruct c end;
      reflexivity. }
  destruct (data_truthy _); [cbn [world_of]; apply St|].
  destruct (skip_api w1); [cbn [world_of]; rewrite St; reflexivity|].
  pose proof (fetch_geo_api_geo ip reply now w1) as G.
  destruct (fetch_geo_api ip reply now w1) as [data w2].
  cbn [snd] in G. destruct G as (_ & _ & _ & _ & _ & _ & Gt).
  destruct data as [d|]; [destruct (dict_truthy d);
    [destruct (is_valid_geo_data d) as [e|[|]]|]|];
    cbn [world_of]; rewrite ?St; exact Gt.
Qed.

Lemma exec_tracker (w : world) (o : op) :
  (exists peers addresses now,
      o = RefreshTurn peers addresses now) \/
  tracker (exec w o) = tracker w.
Proof.
  destruct o as [reply now|peers addresses now|ip nt|s| |dl]; cbn [exec].
  - right. apply geo_worker_tracker.
  - left. eauto.
  - right. unfold queue_geo_lookup. destruct (bool_decide _); reflexivity.
  - right. reflexivity.
  - right. unfold api_toggle_db_only. destruct (negb _); reflexivity.
  - right. reflexivity.
Qed.

Lemma track_peer_addrman now acc (p : peer) :
  addrman_refresh_counter (tracker (track_peer now acc p).2) =
  addrman_refresh_counter (tracker acc.2) /\
  addrman_cache (tracker (track_peer now acc p).2) =
  addrman_cache (tracker acc.2).
Proof.
  destruct acc as [ids w]. unfold track_peer. cbv beta iota zeta.
  cbn [snd]. rewrite geo_step_tracker.
  match goal with
  | |- context [if ?c then _ else _] => destruct c
  end; split; reflexivity.
Qed.

Lemma track_peers_addrman now (peers : list peer) acc :
  addrman_refresh_counter (tracker (foldl (track_peer now) acc peers).2) =
  addrman_refresh_counter (tracker acc.2) /\
  addrman_cache (tracker (foldl (track_peer now) acc peers).2) =
  addrman_cache (tracker acc.2).
Proof.
  revert acc. induction peers as [|p peers IH]; intros acc; cbn [foldl];
    [auto|].
  destruct (IH (track_peer now acc p)) as [-> ->].
  apply track_peer_addrman.
Qed.

Lemma drop_peers_addrman now (gone : list string) w :
  addrman_refresh_counter (tracker (foldl (drop_peer now) w gone)) =
  addrman_refresh_counter (tracker w) /\
  addrman_cache (tracker (foldl (drop_peer now) w gone)) =
  addrman_cache (tracker w).
Proof.
  revert w. induction gone as [|pid gone IH]; intros w; cbn [foldl];
    [auto|].
  destruct (IH (drop_peer now w pid)) as [-> ->]. auto.
Qed.

(** The addrman variables after a turn of the refresh worker. *)
Lemma refresh_worker_addrman (peers : list peer) addresses now w :
  let c := addrman_refresh_counter (tracker w) in
  let w' := refresh_worker peers addresses now w in
  addrman_refresh_counter (tracker w') = (if 6 <=? c + 1 then 0 else c + 1) /\
  addrman_cache (tracker w') =
  if 6 <=? c + 1
  then addrman_cache (refresh_addrman_cache addresses (tracker w))
  else addrman_cache (tracker w).
Proof.
  cbv zeta. unfold refresh_worker.
  set (w1 := with_tracker _ w).
  set (w2 := if 6 <=? addrman_refresh_counter (tracker w1) then _ else w1).
  pose proof (track_peers_addrman now peers (∅, w2)) as T.
  destruct (foldl (track_peer now) (∅, w2) peers) as [ids w3].
  cbn [snd] in T.
  cbn [broadcast_update with_tracker with_geo tracker
       addrman_refresh_counter addrman_cache set_recent_changes].
  destruct (drop_peers_addrman now
              (elements (previous_ids (tracker w3) ∖ ids)) w3) as [D1 D2].
  rewrite D1, D2. destruct T as [-> ->].
  subst w2 w1. cbn [with_tracker tracker addrman_refresh_counter].
  destruct (6 <=? addrman_refresh_counter (tracker w) + 1); cbn.
  - split; [reflexivity|]. destruct addresses; reflexivity.
  - split; reflexivity.
Qed.

Lemma refresh_turns_snoc (ops : list op) (o : op) :
  refresh_turns (ops ++ [o]) =
  (refresh_turns ops + match o with RefreshTurn _ _ _ => 1 | _ => 0 end)%nat.
Proof.
  induction ops as [|a ops IH]; cbn [app refresh_turns].
  - destruct o; reflexivity.
  - destruct a; rewrite IH; reflexivity.
Qed.

Lemma addrman_counter_of_history (s : store) (ops : list op) :
  addrman_refresh_counter (tracker (run_ops (startup s) ops)) =
  Z.of_nat (refresh_turns ops) mod 6.
Proof.
  induction ops as [|o ops IH] using rev_ind; [reflexivity|].
  rewrite run_ops_snoc, refresh_turns_snoc.
  destruct (exec_tracker (run_ops (startup s) ops) o)
    as [(peers & addresses & now & ->)|E].
  - cbn [exec].
    destruct (refresh_worker_addrman peers addresses now
                (run_ops (startup s) ops)) as [-> _].
    rewrite IH.
    pose proof (Z.mod_pos_bound (Z.of_nat (refresh_turns ops)) 6 ltac:(lia)) as B.
    replace (Z.of_nat (refresh_turns ops + 1))
      with (Z.of_nat (refresh_turns ops) + 1) by lia.
    rewrite <- (Zplus_mod_idemp_l (Z.of_nat (refresh_turns ops)) 1 6).
    destruct (6 <=? Z.of_nat (refresh_turns ops) mod 6 + 1) eqn:E.
    + apply Z.leb_le in E.
      replace (Z.of_nat (refresh_turns ops) mod 6 + 1) with 6 by lia.
      reflexivity.
    + apply Z.leb_gt in E.
      rewrite (Z.mod_small (Z.of_nat (refresh_turns ops) mod 6 + 1)) by lia.
      reflexivity.
  - rewrite E, IH. f_equal. f_equal.
    destruct o; try lia.
    exfalso.
    (* a refresh turn is the other case *)
    revert E. cbn [exec]. intros E.
    pose proof (refresh_worker_addrman peers addresses now
                  (run_ops (startup s) ops)) as [C _].
    rewrite E, IH in C.
    pose proof (Z.mod_pos_bound (Z.of_nat (refresh_turns ops)) 6 ltac:(lia)) as B.
    destruct (6 <=? Z.of_nat (refresh_turns ops) mod 6 + 1) eqn:E6.
    + apply Z.leb_le in E6. lia.
    + lia.
Qed.

End Snapshots.

(** X9. The address map of the tracker holds exactly the peers of the
    latest snapshot: in every history its keys are the ids remembered as
    [previous_ids], so entries of peers that left do not pile up. *)
Theorem peer_ip_map_holds_the_latest_snapshot `{Parsers, Sqlite}
        (s : store) (ops : list op) :
  let w := run_ops (startup s) ops in
  dom (peer_ip_map (tracker w)) = previous_ids (tracker w).
Proof.
  cbv zeta. induction ops as [|o ops IH] using rev_ind.
  - cbn. apply dom_empty_L.
  - rewrite run_ops_snoc.
    destruct (exec_tracker (run_ops (startup s) ops) o)
      as [(peers & addresses & now & ->)|E].
    + cbn [exec]. apply refresh_worker_keys, IH.
    + rewrite E. exact IH.
Qed.

(** X10. The address-manager cache is refreshed on every sixth turn of the
    refresh worker and on no other turn; a refresh that fails keeps the
    cache, and after one that succeeds [is_in_addrman] holds exactly for
    the non-empty addresses of the reply. *)
Theorem addrman_cache_is_refreshed_every_sixth_turn `{Parsers, Sqlite}
        (s : store) (ops : list op) (peers : list peer)
        (addresses : option (list string)) (now : Q) :
  let w := run_ops (startup s) ops in
  let w' := refresh_worker peers addresses now w in
  let turn := Z.of_nat (S (refresh_turns ops)) in
  addrman_refresh_counter (tracker w') = turn mod 6 /\
  (turn mod 6 <> 0 -> addrman_cache (tracker w') = addrman_cache (tracker w)) /\
  (addresses = None -> addrman_cache (tracker w') = addrman_cache (tracker w)) /\
  (forall l, turn mod 6 = 0 -> addresses = Some l ->
             forall ip, is_in_addrman w' ip = true <->
                        ip ∈ l /\ ip <> EmptyString).
Proof.
  cbv zeta.
  pose proof (addrman_counter_of_history s (ops ++ [RefreshTurn peers addresses now])) as C.
  rewrite run_ops_snoc, refresh_turns_snoc in C. cbn [exec] in C.
  replace (refresh_turns ops + 1)%nat with (S (refresh_turns ops)) in C by lia.
  split; [exact C|].
  destruct (refresh_worker_addrman peers addresses now
              (run_ops (startup s) ops)) as [Hc Ha].
  rewrite C in Hc.
  set (c := addrman_refresh_counter (tracker (run_ops (startup s) ops))) in *.
  assert (Hc0 : 0 <= c < 6).
  { subst c. rewrite addrman_counter_of_history.
    apply Z.mod_pos_bound. lia. }
  destruct (6 <=? c + 1) eqn:E.
  - split; [intros X; congruence|]. split.
    + intros ->. rewrite Ha. reflexivity.
    + intros l _ -> ip. unfold is_in_addrman. rewrite Ha.
      cbn [refresh_addrman_cache addrman_cache].
      rewrite bool_decide_eq_true, elem_of_list_to_set, list_elem_of_filter.
      tauto.
  - apply Z.leb_gt in E. split; [intros _; exact Ha|].
    split; [intros _; exact Ha|].
    intros l X. rewrite Hc in X. lia.
Qed.

End TrackerFacts.

(** ** The persistent store: further proofs *)

Module StoreFacts.
Import Py GeoDb Engine Spec Notions GeoDbFacts.

(** X11. Saving the record of one address changes what the store holds for
    no other address, and adds at most one row. *)
Theorem save_leaves_other_addresses `{Sqlite} (ip other : string)
        (data : dict) (now : Q) (st : store) :
  other <> ip ->
  let st' := save_geo_to_db ip data now st in
  get_geo_from_db st' other = get_geo_from_db st other /\
  (row_count st <= row_count st' <= S (row_count st))%nat.
Proof.
  intros Hne. cbv zeta. unfold save_geo_to_db, get_geo_from_db, row_count.
  destruct st as [enabled file]. cbn [geo_db_enabled GEO_DB_FILE].
  destruct enabled; cbn [negb geo_db_enabled GEO_DB_FILE]; [|split; [trivial|lia]].
  destruct file as [[|rows unkeyed|listed]|];
    cbn [negb geo_db_enabled GEO_DB_FILE];
    try (split; [trivial|lia]).
  destruct (insert_row data now) as [r|];
    cbn [negb geo_db_enabled GEO_DB_FILE]; [|split; [trivial|lia]].
  rewrite lookup_insert_ne by congruence. split; [reflexivity|].
  destruct (rows !! ip) eqn:E.
  - rewrite map_size_insert_Some by eauto. lia.
  - rewrite map_size_insert_None by trivial. lia.
Qed.

(** X12. The reply of the bulk update tells the truth about the store: the
    counts it names are the row counts before and after, 'up to date'
    means that nothing was written, and every other reply than the three
    successes leaves the store as it was. *)
Theorem update_reply_counts (dl : download) (st : store) :
  let st' := (api_geodb_update dl st).1 in
  match (api_geodb_update dl st).2 with
  | NewEntries new_count total =>
      (0 < new_count)%nat /\ total = row_count st' /\
      total = (row_count st + new_count)%nat
  | UpToDate total => total = row_count st /\ st' = st
  | DownloadedDatabase remote_count =>
      GEO_DB_FILE st = None /\ (0 < remote_count)%nat /\
      remote_count = row_count st'
  | Disabled | DownloadFailed _ | NotAGeoDatabase | RemoteEmpty
  | UpdateError => st' = st
  end.
Proof.
  cbv zeta. unfold api_geodb_update, row_count.
  destruct st as [enabled file]. cbn [geo_db_enabled GEO_DB_FILE].
  destruct enabled; cbn [negb fst snd]; trivial.
  destruct dl as [|code body]; cbn [fst snd]; trivial.
  destruct (code =? 200); cbn [negb fst snd]; trivial.
  assert (Hcount : forall remote ru,
             length (all_rows (Table remote ru))
             = (size remote + length ru)%nat).
  { intros remote ru. unfold all_rows.
    rewrite length_app, !length_map, length_map_to_list. reflexivity. }
  destruct body as [|remote ru|listed0]; cbn [fst snd]; trivial;
    (destruct (length _ =? 0)%nat eqn:E0; cbn [fst snd]; trivial);
    apply Nat.eqb_neq in E0;
    (destruct file as [[|rows unkeyed|listed]|];
     cbn [fst snd GEO_DB_FILE]; trivial);
    rewrite ?merge_rows_split; cbn [fst snd];
    try (split; [reflexivity|split; [lia|]]; rewrite ?Hcount; reflexivity);
    try (rewrite length_app;
         match goal with
         | |- context [(0 <? ?n)%nat] =>
             destruct (0 <? n)%nat eqn:En; cbn [fst snd GEO_DB_FILE];
             [apply Nat.ltb_lt in En; lia|apply Nat.ltb_ge in En; lia]
         end).
  all: match goal with
       | |- context [size (?r ∪ ?m)] =>
           pose proof (map_subseteq_size _ _ (map_union_subseteq_l r m)) as L
       end;
    rewrite length_app;
    match goal with
    | |- context [(0 <? ?n)%nat] =>
        destruct (0 <? n)%nat eqn:En; cbn [fst snd GEO_DB_FILE];
        [apply Nat.ltb_lt in En; lia|apply Nat.ltb_ge in En]
    end;
    (split; [lia|]);
    match goal with
    | |- context [Table _ (_ ++ ?l)] =>
        assert (Hl : l = []) by (apply length_zero_iff_nil; lia);
        rewrite Hl, app_nil_r
    end;
    do 3 f_equal; symmetry;
    (apply map_subseteq_size_eq; [apply map_union_subseteq_l|lia]).
Qed.

(** The session entry built from a stored row and the one built from the
    reply of the service, field by field. *)
Lemma entry_of_stored_row (ip : string) (r : GeoRecord) (now : Q) (k : string) :
  ok_entry (dict_of_row ip (stored_value r now)) true !! k =
  ok_entry (payload_of r) false !! k
  \/ k ∈ ["mobile"; "proxy"; "hosting"] /\
     exists b : bool,
       ok_entry (dict_of_row ip (stored_value r now)) true !! k =
       Some (PInt (if b then 1 else 0)) /\
       ok_entry (payload_of r) false !! k = Some (PBool b).
Proof.
  unfold ok_entry. cbn [list_to_map foldr fst snd].
  repeat match goal with
  | |- context [<[?key := _]> _ !! k] =>
      destruct (decide (key = k)) as [<-|?];
      [rewrite !lookup_insert_eq;
       first [left; f_equal; vm_compute; reflexivity
             |right; split;
              [repeat first [apply list_elem_of_here|apply list_elem_of_further]
              |eexists; split; f_equal; vm_compute; reflexivity]]
      |rewrite !lookup_insert_ne by assumption]
  end.
  left. reflexivity.
Qed.

(** X13. A record saved to the store is shown from the store as it was
    shown from the reply of the service: the session entry built from the
    stored row has every field of the entry built from the reply, except
    that the three flags come back as the integers 1 and 0. *)
Theorem stored_record_is_shown_like_the_reply `{Sqlite} (ip : string)
        (r : GeoRecord) (now : Q) (rows : gmap string row)
        (unkeyed : list row) :
  keeps_typed_values ->
  int64 (g_offset r) -> int64 (py_int_of_time now) ->
  exists d,
    get_geo_from_db
      (save_geo_to_db ip (payload_of r) now
                      (mkStore true (Some (Table rows unkeyed))))
      ip = Some d /\
    forall k,
      ok_entry d true !! k = ok_entry (payload_of r) false !! k
      \/ k ∈ ["mobile"; "proxy"; "hosting"] /\
         exists b : bool,
           ok_entry d true !! k = Some (PInt (if b then 1 else 0)) /\
           ok_entry (payload_of r) false !! k = Some (PBool b).
Proof.
  intros Hk Ho Hn.
  destruct (insert_row_typed_record r now Hk Ho Hn) as (row0 & Hins & Hrow).
  exists (dict_of_row ip row0).
  unfold save_geo_to_db, get_geo_from_db.
  cbn [geo_db_enabled GEO_DB_FILE negb]. rewrite Hins.
  cbn [geo_db_enabled GEO_DB_FILE negb]. rewrite lookup_insert_eq.
  split; [reflexivity|].
  assert (E : dict_of_row ip row0 = dict_of_row ip (stored_value r now)).
  { unfold dict_of_row. cbn [map columns]. rewrite !Hrow. reflexivity. }
  rewrite E. apply entry_of_stored_row.
Qed.

End StoreFacts.

(** ** Addresses of peers *)

Module AddressFacts.
Import Py Net.

Lemma prefix_one (c a : ascii) (rest : string) :
  String.prefix (String c EmptyString) (String a rest) = Ascii.eqb a c.
Proof.
  cbn. destruct (ascii_dec c a) as [->|N].
  - rewrite Ascii.eqb_refl. destruct rest; reflexivity.
  - symmetry. apply Ascii.eqb_neq. congruence.
Qed.

Lemma append_nil (t : string) : EmptyString +:+ t = t.
Proof. reflexivity. Qed.

Lemma append_cons (a : ascii) (s t : string) :
  String a s +:+ t = String a (s +:+ t).
Proof. reflexivity. Qed.

Lemma count_char_app (c : ascii) (a b : string) :
  count_char c (a +:+ b) = (count_char c a + count_char c b)%nat.
Proof.
  induction a as [|x a IH]; rewrite ?append_cons, ?append_nil; cbn [count_char]; [reflexivity|].
  rewrite IH. lia.
Qed.

Lemma count_char_head (c a : ascii) (rest : string) :
  count_char c (String a rest) = 0%nat ->
  Ascii.eqb a c = false /\ count_char c rest = 0%nat.
Proof.
  cbn [count_char]. destruct (Ascii.eqb a c); [discriminate|]. auto.
Qed.

Lemma contains_one (c : ascii) (h p : string) :
  contains (String c EmptyString) (h +:+ String c p) = true.
Proof.
  induction h as [|x h IH]; rewrite ?append_cons, ?append_nil; cbn [contains].
  - rewrite prefix_one, Ascii.eqb_refl. reflexivity.
  - rewrite IH. apply orb_true_r.
Qed.

Lemma rsplit1_none (c : ascii) (s : string) :
  count_char c s = 0%nat -> rsplit1 c s = None.
Proof.
  induction s as [|a s IH]; [reflexivity|].
  intros Hc. apply count_char_head in Hc. destruct Hc as [Ha Hs].
  cbn [rsplit1]. rewrite (IH Hs), Ha. reflexivity.
Qed.

Lemma rsplit1_last (c : ascii) (h p : string) :
  count_char c p = 0%nat ->
  rsplit1 c (h +:+ String c p) = Some (h, p).
Proof.
  intros Hp. induction h as [|x h IH]; rewrite ?append_cons, ?append_nil; cbn [rsplit1].
  - rewrite (rsplit1_none c p Hp), Ascii.eqb_refl. reflexivity.
  - rewrite IH. reflexivity.
Qed.

Lemma split_head_one (c : ascii) (h rest : string) :
  count_char c h = 0%nat ->
  split_head (String c EmptyString) (h +:+ String c rest) = h.
Proof.
  induction h as [|x h IH]; intros Hc.
  - rewrite ?append_cons, ?append_nil; cbn [split_head]. rewrite prefix_one, Ascii.eqb_refl.
    reflexivity.
  - apply count_char_head in Hc. destruct Hc as [Ha Hs].
    rewrite ?append_cons, ?append_nil; cbn [split_head]. rewrite prefix_one, Ha, (IH Hs).
    reflexivity.
Qed.

(** X14. An address of the form host:port, where neither part holds a
    colon and the host does not open with a bracket, is split into that
    host and that port. *)
Theorem host_and_port_are_split_at_the_colon (host port : string) :
  count_char colon host = 0%nat ->
  count_char colon port = 0%nat ->
  startswith host "[" = false ->
  extract_ip (host +:+ ":" +:+ port) = host /\
  extract_port (host +:+ ":" +:+ port) = port.
Proof.
  intros Hh Hp Hb.
  assert (Hs : startswith (host +:+ ":" +:+ port) "[" = false).
  { destruct host as [|a host]; [reflexivity|].
    unfold startswith in *. rewrite append_cons.
    rewrite prefix_one in *. exact Hb. }
  assert (Hc : contains ":" (host +:+ ":" +:+ port) = true)
    by apply (contains_one colon).
  assert (Hn : count_char colon (host +:+ ":" +:+ port) = 1%nat).
  { rewrite count_char_app. rewrite ?append_cons, ?append_nil; cbn [count_char].
    unfold colon in *. rewrite Ascii.eqb_refl, Hh, Hp. reflexivity. }
  unfold extract_ip, extract_port.
  rewrite Hs, Hc, Hn. cbn [andb Nat.leb].
  change (":" +:+ port) with (String colon port).
  rewrite rsplit1_last by exact Hp. auto.
Qed.

Lemma prefix_mismatch (c a : ascii) (sep rest : string) :
  Ascii.eqb a c = false ->
  String.prefix (String c sep) (String a rest) = false.
Proof.
  intros Ha. cbn. destruct (ascii_dec c a) as [->|N]; [|reflexivity].
  rewrite Ascii.eqb_refl in Ha. discriminate.
Qed.

Lemma prefix_self (sep rest : string) :
  String.prefix sep (sep +:+ rest) = true.
Proof.
  induction sep as [|c sep IH]; [destruct rest; reflexivity|].
  rewrite append_cons. cbn. destruct (ascii_dec c c); [exact IH|congruence].
Qed.

Lemma string_drop_app (sep rest : string) :
  string_drop (String.length sep) (sep +:+ rest) = rest.
Proof.
  induction sep as [|c sep IH]; [destruct rest; reflexivity|].
  rewrite append_cons. cbn [String.length string_drop]. exact IH.
Qed.

(** A separator that opens with [c], found after a text without [c]. *)
Lemma split_rest_first (c : ascii) (sep x rest : string) :
  count_char c x = 0%nat ->
  split_rest (String c sep) (x +:+ String c sep +:+ rest) = Some rest.
Proof.
  induction x as [|a x IH]; intros Hc.
  - rewrite append_nil.
    change (split_rest (String c sep) (String c sep +:+ rest))
      with (if String.prefix (String c sep) (String c sep +:+ rest)
            then Some (string_drop (String.length (String c sep))
                                   (String c sep +:+ rest))
            else split_rest (String c sep) (sep +:+ rest)).
    rewrite prefix_self, string_drop_app. reflexivity.
  - apply count_char_head in Hc. destruct Hc as [Ha Hs].
    rewrite append_cons. cbn [split_rest].
    rewrite (prefix_mismatch c a sep _ Ha). apply IH, Hs.
Qed.

Lemma split_head_absent (c : ascii) (sep x : string) :
  count_char c x = 0%nat -> split_head (String c sep) x = x.
Proof.
  induction x as [|a x IH]; intros Hc; [reflexivity|].
  apply count_char_head in Hc. destruct Hc as [Ha Hs].
  cbn [split_head]. rewrite (prefix_mismatch c a sep _ Ha), (IH Hs).
  reflexivity.
Qed.

Lemma contains_after (sep x rest : string) :
  contains sep (x +:+ sep +:+ rest) = true.
Proof.
  induction x as [|a x IH].
  - rewrite append_nil. destruct sep as [|c sep].
    + destruct rest; reflexivity.
    + rewrite append_cons. cbn [contains]. rewrite <- append_cons.
      rewrite prefix_self. reflexivity.
  - rewrite append_cons. cbn [contains]. rewrite IH. apply orb_true_r.
Qed.

(** X15. A bracketed address [[host]:port], where neither part holds a
    closing bracket, is split into that host and that port. *)
Theorem bracketed_host_and_port_are_split (host port : string) :
  count_char "]" host = 0%nat ->
  count_char "]" port = 0%nat ->
  extract_ip ("[" +:+ host +:+ "]:" +:+ port) = host /\
  extract_port ("[" +:+ host +:+ "]:" +:+ port) = port.
Proof.
  intros Hh Hp.
  assert (Hx : count_char "]" ("[" +:+ host) = 0%nat).
  { rewrite count_char_app, Hh. reflexivity. }
  assert (Ea : "[" +:+ host +:+ "]:" +:+ port
               = ("[" +:+ host) +:+ "]:" +:+ port) by reflexivity.
  assert (Hs : startswith ("[" +:+ host +:+ "]:" +:+ port) "[" = true).
  { unfold startswith.
    change ("[" +:+ host +:+ "]:" +:+ port)
      with (String "[" (host +:+ "]:" +:+ port)).
    rewrite prefix_one. reflexivity. }
  unfold extract_ip, extract_port. rewrite Hs.
  cbn [andb]. rewrite Ea. split.
  - change ("]:" +:+ port) with (String "]" (":" +:+ port)).
    rewrite (split_head_one "]" ("[" +:+ host) _ Hx). reflexivity.
  - rewrite contains_after. unfold split_second.
    rewrite (split_rest_first "]" ":" ("[" +:+ host) port Hx).
    apply split_head_absent, Hp.
Qed.

End AddressFacts.

(** ** Versions *)

Module UpdateFacts.
Import Py Update.

(** The loop answers [True] exactly at the first index where the two
    versions differ, when the remote one is larger there. *)
Lemma compare_loop_seq (lp rp : list Z) (n s : nat) :
  compare_loop lp rp (seq s n) = true <->
  exists i : nat,
    (s <= i < s + n)%nat /\
    (forall j : nat, (s <= j < i)%nat -> item_or_zero lp j = item_or_zero rp j) /\
    item_or_zero lp i < item_or_zero rp i.
Proof.
  revert s. induction n as [|n IH]; intros s; cbn [seq compare_loop].
  - split; [discriminate|]. intros (i & Hi & _). lia.
  - destruct (item_or_zero lp s <? item_or_zero rp s) eqn:E1.
    + apply Z.ltb_lt in E1. split; [intros _|trivial].
      exists s. split; [lia|]. split; [intros j Hj; lia|exact E1].
    + apply Z.ltb_ge in E1.
      destruct (item_or_zero rp s <? item_or_zero lp s) eqn:E2.
      * apply Z.ltb_lt in E2. split; [discriminate|].
        intros (i & Hi & Heq & Hlt).
        destruct (decide (i = s)) as [->|N]; [lia|].
        assert (X : item_or_zero lp s = item_or_zero rp s) by (apply Heq; lia).
        lia.
      * apply Z.ltb_ge in E2. rewrite IH. split.
        -- intros (i & Hi & Heq & Hlt). exists i. split; [lia|].
           split; [|exact Hlt]. intros j Hj.
           destruct (decide (j = s)) as [->|N]; [lia|]. apply Heq. lia.
        -- intros (i & Hi & Heq & Hlt).
           destruct (decide (i = s)) as [->|N]; [lia|].
           exists i. split; [lia|]. split; [|exact Hlt].
           intros j Hj. apply Heq. lia.
Qed.

Lemma item_or_zero_past (l : list Z) (i : nat) :
  (length l <= i)%nat -> item_or_zero l i = 0.
Proof.
  intros Hi. unfold item_or_zero. rewrite lookup_ge_None_2 by exact Hi.
  reflexivity.
Qed.

(** The answer of the loop over all indices, whatever the lengths. *)
Lemma compare_loop_newer (lp rp : list Z) :
  compare_loop lp rp (seq 0 (Nat.max (length lp) (length rp))) = true <->
  exists i : nat,
    (forall j : nat, (j < i)%nat -> item_or_zero lp j = item_or_zero rp j) /\
    item_or_zero lp i < item_or_zero rp i.
Proof.
  rewrite compare_loop_seq. split.
  - intros (i & _ & Heq & Hlt). exists i. split; [|exact Hlt].
    intros j Hj. apply Heq. lia.
  - intros (i & Heq & Hlt). exists i. split; [|split; [|exact Hlt]].
    + destruct (decide (i < Nat.max (length lp) (length rp))%nat); [lia|].
      rewrite !item_or_zero_past in Hlt by lia. lia.
    + intros j Hj. apply Heq. lia.
Qed.

Lemma newer_irreflexive (lp : list Z) :
  compare_loop lp lp (seq 0 (Nat.max (length lp) (length lp))) = false.
Proof.
  destruct (compare_loop lp lp _) eqn:E; [|reflexivity].
  apply compare_loop_newer in E. destruct E as (i & _ & Hlt). lia.
Qed.

Lemma newer_transitive (a b c : list Z) :
  compare_loop a b (seq 0 (Nat.max (length a) (length b))) = true ->
  compare_loop b c (seq 0 (Nat.max (length b) (length c))) = true ->
  compare_loop a c (seq 0 (Nat.max (length a) (length c))) = true.
Proof.
  rewrite !compare_loop_newer.
  intros (i & Hi & Li) (k & Hk & Lk).
  destruct (lt_eq_lt_dec i k) as [[L|E]|L].
  - exists i. split.
    + intros j Hj. rewrite Hi by lia. apply Hk. lia.
    + rewrite <- Hk by lia. exact Li.
  - subst k. exists i. split.
    + intros j Hj. rewrite Hi by lia. apply Hk. lia.
    + lia.
  - exists k. split.
    + intros j Hj. rewrite Hi by lia. apply Hk. lia.
    + rewrite Hi by lia. exact Lk.
Qed.

(** X16. "Newer than" as [_compare_versions] decides it is a strict order
    on version strings: no version is newer than itself, two versions are
    never newer than each other, and newer than newer is newer.  A version
    that does not parse is neither newer nor older than any other. *)
Theorem version_order_is_strict `{Parsers} (a b c : string) :
  _compare_versions a a = false /\
  (_compare_versions a b = true -> _compare_versions b a = false) /\
  (_compare_versions a b = true -> _compare_versions b c = true ->
   _compare_versions a c = true) /\
  (parse_ints (split_on "." a) = None ->
   _compare_versions a b = false /\ _compare_versions b a = false).
Proof.
  unfold _compare_versions.
  destruct (parse_ints (split_on "." a)) as [la|];
    destruct (parse_ints (split_on "." b)) as [lb|];
    destruct (parse_ints (split_on "." c)) as [lc|];
    repeat split; try discriminate; trivial;
    try apply newer_irreflexive.
  all: try (intros Hab;
            destruct (compare_loop lb la _) eqn:Hba; [|reflexivity];
            pose proof (newer_transitive la lb la Hab Hba) as X;
            rewrite newer_irreflexive in X; discriminate).
  all: try (intros Hab Hbc; exact (newer_transitive la lb lc Hab Hbc)).
Qed.

End UpdateFacts.

(** ** The dashboard *)

Module DashboardFacts.
Import Py GeoDb Engine Notions Dashboard.

Lemma mod_3600 (e : Z) : (e mod 86400) mod 3600 = e mod 3600.
Proof.
  apply Z.mod_mod_divide. exists 24. reflexivity.
Qed.

Lemma mod_60 (e : Z) : (e mod 3600) mod 60 = e mod 60.
Proof.
  apply Z.mod_mod_divide. exists 60. reflexivity.
Qed.

Lemma mod_60_day (e : Z) : (e mod 86400) mod 60 = e mod 60.
Proof.
  apply Z.mod_mod_divide. exists 1440. reflexivity.
Qed.

Local Ltac parts_ok :=
  split; [reflexivity|];
  unfold shown_seconds, last_unit; cbn [unit_seconds fst snd];
  split; [lia|]; split; [first [split; lia|exact I]|left; lia].

Lemma elapsed_fmt_shown (e : Z) :
  0 <= e ->
  exists first second,
    elapsed_fmt e = shown first second /\
    shown_seconds first second <= e
    < shown_seconds first second + unit_seconds (last_unit first second) /\
    match second with
    | Some p => 0 < p.1 /\ unit_seconds p.2 < unit_seconds first.2
    | None => True
    end /\
    (0 < first.1 \/ e = 0 /\ first = (0, Seconds)).
Proof.
  intros He. unfold elapsed_fmt. cbv zeta.
  set (days := e / 86400). set (hours := (e mod 86400) / 3600).
  set (minutes := (e mod 3600) / 60). set (seconds := e mod 60).
  assert (Hd : 0 <= days /\ 0 <= hours < 24 /\ 0 <= minutes < 60
               /\ 0 <= seconds < 60 /\
               e = 86400 * days + 3600 * hours + 60 * minutes + seconds).
  { subst days hours minutes seconds.
    pose proof (Z.div_mod e 86400 ltac:(lia)) as E1.
    pose proof (Z.div_mod (e mod 86400) 3600 ltac:(lia)) as E2.
    pose proof (Z.div_mod (e mod 3600) 60 ltac:(lia)) as E3.
    rewrite mod_3600 in E2. rewrite mod_60 in E3.
    pose proof (Z.mod_pos_bound e 86400 ltac:(lia)) as B1.
    pose proof (Z.mod_pos_bound e 3600 ltac:(lia)) as B2.
    pose proof (Z.mod_pos_bound e 60 ltac:(lia)) as B3.
    assert (0 <= e / 86400) by (apply Z.div_pos; lia).
    assert (0 <= (e mod 86400) / 3600 < 24).
    { split; [apply Z.div_pos; lia|apply Z.div_lt_upper_bound; lia]. }
    assert (0 <= (e mod 3600) / 60 < 60).
    { split; [apply Z.div_pos; lia|apply Z.div_lt_upper_bound; lia]. }
    lia. }
  clearbody days hours minutes seconds.
  destruct Hd as (D & Hh & Hm & Hs & E).
  destruct (0 <? days) eqn:Cd; [apply Z.ltb_lt in Cd|apply Z.ltb_ge in Cd].
  - destruct (0 <? hours) eqn:Ch; [apply Z.ltb_lt in Ch|apply Z.ltb_ge in Ch].
    { exists (days, Days), (Some (hours, Hours)).
      parts_ok. }
    destruct (0 <? minutes) eqn:Cm;
      [apply Z.ltb_lt in Cm|apply Z.ltb_ge in Cm].
    { exists (days, Days), (Some (minutes, Minutes)).
      parts_ok. }
    destruct (0 <? seconds) eqn:Cs;
      [apply Z.ltb_lt in Cs|apply Z.ltb_ge in Cs].
    { exists (days, Days), (Some (seconds, Seconds)).
      parts_ok. }
    exists (days, Days), None. parts_ok.
  - destruct (0 <? hours) eqn:Ch; [apply Z.ltb_lt in Ch|apply Z.ltb_ge in Ch].
    { destruct (0 <? minutes) eqn:Cm;
        [apply Z.ltb_lt in Cm|apply Z.ltb_ge in Cm].
      { exists (hours, Hours), (Some (minutes, Minutes)).
        parts_ok. }
      destruct (0 <? seconds) eqn:Cs;
        [apply Z.ltb_lt in Cs|apply Z.ltb_ge in Cs].
      { exists (hours, Hours), (Some (seconds, Seconds)).
        parts_ok. }
      exists (hours, Hours), None. parts_ok. }
    destruct (0 <? minutes) eqn:Cm;
      [apply Z.ltb_lt in Cm|apply Z.ltb_ge in Cm].
    { destruct (0 <? seconds) eqn:Cs;
        [apply Z.ltb_lt in Cs|apply Z.ltb_ge in Cs].
      { exists (minutes, Minutes), (Some (seconds, Seconds)).
        parts_ok. }
      exists (minutes, Minutes), None. parts_ok. }
    exists (seconds, Seconds), None. split; [reflexivity|].
    unfold shown_seconds, last_unit; cbn [unit_seconds fst snd].
    split; [lia|]. split; [trivial|].
    destruct (decide (seconds = 0)) as [->|N]; [right|left; lia].
    split; [lia|reflexivity].
Qed.

(** X17. The connection time shown for a peer never overstates the time
    elapsed and falls short of it by less than one of the last unit
    shown; it names one unit or two, the larger first, and no part is
    zero unless the whole display is "0s". *)
Theorem connection_time_shown_is_accurate (now : Q) (conntime : Z) :
  conntime <> 0 ->
  0 <= py_int_of_time now - conntime ->
  let elapsed := py_int_of_time now - conntime in
  exists first second,
    conn_fmt now conntime = shown first second /\
    shown_seconds first second <= elapsed
    < shown_seconds first second + unit_seconds (last_unit first second) /\
    match second with
    | Some p => 0 < p.1 /\ unit_seconds p.2 < unit_seconds first.2
    | None => True
    end /\
    (0 < first.1 \/ elapsed = 0 /\ first = (0, Seconds)).
Proof.
  intros Hc He. cbv zeta. unfold conn_fmt.
  destruct (conntime =? 0) eqn:E; [apply Z.eqb_eq in E; contradiction|].
  apply elapsed_fmt_shown, He.
Qed.

(** X18. A connection time that lies in the future is shown without its
    day count, as the time elapsed modulo one day: a peer connected five
    seconds from now reads "23h59m". *)
Theorem future_connection_time_wraps_around (now : Q) (conntime : Z) :
  conntime <> 0 ->
  py_int_of_time now - conntime < 0 ->
  conn_fmt now conntime =
  elapsed_fmt ((py_int_of_time now - conntime) mod 86400).
Proof.
  intros Hc He. unfold conn_fmt.
  destruct (conntime =? 0) eqn:E; [apply Z.eqb_eq in E; contradiction|].
  set (e := py_int_of_time now - conntime) in *. clearbody e.
  unfold elapsed_fmt. cbv zeta.
  assert (D1 : (0 <? e / 86400) = false).
  { apply Z.ltb_ge. Z.div_mod_to_equations. lia. }
  assert (D2 : (0 <? (e mod 86400) / 86400) = false).
  { apply Z.ltb_ge. rewrite Z.div_small; [lia|].
    apply Z.mod_pos_bound. lia. }
  rewrite D1, D2, Z.mod_mod, mod_3600, mod_60_day by lia. reflexivity.
Qed.

(** X19. Once a prompt about the unreachable service was acknowledged at
    time [t], the next one is due only after the pause of the schedule:
    one, two, three minutes after the first three acknowledgements, five
    minutes after every later one; and only with five failures counted,
    the state green and the lookups enabled. *)
Theorem prompt_waits_for_the_schedule (t now : Q) (w : world) :
  0 <= Connectivity.api_down_prompt_count (conn w) ->
  ~ (t == 0)%Q ->
  let prompts := Connectivity.api_down_prompt_count (conn w) + 1 in
  should_prompt now (api_prompt_ack t w) = true <->
  (5 <= api_consecutive_failures (geo w) /\
   Connectivity.internet_state (conn w) = Connectivity.green /\
   geo_db_only_mode (geo w) = false) /\
  (t + inject_Z (quiet_seconds prompts) <= now)%Q.
Proof.
  intros Hcount Ht. cbv zeta. unfold should_prompt, api_prompt_ack.
  cbn [conn geo with_conn Connectivity.internet_state
       Connectivity.api_down_prompt_count
       Connectivity.api_down_last_prompt_time].
  set (n := Connectivity.api_down_prompt_count (conn w)) in *.
  assert (Hq : Qeq_bool t 0 = false).
  { destruct (Qeq_bool t 0) eqn:E; [|reflexivity].
    apply Qeq_bool_iff in E. contradiction. }
  rewrite Hq.
  assert (Hle : forall b : Z,
             Qle_bool (inject_Z b) (now - t) = true <->
             (t + inject_Z b <= now)%Q).
  { intros b. rewrite Qle_bool_iff. split; intros X; lra. }
  destruct (5 <=? api_consecutive_failures (geo w)) eqn:E5;
    [apply Z.leb_le in E5|apply Z.leb_gt in E5];
    cbn [andb]; [|split; [discriminate|intros ((X & _) & _); lia]].
  destruct (Connectivity.level_eqb (Connectivity.internet_state (conn w))
                                   Connectivity.green) eqn:Eg;
    cbn [andb].
  2:{ split; [discriminate|]. intros ((_ & X & _) & _).
      rewrite X in Eg. discriminate. }
  apply ConnectivityFacts.level_eqb_eq in Eg.
  destruct (geo_db_only_mode (geo w)) eqn:Em; cbn [negb].
  { split; [discriminate|]. intros ((_ & _ & X) & _). discriminate. }
  destruct (n + 1 =? 0) eqn:E0; [apply Z.eqb_eq in E0; lia|].
  unfold quiet_seconds.
  destruct (n + 1 <=? 3) eqn:E3; cbn [andb].
  - apply Z.leb_le in E3.
    replace ((n + 1) * 60) with (60 * (n + 1)) by lia.
    destruct (Qle_bool (inject_Z (60 * (n + 1))) (now - t)) eqn:Eq.
    + apply Hle in Eq. split; auto.
    + assert (E3' : (3 <? n + 1) = false) by (apply Z.ltb_ge; lia).
      rewrite E3'. cbn [andb]. split; [discriminate|].
      intros (_ & X). apply Hle in X. congruence.
  - apply Z.leb_gt in E3.
    assert (E3' : (3 <? n + 1) = true) by (apply Z.ltb_lt; lia).
    rewrite E3'. cbn [andb].
    destruct (Qle_bool (inject_Z 300) (now - t)) eqn:Eq.
    + apply Hle in Eq. split; auto.
    + split; [discriminate|]. intros (_ & X). apply Hle in X. congruence.
Qed.

End DashboardFacts.

(** ** The configuration file *)

Module ConfigFacts.
Import Py Net Config AddressFacts.

Lemma prefix_append (a rest : string) : String.prefix a (a +:+ rest) = true.
Proof.
  induction a as [|c a IH]; [destruct rest; reflexivity|].
  change (String c a +:+ rest) with (String c (a +:+ rest)).
  cbn. destruct (ascii_dec c c); [exact IH|congruence].
Qed.

Lemma append_assoc (a b c : string) : (a +:+ b) +:+ c = a +:+ b +:+ c.
Proof.
  induction a as [|x a IH]; [reflexivity|].
  change (String x a +:+ b) with (String x (a +:+ b)).
  change (String x (a +:+ b) +:+ c) with (String x ((a +:+ b) +:+ c)).
  rewrite IH. reflexivity.
Qed.

Lemma assignment_starts_with_key (key value : string) :
  startswith (assignment key value) (key +:+ "=") = true.
Proof.
  unfold startswith, assignment.
  rewrite <- (append_assoc key "="). apply prefix_append.
Qed.

Section Replace.
Variable p : string -> bool.
Variable v : string.
Hypothesis Hv : p v = true.

Lemma replace_test (l : string) : p (if p l then v else l) = p l.
Proof. destruct (p l) eqn:E; [exact Hv|exact E]. Qed.

Lemma replace_idempotent (l : string) :
  (if p (if p l then v else l) then v else (if p l then v else l)) =
  (if p l then v else l).
Proof. rewrite replace_test. destruct (p l); reflexivity. Qed.

Lemma existsb_replace (lines : list string) :
  existsb p (map (fun l => if p l then v else l) lines) = existsb p lines.
Proof.
  induction lines as [|l lines IH]; [reflexivity|].
  cbn [map existsb]. rewrite replace_test, IH. reflexivity.
Qed.

Lemma others_replace (lines : list string) :
  List.filter (fun l => negb (p l)) (map (fun l => if p l then v else l) lines)
  = List.filter (fun l => negb (p l)) lines.
Proof.
  induction lines as [|l lines IH]; [reflexivity|].
  cbn [map List.filter]. rewrite replace_test, IH.
  destruct (p l); reflexivity.
Qed.

Lemma key_lines_replace (lines : list string) (line : string) :
  In line (map (fun l => if p l then v else l) lines) -> p line = true ->
  line = v.
Proof.
  intros Hin Hk. apply in_map_iff in Hin. destruct Hin as (l & <- & _).
  rewrite replace_test in Hk. rewrite Hk. reflexivity.
Qed.

Lemma replace_all_facts (lines : list string) :
  let save lines :=
    if existsb p lines then map (fun l => if p l then v else l) lines
    else map (fun l => if p l then v else l) lines ++ [v] in
  In v (save lines) /\
  (forall line, In line (save lines) -> p line = true -> line = v) /\
  List.filter (fun l => negb (p l)) (save lines) =
  List.filter (fun l => negb (p l)) lines /\
  save (save lines) = save lines.
Proof.
  cbv beta zeta. destruct (existsb p lines) eqn:Ef.
  - split; [|split; [|split]].
    + apply existsb_exists in Ef. destruct Ef as (l & Hin & Hk).
      apply in_map_iff. exists l. split; [|exact Hin].
      rewrite Hk. reflexivity.
    + apply key_lines_replace.
    + apply others_replace.
    + rewrite existsb_replace, Ef, map_map.
      apply map_ext. intros l. apply replace_idempotent.
  - split; [|split; [|split]].
    + apply in_or_app. right. left. reflexivity.
    + intros line Hin Hk. apply in_app_or in Hin.
      destruct Hin as [Hin|[<-|[]]]; [|reflexivity].
      apply (key_lines_replace lines); assumption.
    + rewrite List.filter_app, others_replace. cbn [List.filter].
      rewrite Hv. cbn [negb]. apply app_nil_r.
    + rewrite existsb_app, existsb_replace, Ef. cbn [existsb orb].
      rewrite Hv. cbn [orb].
      rewrite map_app, map_map. cbn [map]. rewrite Hv. f_equal.
      apply map_ext. intros l. apply replace_idempotent.
Qed.

End Replace.

(** X20. After [save_config_value] the file has a line for the key, every
    line that opens with the key carries the new value, the other lines
    are kept in their order, and saving the same value again over the
    lines written changes nothing. *)
Theorem save_config_value_sets_the_key (key value : string)
        (lines : list string) :
  let lines' := save_config_value key value lines in
  let is_key line := startswith line (key +:+ "=") in
  In (assignment key value) lines' /\
  (forall line, In line lines' -> is_key line = true ->
                line = assignment key value) /\
  List.filter (fun line => negb (is_key line)) lines' =
  List.filter (fun line => negb (is_key line)) lines /\
  save_config_value key value lines' = lines'.
Proof.
  exact (replace_all_facts (fun line => startswith line (key +:+ "="))
           (assignment key value) (assignment_starts_with_key key value)
           lines).
Qed.

Section Anchor.
Variables p c : string -> bool.
Variable v : string.
Hypothesis Hv : p v = true.

Lemma replace_none (lines : list string) :
  existsb p lines = false ->
  map (fun l => if p l then v else l) lines = lines.
Proof.
  induction lines as [|l lines IH]; [reflexivity|].
  cbn [existsb map]. intros E. apply orb_false_iff in E.
  destruct E as [E1 E2]. rewrite E1, (IH E2). reflexivity.
Qed.

Lemma insert_before_none (lines : list string) :
  existsb c lines = false ->
  flat_map (fun l => if c l then [v; l] else [l]) lines = lines.
Proof.
  induction lines as [|l lines IH]; [reflexivity|].
  cbn [existsb flat_map]. intros E. apply orb_false_iff in E.
  destruct E as [E1 E2]. rewrite E1, (IH E2). reflexivity.
Qed.

Lemma insert_before_in (lines : list string) :
  existsb p lines = false ->
  In v (flat_map (fun l => if c l then [v; l] else [l]) lines) <->
  existsb c lines = true.
Proof.
  induction lines as [|l lines IH]; cbn [existsb flat_map].
  - intros _. split; [intros []|discriminate].
  - intros E. apply orb_false_iff in E. destruct E as [E1 E2].
    rewrite in_app_iff, (IH E2).
    destruct (c l) eqn:Ec; cbn [orb].
    + split; [trivial|]. intros _. left. left. reflexivity.
    + split.
      * intros [[X|[]]|X]; [|exact X]. subst l. congruence.
      * intros X. right. exact X.
Qed.

Lemma existsb_or (lines : list string) :
  existsb (fun l => p l || c l) lines = existsb p lines || existsb c lines.
Proof.
  induction lines as [|l lines IH]; [reflexivity|].
  cbn [existsb]. rewrite IH.
  destruct (p l), (c l), (existsb p lines), (existsb c lines); reflexivity.
Qed.

Lemma anchored_save (lines : list string) :
  let save :=
    if existsb p lines then map (fun l => if p l then v else l) lines
    else
      match flat_map (fun l => if c l then [v; l] else [l])
                     (map (fun l => if p l then v else l) lines) with
      | [] => map (fun l => if p l then v else l) lines ++ [v]
      | _ :: _ =>
          flat_map (fun l => if c l then [v; l] else [l])
                   (map (fun l => if p l then v else l) lines)
      end in
  let anchored := existsb (fun l => p l || c l) lines in
  (In v save <-> lines = [] \/ anchored = true) /\
  (lines <> [] -> anchored = false -> save = lines).
Proof.
  cbv zeta. rewrite existsb_or.
  destruct (existsb p lines) eqn:Ef; cbn [orb].
  - split; [|discriminate].
    split; [auto|]. intros _.
    apply existsb_exists in Ef. destruct Ef as (l & Hin & Hk).
    apply in_map_iff. exists l. split; [|exact Hin].
    rewrite Hk. reflexivity.
  - rewrite (replace_none lines Ef).
    destruct lines as [|l lines].
    + cbn. split; [|intros X; contradiction].
      split; [auto|]. intros _. left. reflexivity.
    + assert (Hne : exists x rest,
                flat_map (fun l => if c l then [v; l] else [l]) (l :: lines)
                = x :: rest).
      { cbn [flat_map]. destruct (c l); cbn [app]; eauto. }
      destruct Hne as (x & rest & E).
      pose proof (insert_before_in (l :: lines) Ef) as HI.
      pose proof (insert_before_none (l :: lines)) as HN.
      rewrite E in *. split.
      * rewrite HI. split; [auto|]. intros [X|X]; [discriminate|exact X].
      * intros _ X. apply HN, X.
Qed.

End Anchor.

(** X21. [save_port_to_config] writes the port only next to an anchor: the
    port line is in the file afterwards exactly when the file was empty or
    had a line opening with [MBTC_WEB_PORT=] or [MBTC_CONFIGURED=]; a file
    with other lines only is written back as it was, without the port. *)
Theorem port_is_saved_only_next_to_an_anchor (port : Z)
        (lines : list string) :
  let port_line := assignment "MBTC_WEB_PORT" (pretty port) in
  let anchored :=
    existsb (fun line => startswith line "MBTC_WEB_PORT="
                         || startswith line "MBTC_CONFIGURED=") lines in
  (In port_line (save_port_to_config port lines) <->
   lines = [] \/ anchored = true) /\
  (lines <> [] -> anchored = false ->
   save_port_to_config port lines = lines).
Proof.
  exact (anchored_save (fun line => startswith line "MBTC_WEB_PORT=")
           (fun line => startswith line "MBTC_CONFIGURED=")
           (assignment "MBTC_WEB_PORT" (pretty port))
           (assignment_starts_with_key "MBTC_WEB_PORT" (pretty port))
           lines).
Qed.

(** The decimal digits of a number hold no other character. *)
Lemma pretty_N_go_free (c : ascii) (x : N) (s : string) :
  (forall d, Ascii.eqb (pretty_N_char d) c = false) ->
  count_char c s = 0%nat -> count_char c (pretty_N_go x s) = 0%nat.
Proof.
  intros Hc. revert s.
  induction (N.lt_wf_0 x) as [x _ IH]; intros s Hs.
  destruct (decide (0 < x)%N) as [Hx|Hx].
  - rewrite pretty_N_go_step by exact Hx. apply IH.
    + apply N.div_lt; [exact Hx|reflexivity].
    + cbn [count_char]. rewrite Hc, Hs. reflexivity.
  - replace x with 0%N by lia. rewrite pretty_N_go_0. exact Hs.
Qed.

Lemma pretty_port_free (c : ascii) (port : Z) :
  (forall d, Ascii.eqb (pretty_N_char d) c = false) ->
  0 < port -> count_char c (pretty port) = 0%nat.
Proof.
  intros Hc Hp. destruct port as [|q|q]; try lia.
  unfold pretty, pretty_Z, pretty, pretty_positive, pretty, pretty_N.
  destruct (decide (N.pos q = 0%N)); [discriminate|].
  apply pretty_N_go_free; [exact Hc|reflexivity].
Qed.

Lemma digit_is_no_quote (d : N) : Ascii.eqb (pretty_N_char d) "034" = false.
Proof. unfold pretty_N_char. repeat case_match; reflexivity. Qed.

Lemma digit_is_no_apostrophe (d : N) :
  Ascii.eqb (pretty_N_char d) "'" = false.
Proof. unfold pretty_N_char. repeat case_match; reflexivity. Qed.

Lemma digit_is_no_space (d : N) : isspace (pretty_N_char d) = false.
Proof. unfold pretty_N_char. repeat case_match; reflexivity. Qed.

Lemma rstrip_char_absent (c : ascii) (s : string) :
  count_char c s = 0%nat -> rstrip_char c s = s.
Proof.
  induction s as [|a s IH]; [reflexivity|].
  intros Hc. apply count_char_head in Hc. destruct Hc as [Ha Hs].
  cbn [rstrip_char]. rewrite (IH Hs), Ha. destruct s; reflexivity.
Qed.

Lemma lstrip_char_absent (c : ascii) (s : string) :
  count_char c s = 0%nat -> lstrip_char c s = s.
Proof.
  destruct s as [|a s]; [reflexivity|].
  intros Hc. apply count_char_head in Hc. destruct Hc as [Ha _].
  cbn [lstrip_char]. rewrite Ha. reflexivity.
Qed.

Lemma rstrip_char_last (c : ascii) (s : string) :
  count_char c s = 0%nat -> rstrip_char c (s +:+ String c EmptyString) = s.
Proof.
  induction s as [|a s IH]; intros Hc.
  - rewrite append_nil. cbn [rstrip_char]. rewrite Ascii.eqb_refl.
    reflexivity.
  - apply count_char_head in Hc. destruct Hc as [Ha Hs].
    rewrite append_cons. cbn [rstrip_char]. rewrite (IH Hs), Ha.
    destruct s; reflexivity.
Qed.

(** A value between two quotes, read back without them. *)
Lemma strip_char_quoted (c : ascii) (s : string) :
  count_char c s = 0%nat ->
  strip_char c (String c (s +:+ String c EmptyString)) = s.
Proof.
  intros Hc. unfold strip_char. cbn [lstrip_char].
  rewrite Ascii.eqb_refl.
  destruct s as [|a s].
  - rewrite append_nil. cbn [lstrip_char]. rewrite Ascii.eqb_refl.
    reflexivity.
  - pose proof Hc as Hc'. apply count_char_head in Hc'.
    destruct Hc' as [Ha _].
    rewrite append_cons. cbn [lstrip_char]. rewrite Ha.
    rewrite <- append_cons. apply rstrip_char_last, Hc.
Qed.

Lemma rstrip_end (a : string) (c : ascii) :
  isspace c = false ->
  rstrip (a +:+ String c EmptyString) = a +:+ String c EmptyString.
Proof.
  intros Hc. induction a as [|x a IH].
  - rewrite append_nil. cbn [rstrip]. rewrite Hc. reflexivity.
  - rewrite append_cons. cbn [rstrip]. rewrite IH.
    destruct a; reflexivity.
Qed.

Section ReadBack.
Context `{Parsers}.
Variable port : Z.
Hypothesis Hrange : 1024 <= port <= 65535.
Hypothesis Hparse : int_of_str (pretty port) = Some port.

Lemma strip_port_line :
  strip (assignment "MBTC_WEB_PORT" (pretty port)) =
  assignment "MBTC_WEB_PORT" (pretty port).
Proof.
  unfold strip.
  change (lstrip (assignment "MBTC_WEB_PORT" (pretty port)))
    with (assignment "MBTC_WEB_PORT" (pretty port)).
  change (assignment "MBTC_WEB_PORT" (pretty port))
    with (("MBTC_WEB_PORT=" +:+ quote) +:+ pretty port +:+ quote).
  rewrite <- append_assoc. apply rstrip_end. reflexivity.
Qed.

Lemma get_port_line (rest : list string) :
  get_configured_port (assignment "MBTC_WEB_PORT" (pretty port) :: rest)
  = port.
Proof.
  cbn [get_configured_port]. rewrite strip_port_line.
  change (startswith (assignment "MBTC_WEB_PORT" (pretty port))
                     "MBTC_WEB_PORT=")
    with (startswith (assignment "MBTC_WEB_PORT" (pretty port))
                     ("MBTC_WEB_PORT" +:+ "=")).
  rewrite assignment_starts_with_key.
  change (assignment "MBTC_WEB_PORT" (pretty port))
    with ("MBTC_WEB_PORT" +:+ String "=" EmptyString
          +:+ String "034" (pretty port +:+ String "034" EmptyString)).
  rewrite (split_rest_first "=" EmptyString "MBTC_WEB_PORT") by reflexivity.
  rewrite strip_char_quoted
    by (apply pretty_port_free; [apply digit_is_no_quote|lia]).
  assert (Ha : count_char "'" (pretty port) = 0%nat)
    by (apply pretty_port_free; [apply digit_is_no_apostrophe|lia]).
  unfold strip_char.
  rewrite (lstrip_char_absent _ _ Ha), (rstrip_char_absent _ _ Ha), Hparse.
  destruct (1024 <=? port) eqn:E1; [|apply Z.leb_gt in E1; lia].
  destruct (port <=? 65535) eqn:E2; [|apply Z.leb_gt in E2; lia].
  reflexivity.
Qed.

Lemma get_skip (l : string) (rest : list string) :
  startswith (strip l) "MBTC_WEB_PORT=" = false ->
  get_configured_port (l :: rest) = get_configured_port rest.
Proof. intros E. cbn [get_configured_port]. rewrite E. reflexivity. Qed.

Lemma get_reads_port (L : list string) :
  Forall (fun l => l = assignment "MBTC_WEB_PORT" (pretty port)
                   \/ startswith (strip l) "MBTC_WEB_PORT=" = false) L ->
  In (assignment "MBTC_WEB_PORT" (pretty port)) L ->
  get_configured_port L = port.
Proof.
  induction L as [|l L IH]; intros HF Hin; [destruct Hin|].
  apply Forall_cons in HF. destruct HF as [[->|Hl] HF].
  - apply get_port_line.
  - rewrite (get_skip l L Hl). apply IH; [exact HF|].
    destruct Hin as [->|Hin]; [|exact Hin].
    rewrite strip_port_line in Hl.
    change (startswith (assignment "MBTC_WEB_PORT" (pretty port))
                       "MBTC_WEB_PORT=")
      with (startswith (assignment "MBTC_WEB_PORT" (pretty port))
                       ("MBTC_WEB_PORT" +:+ "=")) in Hl.
    rewrite assignment_starts_with_key in Hl. discriminate.
Qed.

Lemma get_default (L : list string) :
  Forall (fun l => startswith (strip l) "MBTC_WEB_PORT=" = false) L ->
  get_configured_port L = DEFAULT_WEB_PORT.
Proof.
  induction L as [|l L IH]; intros HF; [reflexivity|].
  apply Forall_cons in HF. destruct HF as [Hl HF].
  rewrite (get_skip l L Hl). apply IH, HF.
Qed.

End ReadBack.

(** The lines written are the port line and lines of the file that do not
    open with the key. *)
Lemma save_port_lines (port : Z) (lines : list string) :
  Forall (fun l => l = assignment "MBTC_WEB_PORT" (pretty port)
                   \/ In l lines /\ startswith l "MBTC_WEB_PORT=" = false)
         (save_port_to_config port lines).
Proof.
  unfold save_port_to_config. cbv zeta.
  set (v := assignment "MBTC_WEB_PORT" (pretty port)).
  assert (Hmap : forall ls,
             (forall l, In l ls -> In l lines) ->
             Forall (fun l => l = v \/
                              In l lines /\ startswith l "MBTC_WEB_PORT=" = false)
                    (map (fun line => if startswith line "MBTC_WEB_PORT="
                                      then v else line) ls)).
  { induction ls as [|l ls IH]; intros Hsub; [constructor|].
    cbn [map]. constructor.
    - destruct (startswith l "MBTC_WEB_PORT=") eqn:E; [auto|].
      right. split; [apply Hsub; left; reflexivity|exact E].
    - apply IH. intros x Hx. apply Hsub. right. exact Hx. }
  specialize (Hmap lines (fun l Hl => Hl)).
  destruct (existsb _ lines); [exact Hmap|].
  set (new_lines := map _ lines) in *. clearbody new_lines.
  assert (Hflat : Forall (fun l => l = v \/
                     In l lines /\ startswith l "MBTC_WEB_PORT=" = false)
                   (flat_map (fun line => if startswith line "MBTC_CONFIGURED="
                                          then [v; line] else [line])
                             new_lines)).
  { induction Hmap as [|l ls Hl _ IH]; [constructor|].
    cbn [flat_map]. apply Forall_app. split; [|exact IH].
    destruct (startswith l "MBTC_CONFIGURED=").
    - apply Forall_cons. split; [left; reflexivity|].
      apply Forall_cons. split; [exact Hl|apply Forall_nil_2].
    - apply Forall_cons. split; [exact Hl|apply Forall_nil_2]. }
  destruct (flat_map _ new_lines) eqn:E; [|exact Hflat].
  apply Forall_app. split; [exact Hmap|].
  apply Forall_cons. split; [left; reflexivity|apply Forall_nil_2].
Qed.

(** X22. The port saved by [save_port_to_config] is the port that
    [get_configured_port] reads back, for a file whose lines carry no
    white space at either end and which is empty or holds an anchor line;
    from a file without an anchor the default port is read back
    instead. *)
Theorem saved_port_is_read_back `{Parsers} (port : Z) (lines : list string) :
  1024 <= port <= 65535 ->
  int_of_str (pretty port) = Some port ->
  Forall (fun line => strip line = line) lines ->
  let anchored :=
    existsb (fun line => startswith line "MBTC_WEB_PORT="
                         || startswith line "MBTC_CONFIGURED=") lines in
  (lines = [] \/ anchored = true ->
   get_configured_port (save_port_to_config port lines) = port) /\
  (lines <> [] -> anchored = false ->
   get_configured_port (save_port_to_config port lines) = DEFAULT_WEB_PORT).
Proof.
  intros Hrange Hparse Hstrip. cbv zeta.
  destruct (anchored_save (fun line => startswith line "MBTC_WEB_PORT=")
              (fun line => startswith line "MBTC_CONFIGURED=")
              (assignment "MBTC_WEB_PORT" (pretty port))
              (assignment_starts_with_key "MBTC_WEB_PORT" (pretty port))
              lines) as [Hin Hsame].
  change (In (assignment "MBTC_WEB_PORT" (pretty port))
             (save_port_to_config port lines) <->
          lines = [] \/
          existsb (fun line => startswith line "MBTC_WEB_PORT="
                               || startswith line "MBTC_CONFIGURED=") lines
          = true) in Hin.
  change (lines <> [] ->
          existsb (fun line => startswith line "MBTC_WEB_PORT="
                               || startswith line "MBTC_CONFIGURED=") lines
          = false ->
          save_port_to_config port lines = lines) in Hsame.
  assert (Hkey : forall l, In l lines ->
                           startswith (strip l) "MBTC_WEB_PORT="
                           = startswith l "MBTC_WEB_PORT=").
  { intros l Hl. rewrite Forall_forall in Hstrip.
    rewrite (Hstrip l) by (apply list_elem_of_In; exact Hl). reflexivity. }
  split.
  - intros Ha. apply (get_reads_port port Hrange Hparse).
    + eapply Forall_impl; [apply save_port_lines|].
      intros l [->|[Hl E]]; [auto|]. right. rewrite (Hkey l Hl). exact E.
    + apply Hin, Ha.
  - intros Hne Ha. rewrite (Hsame Hne Ha). apply get_default.
    apply Forall_forall. intros l Hl. apply list_elem_of_In in Hl.
    rewrite (Hkey l Hl).
    rewrite existsb_or in Ha. apply orb_false_iff in Ha.
    destruct Ha as [Ha _].
    destruct (startswith l "MBTC_WEB_PORT=") eqn:E; [|reflexivity].
    assert (X : existsb (fun line => startswith line "MBTC_WEB_PORT=") lines
                = true).
    { apply existsb_exists. exists l. auto. }
    congruence.
Qed.

End ConfigFacts.

(** ** Further instances *)

Module MoreExamples.
Import Py GeoDb Net Engine Spec Notions Dashboard Update Config Sample Cases.
Import WorkerFacts HistoryFacts StoreFacts AddressFacts DashboardFacts
       ConfigFacts.
Import Connectivity (level, green, yellow, red, level_eqb).

Lemma failed_request_is_marked_and_dropped_witness :
  let w := queued_world in
  let w1 := with_geo (set_geo_queue []) queued_world in
  next_item w = Some ("8.8.8.8", "ipv4", w1) /\
  get_geo_from_db (db (geo w)) "8.8.8.8" = None /\
  skip_api w = false /\
  failed_reply RequestRaised = true /\
  exists w',
    geo_worker RequestRaised 100 w = Running w' /\
    get_cached_geo w' "8.8.8.8" = Some (blank_entry "unavailable") /\
    api_requests (geo w') = "8.8.8.8" :: api_requests (geo w) /\
    api_consecutive_failures (geo w') = api_consecutive_failures (geo w) + 1 /\
    Connectivity.internet_state (conn w') = yellow /\
    ("8.8.8.8" ∉ pending_lookups (geo w')) /\
    geo_queue (geo w') = geo_queue (geo w1) /\
    offline_queue (geo w') = offline_queue (geo w1) /\
    db (geo w') = db (geo w).
Proof.
  intros w w1.
  assert (Hnext : next_item w = Some ("8.8.8.8", "ipv4", w1))
    by (vm_compute; reflexivity).
  assert (Hdb : get_geo_from_db (db (geo w)) "8.8.8.8" = None)
    by (vm_compute; reflexivity).
  assert (Hskip : skip_api w = false) by (vm_compute; reflexivity).
  assert (Hfail : failed_reply RequestRaised = true) by reflexivity.
  split; [exact Hnext|]. split; [exact Hdb|]. split; [exact Hskip|].
  split; [exact Hfail|].
  exact (failed_request_is_marked_and_dropped
           RequestRaised 100 w w1 "8.8.8.8" "ipv4" Hnext Hdb Hskip Hfail).
Defined.

Lemma validator_exception_ends_the_worker_witness :
  let w := queued_world in
  let w1 := with_geo (set_geo_queue []) queued_world in
  next_item w = Some ("8.8.8.8", "ipv4", w1) /\
  get_geo_from_db (db (geo w)) "8.8.8.8" = None /\
  skip_api w = false /\
  status_is numeric_country "success" = true /\
  is_valid_geo_data numeric_country = inl AttributeError /\
  exists w',
    geo_worker (Replied 200 (Some numeric_country)) 100 w
    = Died AttributeError w' /\
    (AttributeError = AttributeError \/ AttributeError = OverflowError) /\
    geo_cache (geo w') = geo_cache (geo w) /\
    pending_lookups (geo w') = pending_lookups (geo w) /\
    db (geo w') = db (geo w) /\
    api_requests (geo w') = "8.8.8.8" :: api_requests (geo w).
Proof.
  intros w w1.
  assert (Hnext : next_item w = Some ("8.8.8.8", "ipv4", w1))
    by (vm_compute; reflexivity).
  assert (Hdb : get_geo_from_db (db (geo w)) "8.8.8.8" = None)
    by (vm_compute; reflexivity).
  assert (Hskip : skip_api w = false) by (vm_compute; reflexivity).
  assert (Hs : status_is numeric_country "success" = true)
    by (vm_compute; reflexivity).
  assert (He : is_valid_geo_data numeric_country = inl AttributeError)
    by (vm_compute; reflexivity).
  split; [exact Hnext|]. split; [exact Hdb|]. split; [exact Hskip|].
  split; [exact Hs|]. split; [exact He|].
  exact (validator_exception_ends_the_worker
           numeric_country AttributeError 100 w w1 "8.8.8.8" "ipv4"
           Hnext Hdb Hskip Hs He).
Defined.

Lemma stored_address_needs_no_request_witness :
  let w := stored_world in
  let w1 := with_geo (set_geo_queue []) stored_world in
  let d := dict_of_row "8.8.8.8" (stored_value sample_record 1700000000) in
  next_item w = Some ("8.8.8.8", "ipv4", w1) /\
  get_geo_from_db (db (geo w)) "8.8.8.8" = Some d /\
  exists w',
    geo_worker RequestRaised 100 w = Running w' /\
    get_cached_geo w' "8.8.8.8" = Some (ok_entry d true) /\
    api_requests (geo w') = api_requests (geo w) /\
    api_delays (geo w') = api_delays (geo w) /\
    db (geo w') = db (geo w) /\
    conn w' = conn w /\
    ("8.8.8.8" ∉ pending_lookups (geo w')).
Proof.
  intros w w1 d.
  assert (Hnext : next_item w = Some ("8.8.8.8", "ipv4", w1))
    by reflexivity.
  assert (Hdb : get_geo_from_db (db (geo w)) "8.8.8.8" = Some d).
  { unfold get_geo_from_db. cbn [w stored_world with_geo geo db set_db
      one_row_store geo_db_enabled GEO_DB_FILE negb].
    rewrite lookup_singleton_eq. reflexivity. }
  split; [exact Hnext|]. split; [exact Hdb|].
  exact (stored_address_needs_no_request
           RequestRaised 100 w w1 "8.8.8.8" "ipv4" d Hnext Hdb).
Defined.

Lemma private_addresses_are_never_requested_witness :
  let s := mkStore false None in
  forallb (fun o => negb (outside_lookup o)) mixed_history = true /\
  (forall ip, ip ∈ api_requests (geo (run_ops (startup s) mixed_history)) ->
              is_private_ip ip = false) /\
  (forall ip nt,
      (ip, nt) ∈ waiting (geo (run_ops (startup s) mixed_history)) ->
      is_public_address nt ip = true).
Proof.
  intros s.
  assert (Hops : forallb (fun o => negb (outside_lookup o)) mixed_history
                 = true) by reflexivity.
  split; [exact Hops|].
  exact (private_addresses_are_never_requested s mixed_history Hops).
Defined.


Lemma save_leaves_other_addresses_witness :
  let st := mkStore true (Some (Table ∅ [])) in
  let st' := save_geo_to_db "8.8.8.8" (payload_of sample_record) 1700000000
                            st in
  "1.1.1.1" <> "8.8.8.8" /\
  get_geo_from_db st' "1.1.1.1" = get_geo_from_db st "1.1.1.1" /\
  (row_count st <= row_count st' <= S (row_count st))%nat.
Proof.
  intros st st'.
  assert (Hne : "1.1.1.1" <> "8.8.8.8") by discriminate.
  split; [exact Hne|].
  exact (save_leaves_other_addresses "8.8.8.8" "1.1.1.1"
           (payload_of sample_record) 1700000000 st Hne).
Defined.

Lemma stored_record_is_shown_like_the_reply_witness :
  keeps_typed_values /\
  int64 (g_offset sample_record) /\
  int64 (py_int_of_time 1700000000) /\
  exists d,
    get_geo_from_db
      (save_geo_to_db "8.8.8.8" (payload_of sample_record) 1700000000
                      (mkStore true (Some (Table ∅ []))))
      "8.8.8.8" = Some d /\
    forall k,
      ok_entry d true !! k = ok_entry (payload_of sample_record) false !! k
      \/ k ∈ ["mobile"; "proxy"; "hosting"] /\
         exists b : bool,
           ok_entry d true !! k = Some (PInt (if b then 1 else 0)) /\
           ok_entry (payload_of sample_record) false !! k = Some (PBool b).
Proof.
  assert (Hk : keeps_typed_values).
  { repeat split; intros; reflexivity. }
  assert (Ho : int64 (g_offset sample_record))
    by (vm_compute; split; [discriminate|reflexivity]).
  assert (Hn : int64 (py_int_of_time 1700000000))
    by (vm_compute; split; [discriminate|reflexivity]).
  split; [exact Hk|]. split; [exact Ho|]. split; [exact Hn|].
  exact (stored_record_is_shown_like_the_reply
           "8.8.8.8" sample_record 1700000000 ∅ [] Hk Ho Hn).
Defined.

Lemma host_and_port_are_split_at_the_colon_witness :
  count_char colon "203.0.113.7" = 0%nat /\
  count_char colon "8333" = 0%nat /\
  startswith "203.0.113.7" "[" = false /\
  extract_ip ("203.0.113.7" +:+ ":" +:+ "8333") = "203.0.113.7" /\
  extract_port ("203.0.113.7" +:+ ":" +:+ "8333") = "8333".
Proof.
  assert (Hh : count_char colon "203.0.113.7" = 0%nat) by reflexivity.
  assert (Hp : count_char colon "8333" = 0%nat) by reflexivity.
  assert (Hb : startswith "203.0.113.7" "[" = false) by reflexivity.
  split; [exact Hh|]. split; [exact Hp|]. split; [exact Hb|].
  exact (host_and_port_are_split_at_the_colon "203.0.113.7" "8333" Hh Hp Hb).
Defined.

Lemma bracketed_host_and_port_are_split_witness :
  count_char "]" "2001:db8::1" = 0%nat /\
  count_char "]" "8333" = 0%nat /\
  extract_ip ("[" +:+ "2001:db8::1" +:+ "]:" +:+ "8333") = "2001:db8::1" /\
  extract_port ("[" +:+ "2001:db8::1" +:+ "]:" +:+ "8333") = "8333".
Proof.
  assert (Hh : count_char "]" "2001:db8::1" = 0%nat) by reflexivity.
  assert (Hp : count_char "]" "8333" = 0%nat) by reflexivity.
  split; [exact Hh|]. split; [exact Hp|].
  exact (bracketed_host_and_port_are_split "2001:db8::1" "8333" Hh Hp).
Defined.

Lemma connection_time_shown_is_accurate_witness :
  let elapsed := py_int_of_time 100000 - 10000 in
  10000 <> 0 /\
  0 <= py_int_of_time 100000 - 10000 /\
  exists first second,
    conn_fmt 100000 10000 = shown first second /\
    shown_seconds first second <= elapsed
    < shown_seconds first second + unit_seconds (last_unit first second) /\
    match second with
    | Some p => 0 < p.1 /\ unit_seconds p.2 < unit_seconds first.2
    | None => True
    end /\
    (0 < first.1 \/ elapsed = 0 /\ first = (0, Seconds)).
Proof.
  intros elapsed.
  assert (Hc : 10000 <> 0) by discriminate.
  assert (He : 0 <= py_int_of_time 100000 - 10000)
    by (vm_compute; discriminate).
  split; [exact Hc|]. split; [exact He|].
  exact (connection_time_shown_is_accurate 100000 10000 Hc He).
Defined.

Lemma future_connection_time_wraps_around_witness :
  1005 <> 0 /\
  py_int_of_time 1000 - 1005 < 0 /\
  conn_fmt 1000 1005 = elapsed_fmt ((py_int_of_time 1000 - 1005) mod 86400).
Proof.
  assert (Hc : 1005 <> 0) by discriminate.
  assert (He : py_int_of_time 1000 - 1005 < 0) by (vm_compute; reflexivity).
  split; [exact Hc|]. split; [exact He|].
  exact (future_connection_time_wraps_around 1000 1005 Hc He).
Defined.

Lemma prompt_waits_for_the_schedule_witness :
  let w := Engine.initial in
  let prompts := Connectivity.api_down_prompt_count (conn w) + 1 in
  0 <= Connectivity.api_down_prompt_count (conn w) /\
  ~ (100 == 0)%Q /\
  (should_prompt 130 (api_prompt_ack 100 w) = true <->
   (5 <= api_consecutive_failures (geo w) /\
    Connectivity.internet_state (conn w) = Connectivity.green /\
    geo_db_only_mode (geo w) = false) /\
   (100 + inject_Z (quiet_seconds prompts) <= 130)%Q).
Proof.
  intros w prompts.
  assert (Hn : 0 <= Connectivity.api_down_prompt_count (conn w))
    by (vm_compute; discriminate).
  assert (Ht : ~ (100 == 0)%Q) by (intros X; vm_compute in X; discriminate).
  split; [exact Hn|]. split; [exact Ht|].
  exact (prompt_waits_for_the_schedule 100 130 w Hn Ht).
Defined.

Lemma saved_port_is_read_back_witness :
  let anchored :=
    existsb (fun line => startswith line "MBTC_WEB_PORT="
                         || startswith line "MBTC_CONFIGURED=")
            anchored_config in
  1024 <= 8080 <= 65535 /\
  int_of_str (pretty 8080) = Some 8080 /\
  Forall (fun line => strip line = line) anchored_config /\
  (anchored_config = [] \/ anchored = true ->
   get_configured_port (save_port_to_config 8080 anchored_config) = 8080) /\
  (anchored_config <> [] -> anchored = false ->
   get_configured_port (save_port_to_config 8080 anchored_config)
   = DEFAULT_WEB_PORT).
Proof.
  intros anchored.
  assert (Hr : 1024 <= 8080 <= 65535) by lia.
  assert (Hp : int_of_str (pretty 8080) = Some 8080)
    by (vm_compute; reflexivity).
  assert (Hs : Forall (fun line => strip line = line) anchored_config).
  { apply Forall_cons. split; [vm_compute; reflexivity|apply Forall_nil_2]. }
  split; [exact Hr|]. split; [exact Hp|]. split; [exact Hs|].
  exact (saved_port_is_read_back 8080 anchored_config Hr Hp Hs).
Defined.

End MoreExamples.
